(** * emp3r0r C2 core: a shallow embedding of the command tunnel, the
      file-transfer front end, module options, the operator long poll and
      the KCP configuration, with the properties of the specification
      checked against the Go sources. *)

From Stdlib Require Import ZArith Lia List Ascii String DecimalString.
From stdpp Require Import base option gmap strings list fin_maps.

Local Open Scope string_scope.

(** ** Go runtime conventions shared by all packages *)

(** A Go call either returns or panics (index out of range, nil pointer
    dereference, ...).  Shared state is threaded explicitly next to it, since
    what was written before a panic stays written. *)
Inductive outcome (A : Type) : Type :=
| Ret (a : A)
| Panic (why : string).
Arguments Ret {A} a.
Arguments Panic {A} why.

Definition panicked {A} (o : outcome A) : bool :=
  match o with Panic _ => true | Ret _ => false end.

(** ** package strings (the Go standard library functions the sources call) *)
Module GoStrings.

(** [strings.HasPrefix(s, p)]. *)
Definition HasPrefix (s p : string) : bool := String.prefix p s.

(** The scan of [strings.Split] for a non-empty separator: cut at the
    leftmost occurrence, skip the separator, go on with the rest.  [skip]
    counts the separator bytes still to be dropped. *)
Fixpoint split_go (sep : string) (skip : nat) (s : string) : list string :=
  match s with
  | EmptyString => [EmptyString]
  | String c s' =>
      match skip with
      | S k => split_go sep k s'
      | O =>
          if String.prefix sep s
          then EmptyString :: split_go sep (String.length sep - 1) s'
          else match split_go sep 0 s' with
               | f :: fs => String c f :: fs
               | [] => [String c EmptyString]
               end
      end
  end.

(** An empty separator explodes the string into its bytes (Go explodes
    into UTF-8 sequences; the sources only split on the magic string). *)
Fixpoint explode (s : string) : list string :=
  match s with
  | EmptyString => []
  | String c s' => String c EmptyString :: explode s'
  end.

(** [strings.Split(s, sep)]. *)
Definition Split (s sep : string) : list string :=
  match sep with
  | EmptyString => explode s
  | _ => split_go sep 0 s
  end.

(** [strings.Join(elems, sep)]. *)
Definition Join (elems : list string) (sep : string) : string :=
  String.concat sep elems.

(** [strings.Contains(s, substr)]. *)
Fixpoint Contains (s substr : string) : bool :=
  String.prefix substr s ||
  match s with
  | EmptyString => false
  | String _ s' => Contains s' substr
  end.

(** A separator is unbordered when none of its proper non-empty suffixes
    is also a prefix: two occurrences of it cannot overlap. *)
Definition unbordered (m : string) : Prop :=
  forall f m2, m = f ++ m2 -> f <> "" -> m2 <> "" -> String.prefix m2 m = false.

Fixpoint no_border_suffix (m s : string) : bool :=
  match s with
  | EmptyString => true
  | String _ s' =>
      match s' with
      | EmptyString => true
      | _ => negb (String.prefix s' m)
      end && no_border_suffix m s'
  end.

(** No field contains the separator. *)
Definition clean_fields (m : string) (fields : list string) : Prop :=
  Forall (fun f => Contains f m = false) fields.

End GoStrings.

(** ** Slices *)
Module GoSlice.

(** [a[i]]: panics when [i] is out of range. *)
Definition index {A} (a : list A) (i : nat) : outcome A :=
  match a !! i with
  | Some x => Ret x
  | None => Panic "index out of range"
  end.

(** [a[lo:hi]]: panics unless [lo <= hi <= len(a)]. *)
Definition slice {A} (a : list A) (lo hi : Z) : outcome (list A) :=
  if bool_decide (0 <= lo /\ lo <= hi /\ hi <= Z.of_nat (length a))%Z
  then Ret (take (Z.to_nat hi - Z.to_nat lo) (drop (Z.to_nat lo) a))
  else Panic "slice bounds out of range".

End GoSlice.

(** ** package def: build-time constants *)
Module Def.

(** [MagicString], the separator of the envelope fields. *)
Definition MagicString : string := "64781530-1475-4cf8-950c-dcdf4c619dbc".

End Def.

(** ** package cc: the inbound half of the message tunnel *)
Module Tunnel.

(** [emp3r0r_def.MsgTunData]: the JSON envelope. *)
Record MsgTunData := { Payload : string; Tag : string }.

(** An agent is handled through a [*Emp3r0rAgent]; the address tells two
    agents with the same tag apart. *)
Record Emp3r0rAgent := { agent_addr : positive; agent_Tag : string }.

(** The control interface of a connected agent. *)
Record Control := { Index : Z; Label : string }.

Inductive log_line :=
| LogError_target_not_found (tag : string) (payloadSplit : list string)
| LogWarning_timestamp (cmd_id : string)
| LogDebug_took (cmd : string)
| LogInfo_took (cmd : string)
| LogError_ps (out : string)
| LogError_ls (out : string).

(** The package-level variables [processAgentData] reads and writes.
    [Targets] is a Go map keyed by pointer; it is kept as an association
    list whose order stands for the iteration order of one [range] loop, a
    [None] value for a nil [*Control]. *)
Record cc_state := {
  Targets : list (Emp3r0rAgent * option Control);
  CmdResults : gmap string string;
  CmdTime : gmap string string;
  IsAPIEnabled : bool;
  DebugLevel : Z;
  log : list log_line;
  APIConn : list (string * string);
  OutputPane : list (Z * string * string);
  screenshots : list (string * Emp3r0rAgent)
}.

Definition set_CmdResults (st : cc_state) (r : gmap string string) : cc_state :=
  {| Targets := Targets st; CmdResults := r; CmdTime := CmdTime st;
     IsAPIEnabled := IsAPIEnabled st; DebugLevel := DebugLevel st;
     log := log st; APIConn := APIConn st; OutputPane := OutputPane st;
     screenshots := screenshots st |}.

Definition add_log (st : cc_state) (l : log_line) : cc_state :=
  {| Targets := Targets st; CmdResults := CmdResults st; CmdTime := CmdTime st;
     IsAPIEnabled := IsAPIEnabled st; DebugLevel := DebugLevel st;
     log := log st ++ [l]; APIConn := APIConn st; OutputPane := OutputPane st;
     screenshots := screenshots st |}.

Definition add_api (st : cc_state) (cmd msg : string) : cc_state :=
  {| Targets := Targets st; CmdResults := CmdResults st; CmdTime := CmdTime st;
     IsAPIEnabled := IsAPIEnabled st; DebugLevel := DebugLevel st;
     log := log st; APIConn := APIConn st ++ [(cmd, msg)];
     OutputPane := OutputPane st; screenshots := screenshots st |}.

Definition add_pane (st : cc_state) (idx : Z) (cmd out : string) : cc_state :=
  {| Targets := Targets st; CmdResults := CmdResults st; CmdTime := CmdTime st;
     IsAPIEnabled := IsAPIEnabled st; DebugLevel := DebugLevel st;
     log := log st; APIConn := APIConn st;
     OutputPane := OutputPane st ++ [(idx, cmd, out)];
     screenshots := screenshots st |}.

Definition add_screenshot (st : cc_state) (out : string) (a : Emp3r0rAgent) : cc_state :=
  {| Targets := Targets st; CmdResults := CmdResults st; CmdTime := CmdTime st;
     IsAPIEnabled := IsAPIEnabled st; DebugLevel := DebugLevel st;
     log := log st; APIConn := APIConn st; OutputPane := OutputPane st;
     screenshots := screenshots st ++ [(out, a)] |}.

(** [GetTargetFromTag]: the first agent of the iteration whose tag
    matches, nil when there is none. *)
Fixpoint GetTargetFromTag_loop (ts : list (Emp3r0rAgent * option Control))
    (tag : string) : option Emp3r0rAgent :=
  match ts with
  | [] => None
  | (t, _) :: rest =>
      if String.eqb (agent_Tag t) tag then Some t
      else GetTargetFromTag_loop rest tag
  end.

Definition GetTargetFromTag (st : cc_state) (tag : string) : option Emp3r0rAgent :=
  GetTargetFromTag_loop (Targets st) tag.

(** [Targets[target]]: nil for a nil or unknown key. *)
Fixpoint targets_lookup (ts : list (Emp3r0rAgent * option Control))
    (a : positive) : option Control :=
  match ts with
  | [] => None
  | (t, c) :: rest =>
      if Pos.eqb (agent_addr t) a then c else targets_lookup rest a
  end.

(** Modelled from the spec: the command names of package emp3r0r_def are
    not part of the sources at hand; the specification lists the built-in
    commands with their leading [!]. *)
Definition C2CmdPortFwd : string := "!port_fwd".
Definition C2CmdSSHD : string := "!sshd".
Definition C2CmdListDir : string := "!ls".

Section WithHelpers.

(** [util.ParseCmd], [time.Parse] on the recorded dispatch time, and the
    JSON-to-table renderers of the [ps] and [ls] replies belong to other
    packages; the tunnel is verified for any behaviour of theirs. *)
Variable ParseCmd : string -> list string.
Variable time_Parse_ok : string -> bool.
Variable render_ps : string -> option string.
Variable render_ls : string -> option string.

(** The display half of [processAgentData]: everything after the result
    has been cached. *)
Definition show_result (st : cc_state) (target : Emp3r0rAgent)
    (contrlIf : Control) (cmd out : string) (cmd_slice : list string)
    : cc_state * outcome unit :=
  let st := if IsAPIEnabled st
            then add_api st cmd (cmd ++ ":" ++ String "010" out)
            else st in
  match GoSlice.index cmd_slice 0 with
  | Panic why => (st, Panic why)
  | Ret c0 =>
      let shown : cc_state * option string :=
        if String.eqb c0 "screenshot" then (add_screenshot st out target, Some out)
        else if String.eqb c0 "ps" then
          match render_ps out with
          | Some t => (st, Some t)
          | None => (add_log st (LogError_ps out), None)
          end
        else if String.eqb c0 "ls" then
          match render_ls out with
          | Some t => (st, Some t)
          | None => (add_log st (LogError_ls out), None)
          end
        else (st, Some out) in
      match shown with
      | (st, None) => (st, Ret tt)
      | (st, Some out) =>
          let no_need_to_show :=
            GoStrings.HasPrefix cmd C2CmdPortFwd ||
            GoStrings.HasPrefix cmd C2CmdSSHD ||
            GoStrings.HasPrefix cmd C2CmdListDir in
          if bool_decide (DebugLevel st < 3)%Z && no_need_to_show
          then (st, Ret tt)
          else (add_pane st (Index contrlIf) cmd out, Ret tt)
      end
  end.

(** [processAgentData]: deal with data from agent side. *)
Definition processAgentData (st : cc_state) (data : MsgTunData)
    : cc_state * outcome unit :=
  let payloadSplit := GoStrings.Split (Payload data) Def.MagicString in
  match GoSlice.index payloadSplit 0 with
  | Panic why => (st, Panic why)
  | Ret op =>
      let target := GetTargetFromTag st (Tag data) in
      let contrlIf :=
        match target with
        | Some t => targets_lookup (Targets st) (agent_addr t)
        | None => None
        end in
      match target, contrlIf with
      | Some target, Some contrlIf =>
          if negb (String.eqb op "cmd") then (st, Ret tt)
          else
            match GoSlice.index payloadSplit 1 with
            | Panic why => (st, Panic why)
            | Ret cmd =>
                let cmd_slice := ParseCmd cmd in
                let n := Z.of_nat (length payloadSplit) in
                match GoSlice.slice payloadSplit 2 (n - 1) with
                | Panic why => (st, Panic why)
                | Ret outs =>
                    let out := GoStrings.Join outs " " in
                    let is_builtin_cmd := GoStrings.HasPrefix cmd "!" in
                    match GoSlice.index payloadSplit (length payloadSplit - 1) with
                    | Panic why => (st, Panic why)
                    | Ret cmd_id =>
                        let st := set_CmdResults st (<[cmd_id := out]> (CmdResults st)) in
                        let st :=
                          if time_Parse_ok (default "" (CmdTime st !! cmd_id))
                          then add_log st (if is_builtin_cmd
                                           then LogDebug_took cmd
                                           else LogInfo_took cmd)
                          else add_log st (LogWarning_timestamp cmd_id) in
                        show_result st target contrlIf cmd out cmd_slice
                    end
                end
            end
      | _, _ =>
          (add_log st (LogError_target_not_found (Tag data) payloadSplit), Ret tt)
      end
  end.

End WithHelpers.

(** An agent is registered when its tag resolves to an agent that has a
    control interface. *)
Definition registered (st : cc_state) (tag : string) : Prop :=
  exists t c, GetTargetFromTag st tag = Some t /\
              targets_lookup (Targets st) (agent_addr t) = Some c.

End Tunnel.

(** ** Formatting verbs of package fmt *)
Module GoFmt.

(** The [%d] verb on an [int64]. *)
Definition Sprint_d (z : Z) : string :=
  DecimalString.NilZero.string_of_int (Z.to_int z).

(** Lower-case hexadecimal digit of a value below sixteen. *)
Definition hex_digit (d : Z) : ascii :=
  if bool_decide (d < 10)%Z
  then ascii_of_N (Z.to_N (48 + d))
  else ascii_of_N (Z.to_N (87 + d)).

(** [n] hexadecimal digits of [x], most significant first ([%0nx]). *)
Fixpoint hex_fixed (n : nat) (x : Z) : string :=
  match n with
  | O => EmptyString
  | S k => hex_fixed k (x / 16) ++ String (hex_digit (x mod 16)) EmptyString
  end.

Definition is_hex (c : ascii) : bool :=
  let n := N_of_ascii c in
  ((48 <=? n) && (n <=? 57))%N || ((97 <=? n) && (n <=? 102))%N.

Fixpoint all_hex (s : string) : bool :=
  match s with
  | EmptyString => true
  | String c s' => is_hex c && all_hex s'
  end.

End GoFmt.

(** ** package ftp: StatFile and GetFile *)
Module Ftp.

(** [util.FileStat] as decoded from the agent's JSON reply. *)
Record FileStat := { Name : string; Size : Z; Checksum : string }.

(** [network.StreamHandler]: the fields [GetFile] fills in. *)
Record StreamHandler := { Token : string; BufSize : Z }.

Inductive node :=
| Dir
| File (content : list Byte.byte).

Inductive error :=
| ErrMkdir (write_dir : string)
| ErrAlreadyDownloading (save_to_file : string)
| ErrSendCmd (cmd : string)
| ErrUnmarshal (res : string)
| ErrStat (file_path : string) (cause : error)
| ErrAllocate (file_path : string).

(** The server-side state [GetFile] touches: the workspace on disk, the
    stream-handle map, the commands handed to the agent's tunnel, whether
    the agent's control connection is up, and the result table as
    [StatFile] left it. *)
Record world := {
  fs : gmap string node;
  FTPStreams : gmap string StreamHandler;
  sent : list (string * string);
  conn_up : bool;
  CmdResults : gmap string string
}.

(** What the environment decides during one call: the UUID drawn for the
    stat command, the random input of the token nonce, the content of the
    shared result table at each wake-up of the polling loop (the tunnel
    goroutine fills it concurrently), and whether the agent's connection is
    lost while the stat reply is awaited. *)
Record env := {
  uuid : string;
  rnd : Z;
  tbl_at : nat -> gmap string string;
  conn_lost : bool
}.

(** The functions of other packages that only transform values. *)
Class Platform := {
  filepath_Clean : string -> string;
  filepath_Dir : string -> string;
  FileBaseName : string -> string;
  FileGetDir : string;
  SHA256SumRaw : list Byte.byte -> string;
  json_Unmarshal_FileStat : string -> option FileStat
}.

(** Modelled from the spec: [util.IsExist], [util.IsDirExist],
    [util.FileSize], [util.FileAllocate] and [os.MkdirAll] are not under
    src.  They are the usual file-system queries; the specification asks
    [FileAllocate] to pre-allocate the final file at its full size. *)
Definition IsExist (w : world) (path : string) : bool :=
  bool_decide (is_Some (fs w !! path)).

Definition IsDirExist (w : world) (path : string) : bool :=
  match fs w !! path with Some Dir => true | _ => false end.

Definition FileSize (w : world) (path : string) : Z :=
  match fs w !! path with
  | Some (File c) => Z.of_nat (length c)
  | _ => 0
  end.

Definition set_fs (w : world) (f : gmap string node) : world :=
  {| fs := f; FTPStreams := FTPStreams w; sent := sent w;
     conn_up := conn_up w; CmdResults := CmdResults w |}.

Definition MkdirAll (w : world) (path : string) : option world :=
  match fs w !! path with
  | Some (File _) => None
  | _ => Some (set_fs w (<[path := Dir]> (fs w)))
  end.

Definition FileAllocate (w : world) (path : string) (n : Z) : option world :=
  match fs w !! path with
  | Some Dir => None
  | _ => if bool_decide (n < 0)%Z then None
         else Some (set_fs w (<[path := File (replicate (Z.to_nat n) Byte.x00)]> (fs w)))
  end.

(** Modelled from the spec: [agents.SendCmd] is not under src; sending
    fails with AgentNotConnected when the agent has no connection, and
    otherwise puts the command and its identifier on the tunnel. *)
Definition SendCmd (w : world) (cmd cmd_id : string) : option world :=
  if conn_up w
  then Some {| fs := fs w; FTPStreams := FTPStreams w;
               sent := sent w ++ [(cmd, cmd_id)];
               conn_up := conn_up w; CmdResults := CmdResults w |}
  else None.

(** Modelled from the spec: [util.RandMD5String] is not under src; the
    specification gives the nonce of a token as sixteen random hexadecimal
    characters. *)
Definition RandMD5String (r : Z) : string :=
  GoFmt.hex_fixed 16 (r mod 2 ^ 64).

(** Modelled from the spec: [def.C2CmdStat], listed among the built-in
    commands. *)
Definition C2CmdStat : string := "!stat".

(** The state when the polling loop of [StatFile] is left at wake-up [k]:
    the deferred function has deleted the entry of the command. *)
Definition after_wait (e : env) (w : world) (k : nat) : world :=
  {| fs := fs w; FTPStreams := FTPStreams w; sent := sent w;
     conn_up := conn_up w && negb (conn_lost e);
     CmdResults := delete (uuid e) (tbl_at e k) |}.

Definition set_FTPStreams (w : world) (s : gmap string StreamHandler) : world :=
  {| fs := fs w; FTPStreams := s; sent := sent w;
     conn_up := conn_up w; CmdResults := CmdResults w |}.

Section WithPlatform.
Context `{P : Platform}.

(** [SHA256SumFile(path)] of a regular file. *)
Definition SHA256SumFile (w : world) (path : string) : string :=
  match fs w !! path with
  | Some (File c) => SHA256SumRaw c
  | _ => ""
  end.

(** The [for] loop of [StatFile]: sleep 100 ms, look the identifier up,
    leave on a hit.  The loop has no exit of its own; [fuel] bounds how
    many iterations are unfolded and [None] means it is still polling.
    [k] numbers the wake-ups. *)
Fixpoint StatFile_loop (e : env) (cmd_id : string) (fuel k : nat)
    : option (nat * string) :=
  match fuel with
  | O => None
  | S fuel' =>
      match tbl_at e k !! cmd_id with
      | Some res => Some (k, res)
      | None => StatFile_loop e cmd_id fuel' (S k)
      end
  end.

(** [StatFile]: get stat info of a file on agent.  The deferred delete
    runs on every return after the command was sent. *)
Definition StatFile (e : env) (w : world) (filepath : string) (fuel : nat)
    : option (world * (FileStat + error)) :=
  let cmd_id := uuid e in
  let cmd := C2CmdStat ++ " --path '" ++ filepath ++ "'" in
  match SendCmd w cmd cmd_id with
  | None => Some (w, inr (ErrSendCmd cmd))
  | Some w =>
      match StatFile_loop e cmd_id fuel 0 with
      | None => None
      | Some (k, res) =>
          let w := after_wait e w k in
          match json_Unmarshal_FileStat res with
          | None => Some (w, inr (ErrUnmarshal res))
          | Some fileinfo => Some (w, inl fileinfo)
          end
      end
  end.

(** [GenerateGetFilePaths]: write directory, final path, temp path and
    lock path of a download. *)
Definition GenerateGetFilePaths (file_path : string)
    : string * string * string * string :=
  let file_path := filepath_Clean file_path in
  let write_dir := FileGetDir ++ filepath_Dir file_path in
  let save_to_file := write_dir ++ "/" ++ FileBaseName file_path in
  let tempname := save_to_file ++ ".downloading" in
  let lock := save_to_file ++ ".lock" in
  (write_dir, save_to_file, tempname, lock).

(** The command that asks the agent to stream a file. *)
Definition get_cmd (file_path : string) (offset : Z) (token : string) : string :=
  "get --file_path '" ++ file_path ++ "' --offset " ++ GoFmt.Sprint_d offset
    ++ " --token '" ++ token ++ "'".

(** [GetFile]: get file from agent.  The result is the pair
    [(ftpSh, err)] of the Go function, [None] standing for nil. *)
Definition GetFile (e : env) (w : world) (file_path : string) (fuel : nat)
    : option (world * (option StreamHandler * option error)) :=
  let '(write_dir, save_to_file, tempname, lock) := GenerateGetFilePaths file_path in
  let made :=
    if negb (IsDirExist w write_dir)
    then MkdirAll w write_dir
    else Some w in
  match made with
  | None => Some (w, (None, Some (ErrMkdir write_dir)))
  | Some w =>
      if IsExist w lock
      then Some (w, (None, Some (ErrAlreadyDownloading save_to_file)))
      else
        match StatFile e w file_path fuel with
        | None => None
        | Some (w, inr err) => Some (w, (None, Some (ErrStat file_path err)))
        | Some (w, inl fileinfo) =>
            let filesize := Size fileinfo in
            if IsExist w save_to_file &&
               String.eqb (SHA256SumFile w save_to_file) (Checksum fileinfo)
            then Some (w, (None, None))
            else
              match FileAllocate w save_to_file filesize with
              | None => Some (w, (None, Some (ErrAllocate file_path)))
              | Some w =>
                  let offset :=
                    if IsExist w tempname then FileSize w tempname else 0%Z in
                  let ftpSh :=
                    {| Token := RandMD5String (rnd e) ++ "-" ++ Checksum fileinfo;
                       BufSize := 1024 * 8 |} in
                  let w := set_FTPStreams w (<[file_path := ftpSh]> (FTPStreams w)) in
                  let cmd := get_cmd file_path offset (Token ftpSh) in
                  match SendCmd w cmd "" with
                  | None => Some (w, (None, Some (ErrSendCmd cmd)))
                  | Some w => Some (w, (Some ftpSh, None))
                  end
              end
        end
  end.

Definition write_dir_of (file_path : string) : string :=
  let '(write_dir, _, _, _) := GenerateGetFilePaths file_path in write_dir.
Definition save_path (file_path : string) : string :=
  let '(_, save_to_file, _, _) := GenerateGetFilePaths file_path in save_to_file.
Definition temp_path (file_path : string) : string :=
  let '(_, _, tempname, _) := GenerateGetFilePaths file_path in tempname.
Definition lock_path (file_path : string) : string :=
  let '(_, _, _, lock) := GenerateGetFilePaths file_path in lock.

(** The directory step of [GetFile]. *)
Definition made (w : world) (p : string) : option world :=
  if negb (IsDirExist w (write_dir_of p))
  then MkdirAll w (write_dir_of p)
  else Some w.

(** The command [StatFile] sends. *)
Definition stat_cmd (filepath : string) : string :=
  C2CmdStat ++ " --path '" ++ filepath ++ "'".

(** What the agent reported for the stat command, once the polling loop
    has seen it and it decoded. *)
Definition stat_reply (e : env) (fuel : nat) : option FileStat :=
  match StatFile_loop e (uuid e) fuel 0 with
  | Some (_, res) => json_Unmarshal_FileStat res
  | None => None
  end.

End WithPlatform.

(** A call begins a transfer when it hands back a stream handle. *)
Definition begins_transfer
    (r : option (world * (option StreamHandler * option error))) : bool :=
  match r with
  | Some (_, (Some _, None)) => true
  | _ => false
  end.

(** The state a finished call leaves behind. *)
Definition world_after
    (r : option (world * (option StreamHandler * option error))) (w : world) : world :=
  match r with
  | Some (w', _) => w'
  | None => w
  end.

End Ftp.

(** ** package cc: the memory-dump module's wait for its result *)
Module MemDump.

Inductive result :=
| PidOptionMissing
| SendCmdFailed
| EmptyResponse
| Fetch (path : string).

(** The bounded loop of [moduleMemDump]:
    [for i := 0; i < 100; i++ { look up; on a hit take it and break;
    sleep 100 ms }].  [left] is [100 - i]; the result is the text taken
    (empty when the loop ran out) and the number of sleeps. *)
Fixpoint wait_loop (tbl_at : nat -> gmap string string) (cmd_id : string)
    (left i : nat) : string * nat :=
  match left with
  | O => ("", i)
  | S left' =>
      match tbl_at i !! cmd_id with
      | Some res => (res, i)
      | None => wait_loop tbl_at cmd_id left' (S i)
      end
  end.

(** [moduleMemDump] up to the hand-over to [GetFile]: [pid] is the value
    of the option if it is set, [send_ok] whether [SendCmd] succeeded. *)
Definition moduleMemDump (pid : option string) (send_ok : bool)
    (tbl_at : nat -> gmap string string) (cmd_id : string) : result * nat :=
  match pid with
  | None => (PidOptionMissing, 0)
  | Some _ =>
      if negb send_ok then (SendCmdFailed, 0)
      else
        let '(cmd_res, sleeps) := wait_loop tbl_at cmd_id 100 0 in
        let path := cmd_res in
        if String.eqb path "" then (EmptyResponse, sleeps)
        else (Fetch path, sleeps)
  end.

(** Milliseconds slept per iteration. *)
Definition sleep_ms : Z := 100.

End MemDump.

(** ** Module options: the two [SetOption] helpers *)
Module Options.

(** [CurrentOption] / [def.ModOption]: the fields [SetOption] touches. *)
Record CurrentOption := { Name : string; Val : string; Vals : list string }.

Definition loc := positive.

Inductive log_line :=
| LogError_option_not_found (opt : string).

(** Both option maps hold pointers: an entry is an address into [heap], or
    nil ([None]); a missing key reads as nil, as Go maps do. *)
Record state := {
  heap : gmap loc CurrentOption;
  CurrentModuleOptions : gmap string (option loc);
  ActiveModule : option (gmap string (option loc));
  log : list log_line
}.

Definition set_Val (o : CurrentOption) (val : string) : CurrentOption :=
  {| Name := Name o; Val := val; Vals := Vals o |}.

Definition store_Val (st : state) (p : loc) (val : string) : state :=
  {| heap := alter (fun o => set_Val o val) p (heap st);
     CurrentModuleOptions := CurrentModuleOptions st;
     ActiveModule := ActiveModule st;
     log := log st |}.

(** Package cc, [SetOption]:
    [CurrentModuleOptions[opt].Val = val]. *)
Definition SetOption (st : state) (opt val : string) : state * outcome unit :=
  match default None (CurrentModuleOptions st !! opt) with
  | None => (st, Panic "invalid memory address or nil pointer dereference")
  | Some p => (store_Val st p val, Ret tt)
  end.

(** Package live, [SetOption]: looks the option up first and reports a
    missing one. *)
Definition live_SetOption (st : state) (opt val : string) : state * outcome unit :=
  match ActiveModule st with
  | None => (st, Panic "invalid memory address or nil pointer dereference")
  | Some options =>
      match options !! opt with
      | None =>
          ({| heap := heap st;
              CurrentModuleOptions := CurrentModuleOptions st;
              ActiveModule := ActiveModule st;
              log := log st ++ [LogError_option_not_found opt] |}, Ret tt)
      | Some None => (st, Panic "invalid memory address or nil pointer dereference")
      | Some (Some p) => (store_Val st p val, Ret tt)
      end
  end.

(** The value an operator sees for an option of the cc package. *)
Definition option_value (st : state) (name : string) : option string :=
  match default None (CurrentModuleOptions st !! name) with
  | None => None
  | Some p => Val <$> heap st !! p
  end.

End Options.

(** ** package server: the operator long poll *)
Module Operator.

(** [operator_t]. *)
Record operator_t := { sessionID : string; conn : positive; wgip : string }.

(** A [time.Timer] on a millisecond clock: armed until [deadline], or
    idle. *)
Record timer := { armed : bool; deadline : Z }.

(** [time.NewTimer(d)] and [t.Reset(d)] at time [now]. *)
Definition timer_Reset (now d : Z) : timer :=
  {| armed := true; deadline := now + d |}.

(** [t.Stop()] at time [now]: true when the call stops a timer that was
    still pending, false when it has already expired or been stopped. *)
Definition timer_Stop (now : Z) (t : timer) : timer * bool :=
  if armed t
  then ({| armed := false; deadline := deadline t |},
        negb (deadline t <=? now)%Z)
  else (t, false).

Definition Second : Z := 1000.
Definition Minute : Z := 60 * Second.

(** The cases of the [select] in the handler's loop. *)
Inductive event :=
| heartbeatTicker_C
| heartbeatCh
| ctx_Done.

Inductive log_line :=
| LogWarning_heartbeat_timeout (session : string)
| LogWarning_exited
| LogDebug_exiting.

Record handler := {
  now : Z;
  OPERATORS : gmap string operator_t;
  operator_session : string;
  h2 : positive;
  timeoutTimer : timer;
  conn_closed : bool;
  cancelled : bool;
  returned : bool;
  log : list log_line
}.

(** Entry of [handleOperatorConn], after [h2conn.Accept] succeeded: the
    session is recorded (or its connection replaced) and the ticker and
    the one-minute timer are created. *)
Definition handleOperatorConn_enter (ops : gmap string operator_t)
    (session : string) (c : positive) : handler :=
  {| now := 0;
     OPERATORS :=
       match ops !! session with
       | None => <[session := {| sessionID := session; conn := c; wgip := "" |}]> ops
       | Some o => <[session := {| sessionID := sessionID o; conn := c; wgip := wgip o |}]> ops
       end;
     operator_session := session;
     h2 := c;
     timeoutTimer := timer_Reset 0 Minute;
     conn_closed := false;
     cancelled := false;
     returned := false;
     log := [] |}.

(** The deferred function: runs when the handler returns. *)
Definition deferred (h : handler) : handler :=
  {| now := now h;
     OPERATORS := delete (operator_session h) (OPERATORS h);
     operator_session := operator_session h;
     h2 := h2 h;
     timeoutTimer := fst (timer_Stop (now h) (timeoutTimer h));
     conn_closed := true;
     cancelled := true;
     returned := true;
     log := log h ++ [LogDebug_exiting] |}.

Definition with_timer (h : handler) (t : Z) (tm : timer) : handler :=
  {| now := t; OPERATORS := OPERATORS h;
     operator_session := operator_session h; h2 := h2 h;
     timeoutTimer := tm; conn_closed := conn_closed h;
     cancelled := cancelled h; returned := returned h; log := log h |}.

Definition add_log (h : handler) (l : log_line) : handler :=
  {| now := now h; OPERATORS := OPERATORS h;
     operator_session := operator_session h; h2 := h2 h;
     timeoutTimer := timeoutTimer h; conn_closed := conn_closed h;
     cancelled := cancelled h; returned := returned h; log := log h ++ [l] |}.

(** One iteration of the loop.  The ticker delivers one second after the
    previous tick; the other two cases are taken at the current time.
    [ctx_returns] tells the two revisions of the handler apart: the later
    one returns on [ctx.Done()], the earlier one only logs. *)
Definition step (ctx_returns : bool) (h : handler) (ev : event) : handler :=
  if returned h then h
  else
    match ev with
    | heartbeatTicker_C =>
        let t := (now h + Second)%Z in
        let '(tm, stopped) := timer_Stop t (timeoutTimer h) in
        if negb stopped
        then deferred (add_log (with_timer h t tm)
                         (LogWarning_heartbeat_timeout (operator_session h)))
        else with_timer h t (timer_Reset t Minute)
    | heartbeatCh =>
        with_timer h (now h) (timer_Reset (now h) Minute)
    | ctx_Done =>
        let h := add_log h LogWarning_exited in
        if ctx_returns then deferred h else h
    end.

Definition run (ctx_returns : bool) (h : handler) (evs : list event) : handler :=
  fold_left (step ctx_returns) evs h.

(** The session is attached: still in [OPERATORS] with its connection
    open. *)
Definition attached (h : handler) : Prop :=
  is_Some (OPERATORS h !! operator_session h) /\ conn_closed h = false /\
  returned h = false.

(** Between two iterations of a live handler the one-minute timer is armed
    and was set at the current time. *)
Definition ticking (h : handler) : Prop :=
  returned h = false /\ conn_closed h = false /\
  timeoutTimer h = timer_Reset (now h) Minute.

End Operator.

(** ** package transport: the KCP tunnel configuration *)
Module Kcp.

(** [Config]: the fields [NewConfig] fills in. *)
Record Config := {
  LocalAddr : string; Listen : string; Target : string; RemoteAddr : string;
  Key : string; Crypt : string; Mode : string;
  Conn : Z; AutoExpire : Z; ScavengeTTL : Z; MTU : Z;
  SndWnd : Z; RcvWnd : Z; DataShard : Z; ParityShard : Z; DSCP : Z;
  NoComp : bool; AckNodelay : bool;
  NoDelay : Z; Interval : Z; Resend : Z; NoCongestion : Z;
  SockBuf : Z; SmuxVer : Z; SmuxBuf : Z; StreamBuf : Z; KeepAlive : Z;
  Log : string; Quiet : bool; TCP : bool;
  QPP : bool; QPPCount : Z; CloseWait : Z
}.

(** The assignments up to the [switch]. *)
Definition defaults (remote_addr target port password : string) : Config :=
  {| LocalAddr := "127.0.0.1:" ++ port;
     Listen := ":" ++ port;
     RemoteAddr := if String.eqb target "" then remote_addr else "";
     Target := if String.eqb target "" then "" else target;
     Key := password; Crypt := "aes"; Mode := "fast3";
     QPP := false; QPPCount := 67; Conn := 1; AutoExpire := 0;
     ScavengeTTL := 600; MTU := 1350; SndWnd := 128; RcvWnd := 512;
     DataShard := 10; ParityShard := 3; DSCP := 0; NoComp := false;
     AckNodelay := false;
     NoDelay := 0; Interval := 50; Resend := 0; NoCongestion := 0;
     SockBuf := 4194304; SmuxVer := 1; SmuxBuf := 4194304;
     StreamBuf := 2097152; KeepAlive := 10; CloseWait := 0;
     Log := ""; Quiet := true; TCP := false |}.

Definition set_nodelay (c : Config) (nd intv rs nc : Z) : Config :=
  {| LocalAddr := LocalAddr c; Listen := Listen c; Target := Target c;
     RemoteAddr := RemoteAddr c; Key := Key c; Crypt := Crypt c;
     Mode := Mode c; Conn := Conn c; AutoExpire := AutoExpire c;
     ScavengeTTL := ScavengeTTL c; MTU := MTU c; SndWnd := SndWnd c;
     RcvWnd := RcvWnd c; DataShard := DataShard c;
     ParityShard := ParityShard c; DSCP := DSCP c; NoComp := NoComp c;
     AckNodelay := AckNodelay c;
     NoDelay := nd; Interval := intv; Resend := rs; NoCongestion := nc;
     SockBuf := SockBuf c; SmuxVer := SmuxVer c; SmuxBuf := SmuxBuf c;
     StreamBuf := StreamBuf c; KeepAlive := KeepAlive c; Log := Log c;
     Quiet := Quiet c; TCP := TCP c; QPP := QPP c; QPPCount := QPPCount c;
     CloseWait := CloseWait c |}.

(** The [switch config.Mode] of [NewConfig]. *)
Definition switch_Mode (c : Config) : Config :=
  if String.eqb (Mode c) "normal" then set_nodelay c 0 40 2 1
  else if String.eqb (Mode c) "fast" then set_nodelay c 0 30 2 1
  else if String.eqb (Mode c) "fast2" then set_nodelay c 1 20 2 1
  else if String.eqb (Mode c) "fast3" then set_nodelay c 1 10 2 1
  else c.

(** [NewConfig]; the salt is accepted and not used here. *)
Definition NewConfig (remote_addr target port password salt : string) : Config :=
  switch_Mode (defaults remote_addr target port password).

Definition with_Mode (c : Config) (m : string) : Config :=
  {| LocalAddr := LocalAddr c; Listen := Listen c; Target := Target c;
     RemoteAddr := RemoteAddr c; Key := Key c; Crypt := Crypt c;
     Mode := m; Conn := Conn c; AutoExpire := AutoExpire c;
     ScavengeTTL := ScavengeTTL c; MTU := MTU c; SndWnd := SndWnd c;
     RcvWnd := RcvWnd c; DataShard := DataShard c;
     ParityShard := ParityShard c; DSCP := DSCP c; NoComp := NoComp c;
     AckNodelay := AckNodelay c;
     NoDelay := NoDelay c; Interval := Interval c; Resend := Resend c;
     NoCongestion := NoCongestion c;
     SockBuf := SockBuf c; SmuxVer := SmuxVer c; SmuxBuf := SmuxBuf c;
     StreamBuf := StreamBuf c; KeepAlive := KeepAlive c; Log := Log c;
     Quiet := Quiet c; TCP := TCP c; QPP := QPP c; QPPCount := QPPCount c;
     CloseWait := CloseWait c |}.

(** The tuple handed to [SetNoDelay]. *)
Definition nodelay_tuple (c : Config) : Z * Z * Z * Z :=
  (NoDelay c, Interval c, Resend c, NoCongestion c).

Inductive hash_alg := sha1_New.

Section WithPbkdf2.

(** [pbkdf2.Key] of golang.org/x/crypto:
    password, salt, iterations, key length, hash. *)
Variable pbkdf2_Key : list Byte.byte -> list Byte.byte -> Z -> Z -> hash_alg -> list Byte.byte.

(** The key derivation of [KCPTunClient]: [config] comes from
    [NewConfig(remote_kcp_addr, "", kcp_listen_port, password, salt)]. *)
Definition KCPTunClient_pass (remote_kcp_addr kcp_listen_port password salt : string)
    : list Byte.byte :=
  let config := NewConfig remote_kcp_addr "" kcp_listen_port password salt in
  pbkdf2_Key (list_byte_of_string (Key config)) (list_byte_of_string salt)
             4096 32 sha1_New.

(** The key derivation of [KCPTunServer]. *)
Definition KCPTunServer_pass (target kcp_server_port password salt : string)
    : list Byte.byte :=
  let config := NewConfig "" target kcp_server_port password salt in
  pbkdf2_Key (list_byte_of_string (Key config)) (list_byte_of_string salt)
             4096 32 sha1_New.

End WithPbkdf2.

End Kcp.


(** ** package cc: the agent registry *)
Module Registry.

(** [Control]: the controller interface of a target; [Conn] is the
    address of its [*h2conn.Conn], [None] for nil. *)
Record Control := { Index : Z; Label : string; Conn : option positive }.

(** [Targets], a map from [*Emp3r0rAgent] to [*Control], as an association
    list in one iteration order; a [None] value is a nil [*Control]. *)
Definition targets := list (Tunnel.Emp3r0rAgent * option Control).

(** [Targets[a]]. *)
Fixpoint lookup_target (ts : targets) (a : positive) : option Control :=
  match ts with
  | [] => None
  | (t, c) :: rest =>
      if Pos.eqb (Tunnel.agent_addr t) a then c else lookup_target rest a
  end.

(** [GetTargetFromIndex]: find target from Targets via control index;
    [ctl.Index] on a nil control panics. *)
Fixpoint GetTargetFromIndex (ts : targets) (index : Z)
    : outcome (option Tunnel.Emp3r0rAgent) :=
  match ts with
  | [] => Ret None
  | (t, None) :: _ => Panic "invalid memory address or nil pointer dereference"
  | (t, Some ctl) :: rest =>
      if Z.eqb (Index ctl) index then Ret (Some t)
      else GetTargetFromIndex rest index
  end.

(** [GetTargetFromH2Conn]: find target from Targets via its connection. *)
Fixpoint GetTargetFromH2Conn (ts : targets) (conn : option positive)
    : outcome (option Tunnel.Emp3r0rAgent) :=
  match ts with
  | [] => Ret None
  | (t, None) :: _ => Panic "invalid memory address or nil pointer dereference"
  | (t, Some ctrl) :: rest =>
      if bool_decide (conn = Conn ctrl) then Ret (Some t)
      else GetTargetFromH2Conn rest conn
  end.

Inductive send_error :=
| NotConnected (payload : string)
| EncodeError.

(** [Send2Agent]: send MsgTunData to agent.  [net] holds the connections
    a JSON encoder can write to, with what each has received so far; a
    connection missing there is broken and a write to it fails. *)
Definition Send2Agent (ts : targets) (net : gmap positive (list Tunnel.MsgTunData))
    (data : Tunnel.MsgTunData) (agent : Tunnel.Emp3r0rAgent)
    : gmap positive (list Tunnel.MsgTunData) * option send_error :=
  match lookup_target ts (Tunnel.agent_addr agent) with
  | None => (net, Some (NotConnected (Tunnel.Payload data)))
  | Some ctrl =>
      match Conn ctrl with
      | None => (net, Some (NotConnected (Tunnel.Payload data)))
      | Some c =>
          match net !! c with
          | Some got => (<[c := (got ++ [data])%list]> net, None)
          | None => (net, Some EncodeError)
          end
      end
  end.

(** [LabeledAgent], an entry of [agents.json]. *)
Record LabeledAgent := { Tag : string; Label_of : string }.

(** [agents.json] on disk: absent, unreadable as a list of labels, or a
    list of labels. *)
Inductive agents_json :=
| NoFile
| Garbled
| Labels (l : list LabeledAgent).

(** The inner loop of [labelAgents]: update the first record of [old] with
    the tag, or report that there is none. *)
Fixpoint update_old (old : list LabeledAgent) (tag label : string)
    : option (list LabeledAgent) :=
  match old with
  | [] => None
  | l :: rest =>
      if String.eqb (Tag l) tag
      then Some ({| Tag := Tag l; Label_of := label |} :: rest)
      else match update_old rest tag label with
           | Some rest' => Some (l :: rest')
           | None => None
           end
  end.

(** The outer loop of [labelAgents] over [Targets]: the new records
    collected so far and the old ones as updated. *)
Fixpoint labelAgents_loop (ts : targets) (labeledAgents old : list LabeledAgent)
    : outcome (list LabeledAgent * list LabeledAgent) :=
  match ts with
  | [] => Ret (labeledAgents, old)
  | (t, None) :: _ => Panic "invalid memory address or nil pointer dereference"
  | (t, Some c) :: rest =>
      if String.eqb (Label c) "" then labelAgents_loop rest labeledAgents old
      else
        match update_old old (Tunnel.agent_Tag t) (Label c) with
        | Some old' => labelAgents_loop rest labeledAgents old'
        | None =>
            labelAgents_loop rest
              (labeledAgents ++ [{| Tag := Tunnel.agent_Tag t; Label_of := Label c |}])%list
              old
        end
  end.

(** [labelAgents]: save custom labels.  [write_ok] tells whether
    [os.WriteFile] succeeds. *)
Definition labelAgents (ts : targets) (file : agents_json) (write_ok : bool)
    : outcome agents_json :=
  let old := match file with Labels l => l | _ => [] end in
  match labelAgents_loop ts [] old with
  | Panic why => Panic why
  | Ret (labeledAgents, old) =>
      let labeledAgents := (labeledAgents ++ old)%list in
      if Nat.eqb (length labeledAgents) 0 then Ret file
      else if write_ok then Ret (Labels labeledAgents) else Ret file
  end.

(** [Targets[a].Label = label] for a non-nil control. *)
Fixpoint set_Label (ts : targets) (a : positive) (label : string) : targets :=
  match ts with
  | [] => []
  | (t, c) :: rest =>
      if Pos.eqb (Tunnel.agent_addr t) a
      then (t, match c with
               | Some c => Some {| Index := Index c; Label := label; Conn := Conn c |}
               | None => None
               end) :: rest
      else (t, c) :: set_Label rest a label
  end.

Fixpoint find_label (l : list LabeledAgent) (tag : string) : option string :=
  match l with
  | [] => None
  | x :: rest => if String.eqb tag (Tag x) then Some (Label_of x) else find_label rest tag
  end.

(** [SetAgentLabel]: if an agent is already labeled, set its label in
    later sessions.  Returns the label (empty when there is none) and the
    targets. *)
Definition SetAgentLabel (ts : targets) (file : agents_json)
    (a : Tunnel.Emp3r0rAgent) : string * targets :=
  match file with
  | Labels labeledAgents =>
      match find_label labeledAgents (Tunnel.agent_Tag a) with
      | Some label => (label, set_Label ts (Tunnel.agent_addr a) label)
      | None => ("", ts)
      end
  | _ => ("", ts)
  end.

(** The tags of the targets, in iteration order. *)
Definition tags (ts : targets) : list string :=
  map (fun tc => Tunnel.agent_Tag (fst tc)) ts.

(** The addresses of the targets. *)
Definition addrs (ts : targets) : list positive :=
  map (fun tc => Tunnel.agent_addr (fst tc)) ts.

End Registry.

(** ** package cc: listing the targets *)
Module TargetList.
Import Registry.

(** A row of the table, as far as the registry decides it: the index (in
    colour for the selected agent), the label and the tag. *)
Record row := { row_Index : Z; row_selected : bool; row_Label : string; row_Tag : string }.

Section WithProcess.

(** Whether [target.Process] is non-nil. *)
Variable has_Process : Tunnel.Emp3r0rAgent -> bool.

(** The [range Targets] loop of [ListTargets]: the targets with the labels
    as the loop leaves them, and the rows, the row of the selected agent
    kept aside in [tail]. *)
Fixpoint fill_table (ts : targets) (CurrentTarget : option Tunnel.Emp3r0rAgent)
    (tdata : list row) (tail : option row)
    : targets * outcome (list row * option row) :=
  match ts with
  | [] => ([], Ret (tdata, tail))
  | (target, None) :: rest =>
      ((target, None) :: rest, Panic "invalid memory address or nil pointer dereference")
  | (target, Some control) :: rest =>
      let control :=
        if String.eqb (Label control) ""
        then {| Index := Index control; Label := "nolabel"; Conn := Conn control |}
        else control in
      if negb (has_Process target)
      then ((target, Some control) :: rest,
            Panic "invalid memory address or nil pointer dereference")
      else
        let selected :=
          match CurrentTarget with
          | Some cur => String.eqb (Tunnel.agent_Tag cur) (Tunnel.agent_Tag target)
          | None => false
          end in
        let r := {| row_Index := Index control; row_selected := selected;
                    row_Label := Label control; row_Tag := Tunnel.agent_Tag target |} in
        let '(rest, res) :=
          if selected then fill_table rest CurrentTarget tdata (Some r)
          else fill_table rest CurrentTarget (tdata ++ [r])%list tail in
        ((target, Some control) :: rest, res)
  end.

(** [ListTargets]: list currently connected agents.  The result is the
    registry as the call leaves it and the rows handed to the table writer;
    the JSON copy for the API and the rendering do not touch the
    registry. *)
Definition ListTargets (ts : targets) (CurrentTarget : option Tunnel.Emp3r0rAgent)
    : targets * outcome (list row) :=
  match fill_table ts CurrentTarget [] None with
  | (ts, Panic why) => (ts, Panic why)
  | (ts, Ret (tdata, tail)) =>
      (ts, Ret (match tail with
                | Some r => (tdata ++ [r])%list
                | None => tdata
                end))
  end.

End WithProcess.

End TargetList.

(** ** package ftp: PutFile *)
Module FtpPut.
Import Ftp.

(** Modelled from the spec: [live.WWWRoot], the directory of outbound
    static files, [/tmp/emp3r0r/www/]. *)
Definition WWWRoot : string := "/tmp/emp3r0r/www/".

Inductive put_error :=
| ErrCopy (src dst : string)
| ErrPutSendCmd (cmd : string).

(** Modelled from the spec: [util.Copy] is not under src; it copies a
    regular file and fails when there is none at the source. *)
Definition Copy (w : world) (src dst : string) : option world :=
  match fs w !! src with
  | Some (File c) => Some (set_fs w (<[dst := File c]> (fs w)))
  | _ => None
  end.

Section WithPlatform.
Context `{P : Platform}.

(** The command that announces an upload to the agent. *)
Definition put_cmd (lpath rpath sum : string) (size : Z) : string :=
  "put --file '" ++ lpath ++ "' --path '" ++ rpath ++ "' --checksum " ++ sum
    ++ " --size " ++ GoFmt.Sprint_d size.

(** [PutFile]: put file to agent.  [control] is [live.AgentControlMap[a]],
    whose index the first log line prints. *)
Definition PutFile (w : world) (control : option Z) (lpath rpath : string)
    : world * outcome (option put_error) :=
  let sum := SHA256SumFile w lpath in
  let size := FileSize w lpath in
  match control with
  | None => (w, Panic "invalid memory address or nil pointer dereference")
  | Some _ =>
      let dst := WWWRoot ++ FileBaseName lpath in
      match Copy w lpath dst with
      | None => (w, Ret (Some (ErrCopy lpath dst)))
      | Some w =>
          let cmd := put_cmd lpath rpath sum size in
          match SendCmd w cmd "" with
          | None => (w, Ret (Some (ErrPutSendCmd cmd)))
          | Some w => (w, Ret None)
          end
      end
  end.

End WithPlatform.

End FtpPut.

(** ** package cc: selecting and running a module *)
Module ModuleCtl.
Import Options.

(** [strings.ToLower] on ASCII text, for the scenarios. *)
Definition lower_ascii (c : ascii) : ascii :=
  let n := N_of_ascii c in
  if ((65 <=? n) && (n <=? 90))%N then ascii_of_N (n + 32) else c.

Fixpoint ToLower (s : string) : string :=
  match s with
  | EmptyString => EmptyString
  | String c s' => String (lower_ascii c) (ToLower s')
  end.

(** An option of a module's configuration: its default value. *)
Record ModOption := { OptVal : string; OptDesc : string }.

(** [emp3r0r_def.ModuleConfig]: the fields used here.  [ModOptions] is the
    option map in one iteration order, a [None] for a nil entry. *)
Record ModuleConfig := {
  ModOptions : list (string * option ModOption);
  Exec : string;
  Platform : string;
  IsLocal : bool;
  Comment : string
}.

Inductive message :=
| Error_no_such_module (modName : string)
| Error_UpdateOptions_no_such_module (modName : string)
| Info_using_module (modName : string)
| Error_ModuleRun_module_not_found (modName : string)
| Error_Module_not_found (modName : string)
| Error_not_supported (modName os : string)
| Error_target_not_specified
| Error_target_does_not_exist (tag : string)
| Error_usage.

(** The package variables at play. *)
Record state := {
  options : Options.state;
  CurrentMod : string;
  printed : list message
}.

Definition with_options (st : state) (o : Options.state) : state :=
  {| options := o; CurrentMod := CurrentMod st; printed := printed st |}.

Definition print (st : state) (m : message) : state :=
  {| options := options st; CurrentMod := CurrentMod st;
     printed := printed st ++ [m] |}.

(** The closure [addIfNotFound] of [UpdateOptions]: allocate a blank option
    under the key if the key is not there, and hand back what the map holds
    under the key. *)
Definition addIfNotFound (o : Options.state) (key : string)
    : Options.state * option loc :=
  match CurrentModuleOptions o !! key with
  | Some p => (o, p)
  | None =>
      let p := fresh (dom (heap o)) in
      ({| heap := <[p := {| Name := key; Val := "<blank>"; Vals := [] |}]> (heap o);
          CurrentModuleOptions := <[key := Some p]> (CurrentModuleOptions o);
          ActiveModule := ActiveModule o;
          log := log o |},
       Some p)
  end.

(** [argOpt := addIfNotFound(key); argOpt.Val = val]. *)
Definition set_default (o : Options.state) (key val : string)
    : Options.state * outcome unit :=
  match addIfNotFound o key with
  | (o, Some p) => (store_Val o p val, Ret tt)
  | (o, None) => (o, Panic "invalid memory address or nil pointer dereference")
  end.

(** The [range modconfig.Options] loop of [UpdateOptions]. *)
Fixpoint load_defaults (o : Options.state) (opts : list (string * option ModOption))
    : Options.state * outcome unit :=
  match opts with
  | [] => (o, Ret tt)
  | (optName, option) :: rest =>
      match option with
      | None =>
          (fst (addIfNotFound o optName),
           Panic "invalid memory address or nil pointer dereference")
      | Some option =>
          match set_default o optName (OptVal option) with
          | (o, Ret _) => load_defaults o rest
          | (o, Panic why) => (o, Panic why)
          end
      end
  end.

Section WithModules.

(** The module registry of package emp3r0r_def ([None] where the map has
    no module or a nil one), the names that have a helper in
    [ModuleHelpers], the name of the agent-generation module, what
    [UpdateOptions] does for that module (it reads the cached configuration
    and the server certificate), and [strings.ToLower]. *)
Variable Modules : gmap string ModuleConfig.
Variable ModuleHelpers : list string.
Variable ModGenAgent : string.
Variable gen_agent_options : Options.state -> Options.state * outcome unit.
Variable strings_ToLower : string -> string.

(** [UpdateOptions]: reads options from modules config, and set default
    values. *)
Definition UpdateOptions (st : state) (modName : string) : state * outcome bool :=
  if negb (existsb (String.eqb modName) ModuleHelpers)
  then (print st (Error_UpdateOptions_no_such_module modName), Ret false)
  else if String.eqb modName ModGenAgent
  then match gen_agent_options (options st) with
       | (o, Ret _) => (with_options st o, Ret true)
       | (o, Panic why) => (with_options st o, Panic why)
       end
  else
    match Modules !! modName with
    | None => (st, Panic "invalid memory address or nil pointer dereference")
    | Some modconfig =>
        match load_defaults (options st) (ModOptions modconfig) with
        | (o, Panic why) => (with_options st o, Panic why)
        | (o, Ret _) =>
            if negb (String.eqb (strings_ToLower (Exec modconfig)) "built-in")
            then match set_default o "download_addr" "" with
                 | (o, Ret _) => (with_options st o, Ret true)
                 | (o, Panic why) => (with_options st o, Panic why)
                 end
            else (with_options st o, Ret true)
        end
    end.

(** [for k := range CurrentModuleOptions { delete(CurrentModuleOptions, k) }]. *)
Definition clear_options (o : Options.state) : Options.state :=
  {| heap := heap o; CurrentModuleOptions := ∅;
     ActiveModule := ActiveModule o; log := log o |}.

(** [setActiveModule] for a module name read from the command line, up to
    the call of [UpdateOptions] and the line printed after it; what follows
    prints the module's details and the option table. *)
Definition setActiveModule (st : state) (modName : string) : state * outcome unit :=
  if existsb (String.eqb modName) ModuleHelpers
  then
    let st := {| options := clear_options (options st); CurrentMod := modName;
                 printed := printed st |} in
    match UpdateOptions st modName with
    | (st, Panic why) => (st, Panic why)
    | (st, Ret _) => (print st (Info_using_module modName), Ret tt)
    end
  else (print st (Error_no_such_module modName), Ret tt).

(** The agent fields [ModuleRun] reads. *)
Record target := { target_addr : positive; target_Tag : string; GOOS : string }.

Inductive run_result :=
| Started (modName : string)
| Refused (why : message).

(** [ModuleRun]: run current module.  [registered] tells whether
    [Targets[CurrentTarget]] is non-nil; the helper of a started module
    runs in a goroutine of its own. *)
Definition ModuleRun (CurrentMod : string) (CurrentTarget : option target)
    (registered : positive -> bool) : run_result :=
  let run_module :=
    if existsb (String.eqb CurrentMod) ModuleHelpers
    then Started CurrentMod
    else Refused (Error_Module_not_found CurrentMod) in
  match Modules !! CurrentMod with
  | None => Refused (Error_ModuleRun_module_not_found CurrentMod)
  | Some modObj =>
      match CurrentTarget with
      | Some t =>
          let target_os := GOOS t in
          let mod_os := strings_ToLower (Platform modObj) in
          if negb (String.eqb mod_os "generic") && negb (String.eqb target_os mod_os)
          then Refused (Error_not_supported CurrentMod target_os)
          else if negb (registered (target_addr t))
          then Refused (Error_target_does_not_exist (target_Tag t))
          else run_module
      | None =>
          if negb (IsLocal modObj)
          then Refused Error_target_not_specified
          else run_module
      end
  end.

End WithModules.

(** [setOptValCmd] for the option and the value read from the command
    line, up to the option table it prints at the end. *)
Definition setOptValCmd (st : state) (opt val : string) : state * outcome unit :=
  if String.eqb opt "" || String.eqb val ""
  then (print st Error_usage, Ret tt)
  else match SetOption (options st) opt val with
       | (o, r) => (with_options st o, r)
       end.

(** The option map is well formed: no nil entry, every entry points into
    the heap, and no two names share an option object. *)
Definition well_formed (o : Options.state) : Prop :=
  (forall k, CurrentModuleOptions o !! k <> Some None) /\
  (forall k p, CurrentModuleOptions o !! k = Some (Some p) -> is_Some (heap o !! p)) /\
  (forall k1 k2 p, CurrentModuleOptions o !! k1 = Some (Some p) ->
                   CurrentModuleOptions o !! k2 = Some (Some p) -> k1 = k2).

End ModuleCtl.

(** ** package util: digging the embedded configuration *)
Module Dig.

(** [bytes.Repeat(b, count)]; a byte slice is modelled as a string, which
    is a sequence of bytes. *)
Fixpoint Repeat (b : string) (count : nat) : string :=
  match count with
  | O => ""
  | S n => b ++ Repeat b n
  end.

Inductive error :=
| ErrDecrypt (why : string)
| ErrCannotLocateMagic (magic : string) (len : nat)
| ErrCannotLocateEmbedded (len : nat)
| ErrDiggedNothing (len : nat)
| ErrVerify (why : error).

(** A string without its last byte. *)
Fixpoint but_last (s : string) : string :=
  match s with
  | EmptyString => EmptyString
  | String c s' =>
      match s' with
      | EmptyString => EmptyString
      | _ => String c (but_last s')
      end
  end.

Section WithDecrypt.

(** [crypto.AES_GCM_Decrypt(key, data)]: the plain text and the error. *)
Variable AES_GCM_Decrypt : string -> string -> string * option string.

(** [VerifyConfigData]: decrypt attached JSON file. *)
Definition VerifyConfigData (data : string) : string * option error :=
  match AES_GCM_Decrypt Def.MagicString data with
  | (jsonData, Some err) => (jsonData, Some (ErrDecrypt err))
  | (jsonData, None) => (jsonData, None)
  end.

(** [DigEmbeddedData]: search for embedded data in given buffer. *)
Definition DigEmbeddedData (data : string) : outcome (string * option error) :=
  let magic_str := Def.MagicString in
  let sep := Repeat magic_str 2 in
  if negb (GoStrings.Contains data sep)
  then Ret ("", Some (ErrCannotLocateMagic magic_str (String.length data)))
  else
    let split := GoStrings.Split data sep in
    if (length split <? 2)%nat
    then Ret ("", Some (ErrCannotLocateEmbedded (String.length data)))
    else
      match GoSlice.index split 1 with
      | Panic why => Panic why
      | Ret embedded_data =>
          if (String.length embedded_data <=? 0)%nat
          then Ret (embedded_data, Some (ErrDiggedNothing (String.length data)))
          else
            match VerifyConfigData embedded_data with
            | (embedded_data, Some err) => Ret (embedded_data, Some (ErrVerify err))
            | (embedded_data, None) => Ret (embedded_data, None)
            end
      end.

End WithDecrypt.

End Dig.

(** ** package logging: the Logger *)
Module Logging.
Local Open Scope Z_scope.

(** Where log lines go. *)
Inductive sink :=
| Stderr
| LogFile (path : string)
| Writer (id : positive).

(** The flags of package log. *)
Definition Ldate : Z := 1.
Definition Ltime : Z := 2.
Definition Lmicroseconds : Z := 4.
Definition Lmsgprefix : Z := 64.
Definition LstdFlags : Z := Z.lor Ldate Ltime.

(** Attributes of package color. *)
Inductive attribute := FgHiYellow | FgHiGreen | FgHiRed | Bold | Italic.

(** [Logger]: [writer] lists the sinks of the (multi-)writer, [logChan]
    holds the messages buffered in the channel, oldest first, [cancel] tells
    whether the cancel function is non-nil, and [listening] whether the
    goroutine of [Start] is receiving from the channel. *)
Record Logger := {
  Level : Z;
  logChan : list string;
  writer : list sink;
  cancel : bool;
  listening : bool
}.

(** The package variable [Level], and the standard logger of package log:
    its flags, its output, and the lines it has printed, each with the flags
    and the output in force. *)
Record pkg := {
  pkg_Level : Z;
  log_flags : Z;
  log_output : list sink;
  printed : list (Z * list sink * string)
}.

(** The capacity of [logChan]. *)
Definition capacity : nat := 4096.

(** [SetDebugLevel]. *)
Definition SetDebugLevel (l : Logger) (g : pkg) (level : Z) : Logger * pkg :=
  ({| Level := level; logChan := logChan l; writer := writer l;
      cancel := cancel l; listening := listening l |},
   {| pkg_Level := level;
      log_flags := if 2 <? level
                   then Z.lor (Z.lor (Z.lor Ldate Ltime) Lmicroseconds) Lmsgprefix
                   else Z.lor (Z.lor Ldate Ltime) LstdFlags;
      log_output := log_output g;
      printed := printed g |}).

(** What the file system answers to [NewLogger]: whether the log file
    exists, whether its directory can be made, whether it can be opened. *)
Record fs_answers := { exists_ : bool; mkdir_ok : bool; open_ok : bool }.

Inductive error :=
| ErrMkdirAll
| ErrOpeningFile.

(** [NewLogger]: creates a new logger with log level; by default it writes
    to stderr, if [logFilePath] is not empty, it will write to log file
    instead. *)
Definition NewLogger (fs : fs_answers) (logFilePath : string) (level : Z) (g : pkg)
    : pkg * (Logger + error) :=
  let make (w : list sink) :=
    let '(logger, g) :=
      SetDebugLevel {| Level := level; logChan := []; writer := w;
                       cancel := false; listening := false |} g level in
    (g, inl {| Level := Level logger; logChan := []; writer := writer logger;
               cancel := true; listening := false |}) in
  if negb (String.eqb logFilePath "")
  then
    if negb (exists_ fs) && negb (mkdir_ok fs) then (g, inr ErrMkdirAll)
    else if negb (open_ok fs) then (g, inr ErrOpeningFile)
    else make [LogFile logFilePath]
  else make [Stderr].

(** [AddWriter]; a nil writer is an empty list of sinks. *)
Definition AddWriter (l : Logger) (w : sink) : Logger :=
  {| Level := Level l; logChan := logChan l;
     writer := match writer l with [] => [w] | ws => (ws ++ [w])%list end;
     cancel := cancel l; listening := listening l |}.

(** [SetOutput]. *)
Definition SetOutput (l : Logger) (w : list sink) : Logger :=
  {| Level := Level l; logChan := logChan l; writer := w;
     cancel := cancel l; listening := listening l |}.

(** [Start]: the previous context is cancelled, a new logger is made with
    [NewLogger("", 2)], given the writer of the old one and copied over it;
    the standard logger is pointed at that writer and a goroutine starts to
    receive from the new channel. *)
Definition Start (l : Logger) (g : pkg) : outcome (Logger * pkg) :=
  match NewLogger {| exists_ := false; mkdir_ok := false; open_ok := false |} "" 2 g with
  | (_, inr _) => Panic "NewLogger"
  | (g, inl newLogger) =>
      let newLogger := SetOutput newLogger (writer l) in
      let l := newLogger in
      Ret ({| Level := Level l; logChan := logChan l; writer := writer l;
              cancel := cancel l; listening := true |},
           {| pkg_Level := pkg_Level g; log_flags := log_flags g;
              log_output := writer l; printed := printed g |})
  end.

(** The logging methods. *)
Inductive method :=
| Debug
| Info
| Warning
| Msg
| Alert (textColor : attribute)
| Success
| Error.

Section WithColor.

(** [Sprintf] of a [color.Color] on the formatted text. *)
Variable color_Sprintf : list attribute -> string -> string.

(** [helper]: the message is sent on [logChan]; with the buffer full the
    send waits ([None]) until a message has been received. *)
Definition helper (l : Logger) (text : string) (msgColor : option (list attribute))
    : option Logger :=
  let logMsg := match msgColor with
                | Some c => color_Sprintf c text
                | None => text
                end in
  if (length (logChan l) <? capacity)%nat
  then Some {| Level := Level l; logChan := (logChan l ++ [logMsg])%list;
               writer := writer l; cancel := cancel l; listening := listening l |}
  else None.

(** A call of a logging method with the text [fmt.Sprintf(format, a...)]. *)
Definition call (l : Logger) (m : method) (text : string) : option Logger :=
  match m with
  | Debug => if 3 <=? Level l then helper l text None else Some l
  | Info => if 2 <=? Level l then helper l text None else Some l
  | Warning => if 1 <=? Level l then helper l text (Some [FgHiYellow]) else Some l
  | Msg => helper l text None
  | Alert textColor => helper l text (Some [textColor; Bold])
  | Success => helper l text (Some [FgHiGreen; Bold])
  | Error => helper l text (Some [FgHiRed; Bold])
  end.

(** One round of the goroutine of [Start]: it receives the oldest message
    and prints it with [log.Print]; with nothing buffered it waits. *)
Definition receive (l : Logger) (g : pkg) : Logger * pkg :=
  if listening l
  then match logChan l with
       | [] => (l, g)
       | msg :: rest =>
           ({| Level := Level l; logChan := rest; writer := writer l;
               cancel := cancel l; listening := listening l |},
            {| pkg_Level := pkg_Level g; log_flags := log_flags g;
               log_output := log_output g;
               printed := (printed g ++ [(log_flags g, log_output g, msg)])%list |})
       end
  else (l, g).

(** What happens to a logger: a method is called, or its goroutine takes a
    turn. *)
Inductive event :=
| Call (m : method) (text : string)
| Receive.

Definition step (s : Logger * pkg) (ev : event) : option (Logger * pkg) :=
  match ev with
  | Call m text =>
      match call (fst s) m text with
      | Some l => Some (l, snd s)
      | None => None
      end
  | Receive => Some (receive (fst s) (snd s))
  end.

Fixpoint run (s : Logger * pkg) (evs : list event) : option (Logger * pkg) :=
  match evs with
  | [] => Some s
  | ev :: rest =>
      match step s ev with
      | Some s => run s rest
      | None => None
      end
  end.

(** The text a call puts on the channel at level 2, if any. *)
Definition queued_at_2 (ev : event) : option string :=
  match ev with
  | Call Debug _ => None
  | Call Info text => Some text
  | Call Warning text => Some (color_Sprintf [FgHiYellow] text)
  | Call Msg text => Some text
  | Call (Alert c) text => Some (color_Sprintf [c; Bold] text)
  | Call Success text => Some (color_Sprintf [FgHiGreen; Bold] text)
  | Call Error text => Some (color_Sprintf [FgHiRed; Bold] text)
  | Receive => None
  end.

End WithColor.

End Logging.

(** ** package netutil *)
Module NetUtil.

(** [IsTor]: is the C2 on Tor? *)
Definition IsTor (addr : string) : outcome bool :=
  if negb (GoStrings.HasPrefix addr "http://") &&
     negb (GoStrings.HasPrefix addr "https://")
  then Ret false
  else
    match GoSlice.index (GoStrings.Split addr "/") 2 with
    | Panic why => Panic why
    | Ret nopath =>
        let fields := GoStrings.Split nopath "." in
        match GoSlice.index fields (length fields - 1) with
        | Panic why => Panic why
        | Ret last => Ret (String.eqb last "onion")
        end
    end.

(** [net.IP] and [net.IPMask] are byte slices; a byte is a [Z] below 256. *)
Record IPWithMask := { IP : list Z; Mask : list Z }.

(** [ip.To4()]: a four-byte address as it is, the last four bytes of a
    sixteen-byte IPv4-mapped address, nil otherwise. *)
Definition To4 (ip : list Z) : option (list Z) :=
  if Nat.eqb (length ip) 4 then Some ip
  else if Nat.eqb (length ip) 16
          && forallb (Z.eqb 0) (take 10 ip)
          && bool_decide (ip !! 10%nat = Some 255%Z)
          && bool_decide (ip !! 11%nat = Some 255%Z)
  then Some (drop 12 ip)
  else None.

Definition is_byte (b : Z) : Prop := (0 <= b < 256)%Z.

(** [^b] on a byte. *)
Definition complement (b : Z) : Z := Z.lxor b 255.

(** The loop of [IPbroadcastAddr]: [broadcast[i] = p | ^mask[i]]. *)
Fixpoint broadcast_loop (ip4 mask : list Z) (i : nat) : outcome (list Z) :=
  match ip4 with
  | [] => Ret []
  | p :: rest =>
      match GoSlice.index mask i with
      | Panic why => Panic why
      | Ret m =>
          match broadcast_loop rest mask (S i) with
          | Panic why => Panic why
          | Ret bs => Ret (Z.lor p (complement m) :: bs)
          end
      end
  end.

(** [String()] of a four-byte [net.IP]. *)
Definition dotted (ip : list Z) : string :=
  GoStrings.Join (map GoFmt.Sprint_d ip) ".".

(** [IPbroadcastAddr]: calculate broadcast address of an IP. *)
Definition IPbroadcastAddr (ipMask : IPWithMask) : outcome string :=
  let ip := IP ipMask in
  let mask := Mask ipMask in
  match To4 ip with
  | None => Ret ""
  | Some ip4 =>
      match broadcast_loop ip4 mask 0 with
      | Panic why => Panic why
      | Ret broadcast => Ret (dotted broadcast)
      end
  end.

(** [rand.Intn(n)] on the next value [raw] of the generator. *)
Definition Intn (raw n : Z) : Z := raw mod n.

(** [fmt.Sprintf("%d.%d.%d.0/24", first, second, third)]. *)
Definition subnet24 (first second third : Z) : string :=
  GoFmt.Sprint_d first ++ "." ++ GoFmt.Sprint_d second ++ "."
    ++ GoFmt.Sprint_d third ++ ".0/24".

(** [GenerateRandomPrivateSubnet24]: generates a random private /24 subnet
    from RFC 1918 address space.  [r0], [r1] and [r2] are the values the
    generator gives to the calls of [rand.Intn], in order; the third range
    makes two calls only. *)
Definition private_octets (r0 r1 r2 : Z) : Z * Z * Z :=
  let rangeType := Intn r0 3 in
  if Z.eqb rangeType 0 then (10, Intn r1 256, Intn r2 256)%Z
  else if Z.eqb rangeType 1 then (172, Intn r1 16 + 16, Intn r2 256)%Z
  else if Z.eqb rangeType 2 then (192, 168, Intn r1 256)%Z
  else (0, 0, 0)%Z.

Definition GenerateRandomPrivateSubnet24 (r0 r1 r2 : Z) : string :=
  let '(first, second, third) := private_octets r0 r1 r2 in
  subnet24 first second third.

End NetUtil.

(** ** package server: the agent API dispatcher *)
Module ApiDispatch.

(** What [apiDispatcher] reads from a request: the route variables, two
    headers and one query parameter; a missing one reads as the empty
    string. *)
Record request := {
  vars_api : string;
  vars_token : string;
  AgentUUID : string;
  AgentUUIDSig : string;
  file_to_download : string
}.

(** How a request ends: a status written by the dispatcher itself, or the
    handler it is handed to. *)
Inductive routed :=
| StatusBadRequest
| StatusNotFound
| handleAgentCheckIn
| handleMessageTunnel
| handleFTPTransfer (sh : Ftp.StreamHandler)
| ServeFile (local_path : string)
| handlePortForwarding.

(** [network.RShellStream.H2x] and [network.ProxyStream.H2x], as addresses
    of [def.H2Conn] objects, and the next address [new] hands out. *)
Record streams := {
  RShellStream_H2x : positive;
  ProxyStream_H2x : positive;
  next : positive
}.

(** The [range network.FTPStreams] loop; the map is given in one iteration
    order, a [None] for a nil handler. *)
Fixpoint find_stream (FTPStreams : list (option Ftp.StreamHandler)) (token : string)
    : outcome (option Ftp.StreamHandler) :=
  match FTPStreams with
  | [] => Ret None
  | None :: _ => Panic "invalid memory address or nil pointer dereference"
  | Some sh :: rest =>
      if String.eqb token (Ftp.Token sh) then Ret (Some sh)
      else find_stream rest token
  end.

Section WithTransport.

(** The constants of package transport and [live.Temp]. *)
Variable WebRoot CheckInAPI MsgAPI FTPAPI FileAPI ProxyAPI WWW Temp : string.

(** [base64.URLEncoding.DecodeString], [transport.VerifySignatureWithCA]
    (validity and error), [agents.IsAgentExistByTag], [filepath.Clean],
    [filepath.Base] and [util.IsExist]. *)
Variable DecodeString : string -> option (list Byte.byte).
Variable VerifySignatureWithCA : string -> list Byte.byte -> bool * option string.
Variable IsAgentExistByTag : string -> bool.
Variable filepath_Clean : string -> string.
Variable filepath_Base : string -> string.
Variable IsExist : string -> bool.

(** [apiDispatcher]: routes requests to the correct handler. *)
Definition apiDispatcher (st : streams) (FTPStreams : list (option Ftp.StreamHandler))
    (req : request) : streams * outcome routed :=
  let rshellConn := next st in
  let proxyConn := Pos.succ (next st) in
  let st := {| RShellStream_H2x := rshellConn; ProxyStream_H2x := proxyConn;
               next := Pos.succ (Pos.succ (next st)) |} in
  if String.eqb (vars_api req) "" || String.eqb (vars_token req) ""
  then (st, Ret StatusBadRequest)
  else
    let agent_uuid := AgentUUID req in
    match DecodeString (AgentUUIDSig req) with
    | None => (st, Ret StatusBadRequest)
    | Some agent_sig =>
        let '(isValid, _) := VerifySignatureWithCA agent_uuid agent_sig in
        if negb isValid then (st, Ret StatusBadRequest)
        else
          let token := vars_token req in
          let api := WebRoot ++ "/" ++ vars_api req in
          if String.eqb api CheckInAPI then (st, Ret handleAgentCheckIn)
          else if String.eqb api MsgAPI then (st, Ret handleMessageTunnel)
          else if String.eqb api FTPAPI then
            match find_stream FTPStreams token with
            | Panic why => (st, Panic why)
            | Ret (Some sh) => (st, Ret (handleFTPTransfer sh))
            | Ret None => (st, Ret StatusBadRequest)
            end
          else if String.eqb api FileAPI then
            if negb (IsAgentExistByTag token) then (st, Ret StatusBadRequest)
            else
              let path := filepath_Clean (file_to_download req) in
              let path := filepath_Base path in
              let local_path := Temp ++ "/" ++ WWW ++ "/" ++ path in
              if negb (IsExist local_path) then (st, Ret StatusNotFound)
              else (st, Ret (ServeFile local_path))
          else if String.eqb api ProxyAPI then (st, Ret handlePortForwarding)
          else (st, Ret StatusBadRequest)
    end.

End WithTransport.

(** The dispatcher answered with a status of its own. *)
Definition refused (r : routed) : bool :=
  match r with
  | StatusBadRequest | StatusNotFound => true
  | _ => false
  end.

End ApiDispatch.

(** ** package cc: the command module *)
Module ModCmd.
Import Registry.

Inductive log_line :=
| LogError_not_connected (tag : string)
| LogError_option_not_found
| LogError_moduleCmd (err : string)
| LogWarning_all_targets (cmd : string)
| LogError_control_not_found.

(** The package variables [moduleCmd] reads, the calls of [SendCmd] it has
    made (command, identifier and target) and the log.  An entry of
    [AvailableModuleOptions] is the [Val] of the option, or [None] for a nil
    option. *)
Record state := {
  Targets : targets;
  ActiveAgent : option Tunnel.Emp3r0rAgent;
  AvailableModuleOptions : gmap string (option string);
  sent : list (string * string * Tunnel.Emp3r0rAgent);
  log : list log_line
}.

Definition add_log (st : state) (l : log_line) : state :=
  {| Targets := Targets st; ActiveAgent := ActiveAgent st;
     AvailableModuleOptions := AvailableModuleOptions st;
     sent := sent st; log := log st ++ [l] |}.

Definition add_sent (st : state) (cmd cmd_id : string) (t : Tunnel.Emp3r0rAgent) : state :=
  {| Targets := Targets st; ActiveAgent := ActiveAgent st;
     AvailableModuleOptions := AvailableModuleOptions st;
     sent := sent st ++ [(cmd, cmd_id, t)]; log := log st |}.

Section WithSendCmd.

(** The error [SendCmd] returns, if any. *)
Variable SendCmd : string -> string -> Tunnel.Emp3r0rAgent -> option string.

(** The closure [execOnTarget] of [moduleCmd]. *)
Definition execOnTarget (st : state) (target : Tunnel.Emp3r0rAgent) : state * outcome unit :=
  match lookup_target (Targets st) (Tunnel.agent_addr target) with
  | None => (st, Panic "invalid memory address or nil pointer dereference")
  | Some ctrl =>
      match Conn ctrl with
      | None => (add_log st (LogError_not_connected (Tunnel.agent_Tag target)), Ret tt)
      | Some _ =>
          match AvailableModuleOptions st !! "cmd_to_exec" with
          | None => (add_log st LogError_option_not_found, Ret tt)
          | Some None => (st, Panic "invalid memory address or nil pointer dereference")
          | Some (Some val) =>
              let st := add_sent st val "" target in
              match SendCmd val "" target with
              | Some err => (add_log st (LogError_moduleCmd err), Ret tt)
              | None => (st, Ret tt)
              end
          end
      end
  end.

(** [for per_target := range Targets { execOnTarget(per_target) }]. *)
Fixpoint exec_on_all (st : state) (ts : targets) : state * outcome unit :=
  match ts with
  | [] => (st, Ret tt)
  | (per_target, _) :: rest =>
      match execOnTarget st per_target with
      | (st, Ret _) => exec_on_all st rest
      | (st, Panic why) => (st, Panic why)
      end
  end.

(** [moduleCmd]: exec cmd on target. *)
Definition moduleCmd (st : state) : state * outcome unit :=
  match ActiveAgent st with
  | None =>
      match default None (AvailableModuleOptions st !! "cmd_to_exec") with
      | None => (st, Panic "invalid memory address or nil pointer dereference")
      | Some val =>
          exec_on_all (add_log st (LogWarning_all_targets val)) (Targets st)
      end
  | Some target =>
      match lookup_target (Targets st) (Tunnel.agent_addr target) with
      | None => (add_log st LogError_control_not_found, Ret tt)
      | Some _ => execOnTarget st target
      end
  end.

End WithSendCmd.

(** The targets that have a connection, in iteration order. *)
Definition connected (ts : targets) : list Tunnel.Emp3r0rAgent :=
  map fst (List.filter (fun tc => match snd tc with
                                  | Some c => bool_decide (Conn c <> None)
                                  | None => false
                                  end) ts).

End ModCmd.

(** ** package transport: the session scavenger and [dial] *)
Module Scavenger.

(** [timedSession]: a session (its address) with an expiry date, in
    nanoseconds. *)
Record timedSession := { session : positive; expiryDate : Z }.

Definition Second : Z := 1000000000.

Inductive log_line :=
| LogDebug_normally_closed (s : positive)
| LogDebug_closed_due_to_ttl (s : positive).

(** The list the goroutine keeps, the sessions that are closed, the log,
    and, for the statements, the sessions the scavenger has closed itself
    with the time it read before closing each. *)
Record state := {
  sessionList : list timedSession;
  closed : gset positive;
  log : list log_line;
  closed_by_ttl : list (positive * Z)
}.

(** The cases of the [select], and what else happens to a session: [Item]
    is a session received from the channel, [Tick] a tick of the ticker,
    with the time [time.Now()] gives at each entry of the list, and
    [Closed_elsewhere] a session closed by its user or its peer. *)
Inductive event :=
| Item (item : timedSession)
| Tick (now : nat -> Z)
| Closed_elsewhere (s : positive).

(** The loop over [sessionList] at a tick, from entry [k] on. *)
Fixpoint sweep (now : nat -> Z) (k : nat) (l : list timedSession)
    (closed : gset positive) (log : list log_line) (by_ttl : list (positive * Z))
    : list timedSession * gset positive * list log_line * list (positive * Z) :=
  match l with
  | [] => ([], closed, log, by_ttl)
  | s :: rest =>
      if bool_decide (session s ∈ closed)
      then sweep now (S k) rest closed
             (log ++ [LogDebug_normally_closed (session s)]) by_ttl
      else if (expiryDate s <? now k)%Z
      then sweep now (S k) rest ({[ session s ]} ∪ closed)
             (log ++ [LogDebug_closed_due_to_ttl (session s)])
             (by_ttl ++ [(session s, now k)])
      else
        let '(newList, closed, log, by_ttl) := sweep now (S k) rest closed log by_ttl in
        (s :: newList, closed, log, by_ttl)
  end.

(** One round of the loop of [scavenger]. *)
Definition step (ScavengeTTL : Z) (st : state) (ev : event) : state :=
  match ev with
  | Item item =>
      {| sessionList :=
           sessionList st ++
             [{| session := session item;
                 expiryDate := (expiryDate item + ScavengeTTL * Second)%Z |}];
         closed := closed st; log := log st; closed_by_ttl := closed_by_ttl st |}
  | Tick now =>
      let '(newList, closed, log, by_ttl) :=
        sweep now 0 (sessionList st) (closed st) (log st) (closed_by_ttl st) in
      {| sessionList := newList; closed := closed; log := log;
         closed_by_ttl := by_ttl |}
  | Closed_elsewhere s =>
      {| sessionList := sessionList st; closed := {[ s ]} ∪ closed st;
         log := log st; closed_by_ttl := closed_by_ttl st |}
  end.

Definition run (ScavengeTTL : Z) (st : state) (evs : list event) : state :=
  fold_left (step ScavengeTTL) evs st.

(** [scavenger] starts with an empty list. *)
Definition start (closed : gset positive) : state :=
  {| sessionList := []; closed := closed; log := []; closed_by_ttl := [] |}.

(** An entry of the list comes from the channel, with the time to live
    added to its expiry date. *)
Definition from_channel (ScavengeTTL : Z) (evs : list event) (s : timedSession) : Prop :=
  exists item, In (Item item) evs /\ session s = session item /\
               expiryDate s = (expiryDate item + ScavengeTTL * Second)%Z.

(** The port [dial] picks: [uint64(mp.MinPort) + randport % uint64(mp.MaxPort
    - mp.MinPort + 1)] on 64-bit unsigned integers; a zero divisor
    panics. *)
Definition dial_port (MinPort MaxPort randport : Z) : outcome Z :=
  let span := ((MaxPort - MinPort + 1) mod 2 ^ 64)%Z in
  if Z.eqb span 0 then Panic "integer divide by zero"
  else Ret ((MinPort + randport mod span) mod 2 ^ 64)%Z.

End Scavenger.

(** ** Scenarios of the specification, as concrete states *)
Module Scenario.

(** S1, command echo: agent [abcd-agent] has checked in. *)
Definition abcd_agent : Tunnel.Emp3r0rAgent :=
  {| Tunnel.agent_addr := 1; Tunnel.agent_Tag := "abcd-agent" |}.

Definition cc_S1 : Tunnel.cc_state :=
  {| Tunnel.Targets := [(abcd_agent, Some {| Tunnel.Index := 1; Tunnel.Label := "" |})];
     Tunnel.CmdResults := ∅;
     Tunnel.CmdTime := ∅;
     Tunnel.IsAPIEnabled := false;
     Tunnel.DebugLevel := 2;
     Tunnel.log := [];
     Tunnel.APIConn := [];
     Tunnel.OutputPane := [];
     Tunnel.screenshots := [] |}.

(** A stand-in for [util.ParseCmd]: the words of a command line. *)
Definition words (s : string) : list string :=
  filter (fun w => w <> "") (GoStrings.Split s " ").

Definition payload_S1 : string :=
  "cmd" ++ Def.MagicString ++ "echo hi" ++ Def.MagicString ++ "hi"
        ++ Def.MagicString ++ "c1".

(** *** S2, resumable GET of [/etc/hostname] (12 bytes) *)

(** Directory and base name of a clean absolute path. *)
Fixpoint split_last_slash (s : string) : option (string * string) :=
  match s with
  | EmptyString => None
  | String c s' =>
      match split_last_slash s' with
      | Some (d, b) => Some (String c d, b)
      | None => if Ascii.eqb c "/" then Some (EmptyString, s') else None
      end
  end.

Definition dirname (p : string) : string :=
  match split_last_slash p with
  | Some (EmptyString, _) => "/"
  | Some (d, _) => d
  | None => "."
  end.

Definition basename (p : string) : string :=
  match split_last_slash p with
  | Some (_, b) => b
  | None => p
  end.

(** A stand-in digest: a polynomial checksum printed as 64 hexadecimal
    digits.  The properties of [GetFile] hold for every digest function;
    the scenarios need one that computes. *)
Definition checksum64 (content : list Byte.byte) : string :=
  GoFmt.hex_fixed 64
    (fold_left (fun acc b => (acc * 257 + Z.of_N (Byte.to_N b) + 1) mod 2 ^ 256)%Z
               content 7%Z).

Definition hostname_bytes : list Byte.byte :=
  list_byte_of_string ("c2-target-1" ++ String "010" EmptyString).

Definition H : string := checksum64 hostname_bytes.

(** A stand-in for decoding the agent's stat reply: name, size and
    checksum separated by bars. *)
Definition decode_FileStat (res : string) : option Ftp.FileStat :=
  match GoStrings.Split res "|" with
  | [name; size; sum] =>
      match DecimalString.NilZero.int_of_string size with
      | Some n => Some {| Ftp.Name := name; Ftp.Size := Z.of_int n; Ftp.Checksum := sum |}
      | None => None
      end
  | _ => None
  end.

Definition stat_text : string := "hostname|12|" ++ H.

#[export] Instance workspace : Ftp.Platform :=
  {| Ftp.filepath_Clean := fun p => p;
     Ftp.filepath_Dir := dirname;
     Ftp.FileBaseName := basename;
     Ftp.FileGetDir := "/root/.emp3r0r/file-get";
     Ftp.SHA256SumRaw := checksum64;
     Ftp.json_Unmarshal_FileStat := decode_FileStat |}.

Definition etc_dir : string := "/root/.emp3r0r/file-get/etc".
Definition hostname_final : string := "/root/.emp3r0r/file-get/etc/hostname".
Definition hostname_temp : string := "/root/.emp3r0r/file-get/etc/hostname.downloading".
Definition hostname_lock : string := "/root/.emp3r0r/file-get/etc/hostname.lock".

(** The agent answers the stat command at the third wake-up. *)
Definition agent_answers (id : string) (k : nat) : gmap string string :=
  if (k <? 2)%nat then ∅ else {[ id := stat_text ]}.

Definition env_first : Ftp.env :=
  {| Ftp.uuid := "0b7e6a52-3c1f-4d8e-9a40-5f2c7d1e8b93";
     Ftp.rnd := 81985529216486895;
     Ftp.tbl_at := agent_answers "0b7e6a52-3c1f-4d8e-9a40-5f2c7d1e8b93";
     Ftp.conn_lost := false |}.

Definition env_second : Ftp.env :=
  {| Ftp.uuid := "5d2f9c11-7a64-4e0b-b3c8-91e4a6f07d25";
     Ftp.rnd := 1311768467463790320;
     Ftp.tbl_at := agent_answers "5d2f9c11-7a64-4e0b-b3c8-91e4a6f07d25";
     Ftp.conn_lost := false |}.

(** The agent never answers. *)
Definition env_silent : Ftp.env :=
  {| Ftp.uuid := "0b7e6a52-3c1f-4d8e-9a40-5f2c7d1e8b93";
     Ftp.rnd := 81985529216486895;
     Ftp.tbl_at := fun _ => ∅;
     Ftp.conn_lost := false |}.

(** The agent answers, then its connection drops. *)
Definition env_drops : Ftp.env :=
  {| Ftp.uuid := "0b7e6a52-3c1f-4d8e-9a40-5f2c7d1e8b93";
     Ftp.rnd := 81985529216486895;
     Ftp.tbl_at := agent_answers "0b7e6a52-3c1f-4d8e-9a40-5f2c7d1e8b93";
     Ftp.conn_lost := true |}.

(** A fresh workspace: only the download directory exists. *)
Definition ws_fresh : Ftp.world :=
  {| Ftp.fs := {[ etc_dir := Ftp.Dir ]};
     Ftp.FTPStreams := ∅; Ftp.sent := []; Ftp.conn_up := true;
     Ftp.CmdResults := ∅ |}.

(** A first GET was killed at offset 5: the temp file holds 5 bytes. *)
Definition ws_partial : Ftp.world :=
  {| Ftp.fs := {[ etc_dir := Ftp.Dir;
                  hostname_temp := Ftp.File (take 5 hostname_bytes) ]};
     Ftp.FTPStreams := ∅; Ftp.sent := []; Ftp.conn_up := true;
     Ftp.CmdResults := ∅ |}.

(** The file was fetched before: the final file is complete. *)
Definition ws_done : Ftp.world :=
  {| Ftp.fs := {[ etc_dir := Ftp.Dir;
                  hostname_final := Ftp.File hostname_bytes ]};
     Ftp.FTPStreams := ∅; Ftp.sent := []; Ftp.conn_up := true;
     Ftp.CmdResults := ∅ |}.

(** A transfer of the file holds the lock. *)
Definition ws_locked : Ftp.world :=
  {| Ftp.fs := {[ etc_dir := Ftp.Dir;
                  hostname_lock := Ftp.File [] ]};
     Ftp.FTPStreams := ∅; Ftp.sent := []; Ftp.conn_up := true;
     Ftp.CmdResults := ∅ |}.

(** *** The [set] command on a module with one option *)
Definition cmd_to_exec : Options.CurrentOption :=
  {| Options.Name := "cmd_to_exec"; Options.Val := "id"; Options.Vals := [] |}.

Definition opts_cmd_exec : Options.state :=
  {| Options.heap := {[ 1%positive := cmd_to_exec ]};
     Options.CurrentModuleOptions := {[ "cmd_to_exec" := Some 1%positive ]};
     Options.ActiveModule := Some {[ "cmd_to_exec" := Some 1%positive ]};
     Options.log := [] |}.

(** *** S5, an operator that connects and then stays silent *)
Definition operator_S5 : Operator.handler :=
  Operator.handleOperatorConn_enter ∅ "operator-1" 1.

End Scenario.

(** ** Further scenarios: the registry, labels and replies *)
Module ScenarioMore.

(** Two agents have checked in; the first is labelled [db] and both have a
    connection. *)
Definition efgh_agent : Tunnel.Emp3r0rAgent :=
  {| Tunnel.agent_addr := 2; Tunnel.agent_Tag := "efgh-agent" |}.

Definition two_targets : Registry.targets :=
  [(Scenario.abcd_agent,
    Some {| Registry.Index := 0; Registry.Label := "db"; Registry.Conn := Some 7%positive |});
   (efgh_agent,
    Some {| Registry.Index := 1; Registry.Label := ""; Registry.Conn := Some 9%positive |})].

(** Both connections are open and have carried nothing yet. *)
Definition net_open : gmap positive (list Tunnel.MsgTunData) :=
  {[ 7%positive := []; 9%positive := [] ]}.

Definition ping : Tunnel.MsgTunData :=
  {| Tunnel.Payload := "hello"; Tunnel.Tag := "efgh-agent" |}.

(** [agents.json] remembers an agent that is not connected now. *)
Definition old_labels : list Registry.LabeledAgent :=
  [{| Registry.Tag := "gone-agent"; Registry.Label_of := "web" |}].

(** *** Modules: [cmd_exec] is selected, then [file_server] *)
Definition file_server_cfg : ModuleCtl.ModuleConfig :=
  {| ModuleCtl.ModOptions :=
       [("port", Some {| ModuleCtl.OptVal := "8000"; ModuleCtl.OptDesc := "Port to listen on" |});
        ("switch", Some {| ModuleCtl.OptVal := "on"; ModuleCtl.OptDesc := "Turn the server on or off" |})];
     ModuleCtl.Exec := "built-in";
     ModuleCtl.Platform := "Generic";
     ModuleCtl.IsLocal := false;
     ModuleCtl.Comment := "Start a secure file server" |}.

Definition cmd_exec_cfg : ModuleCtl.ModuleConfig :=
  {| ModuleCtl.ModOptions :=
       [("cmd_to_exec", Some {| ModuleCtl.OptVal := "id"; ModuleCtl.OptDesc := "Command to run" |})];
     ModuleCtl.Exec := "built-in";
     ModuleCtl.Platform := "Generic";
     ModuleCtl.IsLocal := false;
     ModuleCtl.Comment := "Run a command on the target" |}.

Definition modules : gmap string ModuleCtl.ModuleConfig :=
  {[ "cmd_exec" := cmd_exec_cfg; "file_server" := file_server_cfg ]}.

Definition helpers : list string := ["gen_agent"; "cmd_exec"; "file_server"].

(** The agent generator is not exercised here. *)
Definition gen_agent_untouched (o : Options.state) : Options.state * outcome unit :=
  (o, Ret tt).

Definition cmd_exec_selected : ModuleCtl.state :=
  {| ModuleCtl.options := Scenario.opts_cmd_exec;
     ModuleCtl.CurrentMod := "cmd_exec";
     ModuleCtl.printed := [] |}.

(** *** An agent binary with its configuration embedded *)

(** The stub holds the magic string once, as a constant. *)
Definition stub : string := "ELF-stub " ++ Def.MagicString ++ " code".

Definition sealed_config : string := "sealed-config".

Definition binary : string :=
  stub ++ Dig.Repeat Def.MagicString 2 ++ sealed_config
       ++ Dig.Repeat Def.MagicString 2 ++ "padding".

(** A stand-in for AES-GCM: the key in front of the text. *)
Definition unseal (key data : string) : string * option string :=
  (key ++ ":" ++ data, None).

(** *** A logger with a log file, made at level 3 *)
Definition log_fs : Logging.fs_answers :=
  {| Logging.exists_ := false; Logging.mkdir_ok := true; Logging.open_ok := true |}.

Definition pkg_initial : Logging.pkg :=
  {| Logging.pkg_Level := 2; Logging.log_flags := Logging.LstdFlags;
     Logging.log_output := [Logging.Stderr]; Logging.printed := [] |}.

(** Colours left out. *)
Definition plain (c : list Logging.attribute) (text : string) : string := text.

Definition three_calls : list Logging.event :=
  [Logging.Call Logging.Error "boom"; Logging.Receive; Logging.Call Logging.Debug "detail"].

(** *** A file to put, and the answer to a memory dump *)
Definition tool_bytes : list Byte.byte := list_byte_of_string "#!/sh".

Definition ws_tool : Ftp.world :=
  {| Ftp.fs := {[ "/root/tool" := Ftp.File tool_bytes ]};
     Ftp.FTPStreams := ∅; Ftp.sent := []; Ftp.conn_up := true;
     Ftp.CmdResults := ∅ |}.

Definition dump_answers (k : nat) : gmap string string :=
  if (k <? 2)%nat then ∅ else {[ "cmd-7" := "/tmp/4242.dump" ]}.

(** *** A session handed to the scavenger *)
Definition scavenger_events : list Scavenger.event :=
  [Scavenger.Item {| Scavenger.session := 5;
                     Scavenger.expiryDate := 10 * Scavenger.Second |};
   Scavenger.Tick (fun _ => 300 * Scavenger.Second)%Z;
   Scavenger.Tick (fun _ => 611 * Scavenger.Second)%Z].

(** *** [cmd_exec] with no agent selected *)
Definition cmd_none_selected : ModCmd.state :=
  {| ModCmd.Targets := two_targets;
     ModCmd.ActiveAgent := None;
     ModCmd.AvailableModuleOptions := {[ "cmd_to_exec" := Some "id" ]};
     ModCmd.sent := [];
     ModCmd.log := [] |}.

(** *** A request of an agent for the FTP api *)

(** Stand-ins for the signature check: every header decodes to the empty
    signature, and the agent [agent-uuid-1] is accepted. *)
Definition decode_sig (header : string) : option (list Byte.byte) := Some [].

Definition verify_sig (agent_uuid : string) (sig : list Byte.byte) : bool * option string :=
  (String.eqb agent_uuid "agent-uuid-1", None).

Definition streams_initial : ApiDispatch.streams :=
  {| ApiDispatch.RShellStream_H2x := 1; ApiDispatch.ProxyStream_H2x := 2;
     ApiDispatch.next := 3 |}.

Definition ftp_request (token : string) : ApiDispatch.request :=
  {| ApiDispatch.vars_api := "ftp"; ApiDispatch.vars_token := token;
     ApiDispatch.AgentUUID := "agent-uuid-1"; ApiDispatch.AgentUUIDSig := "c2ln";
     ApiDispatch.file_to_download := "" |}.

End ScenarioMore.
(** * Properties *)

(** ** Splitting and joining *)
Module GoStringsFacts.
Import GoStrings.

Lemma prefix_nil_r (m : string) :
  String.prefix m "" = true -> m = "".
Proof. destruct m; simpl; [reflexivity | discriminate]. Qed.

Lemma prefix_cons (a b : ascii) (m s : string) :
  String.prefix (String a m) (String b s) = true <-> a = b /\ String.prefix m s = true.
Proof.
  simpl. destruct (ascii_dec a b) as [->|Hne]; split.
  - intros H; split; [reflexivity | exact H].
  - intros [_ H]; exact H.
  - discriminate.
  - intros [H _]; contradiction.
Qed.

Lemma prefix_append (m rest : string) : String.prefix m (m ++ rest) = true.
Proof.
  induction m as [|a m IH]; simpl.
  - destruct rest; reflexivity.
  - destruct (ascii_dec a a); [exact IH | contradiction].
Qed.

(** A prefix of a concatenation ends inside the first part or runs over
    into the second. *)
Lemma prefix_append_cases (m f x : string) :
  String.prefix m (f ++ x) = true ->
  String.prefix m f = true \/
  exists m2, m = f ++ m2 /\ m2 <> "" /\ String.prefix m2 x = true.
Proof.
  revert m. induction f as [|b f IH]; intros m H.
  - destruct m as [|a m]; [left; reflexivity|].
    right. exists (String a m). simpl in *. repeat split; [discriminate | exact H].
  - destruct m as [|a m]; [left; reflexivity|].
    change (String b f ++ x) with (String b (f ++ x)) in H.
    apply prefix_cons in H as [-> H].
    destruct (IH m H) as [Hp | (m2 & -> & Hne & Hp)].
    + left. apply prefix_cons. split; [reflexivity | exact Hp].
    + right. exists m2. repeat split; assumption.
Qed.

(** A prefix of [m ++ rest] no longer than [m] is a prefix of [m]. *)
Lemma prefix_append_short (m2 m rest : string) :
  String.prefix m2 (m ++ rest) = true ->
  String.length m2 <= String.length m ->
  String.prefix m2 m = true.
Proof.
  revert m. induction m2 as [|a m2 IH]; intros m H Hlen.
  - destruct m; reflexivity.
  - destruct m as [|b m]; [simpl in Hlen; lia|].
    change (String b m ++ rest) with (String b (m ++ rest)) in H.
    apply prefix_cons in H as [-> H].
    apply prefix_cons. split; [reflexivity|].
    apply IH; [exact H | simpl in Hlen; lia].
Qed.

Lemma length_append (a b : string) :
  String.length (a ++ b) = String.length a + String.length b.
Proof. induction a as [|c a IH]; simpl; [reflexivity | now rewrite IH]. Qed.

Lemma append_ne_self (s t : string) : t <> "" -> s ++ t <> s.
Proof.
  intros Ht Heq. apply (f_equal String.length) in Heq.
  rewrite length_append in Heq. destruct t; [contradiction | simpl in Heq; lia].
Qed.

Lemma no_border_suffix_sound (m s : string) :
  no_border_suffix m s = true ->
  forall f m2, s = f ++ m2 -> f <> "" -> m2 <> "" -> String.prefix m2 m = false.
Proof.
  induction s as [|c s IH]; intros Hchk f m2 Heq Hf Hm2.
  - destruct f; [contradiction | discriminate].
  - simpl in Hchk. apply andb_true_iff in Hchk as [Hhere Hrest].
    destruct f as [|b f]; [contradiction|].
    simpl in Heq. injection Heq as -> Heq.
    destruct f as [|b' f].
    + simpl in Heq. subst s. destruct m2; [contradiction|].
      now apply negb_true_iff in Hhere.
    + apply (IH Hrest (String b' f) m2 Heq); [discriminate | exact Hm2].
Qed.

Lemma unbordered_check (m : string) : no_border_suffix m m = true -> unbordered m.
Proof. intros H f m2. now apply no_border_suffix_sound. Qed.

Lemma MagicString_unbordered : unbordered Def.MagicString.
Proof. apply unbordered_check. vm_compute. reflexivity. Qed.

Lemma Contains_cons (a : ascii) (f m : string) :
  Contains (String a f) m = false ->
  String.prefix m (String a f) = false /\ Contains f m = false.
Proof. simpl. intros H. apply orb_false_iff in H. exact H. Qed.

Lemma Contains_prefix (f m : string) :
  Contains f m = false -> String.prefix m f = false.
Proof.
  destruct f; simpl; intros H; apply orb_false_iff in H; apply H.
Qed.

(** After a cut the scan drops the rest of the separator. *)
Lemma split_go_skip (sep m' rest : string) :
  split_go sep (String.length m') (m' ++ rest) = split_go sep 0 rest \/ rest = "".
Proof.
  induction m' as [|c m' IH]; simpl; [left; reflexivity | exact IH].
Qed.

Lemma split_go_skip_all (sep m' : string) :
  split_go sep (String.length m') m' = [""].
Proof. induction m' as [|c m' IH]; simpl; [reflexivity | exact IH]. Qed.

Lemma append_nil_r (s : string) : s ++ "" = s.
Proof.
  induction s as [|c s IH]; [reflexivity|].
  change (String c (s ++ "") = String c s). now rewrite IH.
Qed.

Lemma split_go_skip_sep (sep m' rest : string) :
  split_go sep (String.length m') (m' ++ rest) = split_go sep 0 rest.
Proof.
  destruct (split_go_skip sep m' rest) as [H | ->]; [exact H|].
  rewrite append_nil_r. apply split_go_skip_all.
Qed.

(** No occurrence of an unbordered separator starts inside a field that
    does not contain it. *)
Lemma no_early_match (m f rest : string) (a : ascii) :
  unbordered m -> m <> "" ->
  Contains (String a f) m = false ->
  String.prefix m (String a f ++ m ++ rest) = false.
Proof.
  intros Hub Hm Hc.
  destruct (String.prefix m (String a f ++ m ++ rest)) eqn:Hp; [|reflexivity].
  apply prefix_append_cases in Hp as [Hp | (m2 & Hm2 & Hne & Hp)].
  - apply Contains_prefix in Hc. congruence.
  - assert (Hshort : String.prefix m2 m = true).
    { apply (prefix_append_short m2 m rest Hp).
      rewrite Hm2, length_append. lia. }
    rewrite (Hub (String a f) m2 Hm2) in Hshort; [discriminate.. | discriminate | exact Hne].
Qed.

(** The first field of a payload: everything before the first
    separator. *)
Lemma split_go_field (m f rest : string) :
  unbordered m -> m <> "" ->
  Contains f m = false ->
  split_go m 0 (f ++ m ++ rest) = f :: split_go m 0 rest.
Proof.
  intros Hub Hm. induction f as [|a f IH]; intros Hc.
  - destruct m as [|c m']; [contradiction|].
    change ("" ++ String c m' ++ rest) with (String c (m' ++ rest)).
    cbn [split_go].
    change (String c (m' ++ rest)) with (String c m' ++ rest).
    rewrite prefix_append. f_equal.
    replace (String.length (String c m') - 1) with (String.length m')
      by (cbn [String.length]; lia).
    apply split_go_skip_sep.
  - pose proof (no_early_match m f rest a Hub Hm Hc) as Hno.
    apply Contains_cons in Hc as [_ Hc].
    change (String a f ++ m ++ rest) with (String a (f ++ m ++ rest)) in *.
    cbn [split_go]. rewrite Hno, (IH Hc). reflexivity.
Qed.

(** The last field. *)
Lemma split_go_last (m f : string) :
  Contains f m = false -> split_go m 0 f = [f].
Proof.
  induction f as [|a f IH]; intros Hc; [reflexivity|].
  pose proof (Contains_prefix _ _ Hc) as Hp.
  apply Contains_cons in Hc as [_ Hc].
  cbn [split_go]. rewrite Hp, (IH Hc). reflexivity.
Qed.

Lemma Join_cons (m f g : string) (rest : list string) :
  Join (f :: g :: rest) m = f ++ m ++ Join (g :: rest) m.
Proof. reflexivity. Qed.

(** Round trip: joining fields with an unbordered separator that occurs in
    none of them and splitting the result gives the fields back. *)
Lemma split_go_Join (m : string) (fields : list string) :
  unbordered m -> m <> "" -> fields <> [] -> clean_fields m fields ->
  split_go m 0 (Join fields m) = fields.
Proof.
  intros Hub Hm. induction fields as [|f fields IH]; intros Hne Hclean; [contradiction|].
  apply Forall_cons in Hclean as [Hf Hclean].
  destruct fields as [|g rest].
  - cbn [Join String.concat]. now apply split_go_last.
  - rewrite Join_cons, (split_go_field m f _ Hub Hm Hf).
    f_equal. now apply IH.
Qed.

Lemma Split_Join_MagicString (fields : list string) :
  fields <> [] -> clean_fields Def.MagicString fields ->
  Split (Join fields Def.MagicString) Def.MagicString = fields.
Proof.
  intros Hne Hclean.
  change (Split ?s Def.MagicString) with (split_go Def.MagicString 0 s).
  apply split_go_Join; [apply MagicString_unbordered | discriminate | exact Hne | exact Hclean].
Qed.

(** Splitting four fields joined by the magic string gives them back. *)
Lemma Split_four (f1 f2 f3 f4 : string) :
  Contains f1 Def.MagicString = false ->
  Contains f2 Def.MagicString = false ->
  Contains f3 Def.MagicString = false ->
  Contains f4 Def.MagicString = false ->
  Split (f1 ++ Def.MagicString ++ f2 ++ Def.MagicString ++ f3
            ++ Def.MagicString ++ f4) Def.MagicString
  = [f1; f2; f3; f4].
Proof.
  intros H1 H2 H3 H4.
  apply (Split_Join_MagicString [f1; f2; f3; f4]); [discriminate|].
  repeat constructor; assumption.
Qed.

End GoStringsFacts.

(** ** The message tunnel *)
Module TunnelFacts.
Import Tunnel.

Section WithHelpers.
Variable ParseCmd : string -> list string.
Variable time_Parse_ok : string -> bool.
Variable render_ps : string -> option string.
Variable render_ls : string -> option string.

Local Abbreviation processAgentData :=
  (processAgentData ParseCmd time_Parse_ok render_ps render_ls).
Local Abbreviation show_result := (show_result render_ps render_ls).

(** Displaying a result leaves the result table alone. *)
Lemma show_result_CmdResults st target contrlIf cmd out cmd_slice :
  CmdResults (fst (show_result st target contrlIf cmd out cmd_slice))
  = CmdResults st.
Proof.
  unfold Tunnel.show_result, GoSlice.index.
  destruct (IsAPIEnabled st);
    (destruct (cmd_slice !! 0) as [c0|]; [|reflexivity]);
    repeat match goal with
           | |- context [if ?b then _ else _] => destruct b
           | |- context [match ?o with Some _ => _ | None => _ end] => destruct o
           end; reflexivity.
Qed.

(** An envelope whose op is not [cmd] is dropped: nothing changes and
    nothing panics. *)
Lemma unknown_op_dropped st data op rest :
  registered st (Tag data) ->
  GoStrings.Split (Payload data) Def.MagicString = op :: rest ->
  op <> "cmd" ->
  processAgentData st data = (st, Ret tt).
Proof.
  intros (t & c & Ht & Hc) Hsplit Hop.
  unfold Tunnel.processAgentData. rewrite Hsplit. unfold GoSlice.index; cbn [lookup list_lookup].
  rewrite Ht, Hc.
  apply String.eqb_neq in Hop. rewrite Hop. reflexivity.
Qed.

(** An envelope from an agent that is not registered is logged and
    dropped. *)
Lemma unknown_agent_dropped st data :
  GetTargetFromTag st (Tag data) = None ->
  snd (processAgentData st data) = Ret tt /\
  CmdResults (fst (processAgentData st data)) = CmdResults st.
Proof.
  intros Ht. unfold Tunnel.processAgentData.
  destruct (GoStrings.Split (Payload data) Def.MagicString) as [|op rest] eqn:Hs.
  - exfalso. unfold GoStrings.Split in Hs. cbn [Def.MagicString] in Hs.
    destruct (Payload data); cbn in Hs; [discriminate|].
    repeat match type of Hs with
           | context [if ?b then _ else _] => destruct b
           | context [match ?l with [] => _ | _ :: _ => _ end] => destruct l
           end; discriminate.
  - unfold GoSlice.index; cbn [lookup list_lookup]. rewrite Ht. split; reflexivity.
Qed.

(** C4: a well-formed reply
    [cmd<MAGIC>command<MAGIC>output<MAGIC>cmd_id] of a registered agent
    puts exactly [output] into the result table under [cmd_id] and
    touches no other entry. *)
Theorem C4_reply_cached st tag command output cmd_id :
  registered st tag ->
  GoStrings.Contains command Def.MagicString = false ->
  GoStrings.Contains output Def.MagicString = false ->
  GoStrings.Contains cmd_id Def.MagicString = false ->
  let data :=
    {| Payload := "cmd" ++ Def.MagicString ++ command ++ Def.MagicString
                        ++ output ++ Def.MagicString ++ cmd_id;
       Tag := tag |} in
  CmdResults (fst (processAgentData st data))
  = <[cmd_id := output]> (CmdResults st).
Proof.
  intros (t & c & Ht & Hc) H1 H2 H3 data.
  unfold Tunnel.processAgentData. subst data. cbn [Payload Tag].
  rewrite (GoStringsFacts.Split_four "cmd" command output cmd_id
             eq_refl H1 H2 H3).
  unfold GoSlice.index; cbn [lookup list_lookup].
  rewrite Ht, Hc.
  cbn [String.eqb Ascii.eqb Bool.eqb negb length].
  unfold GoSlice.slice.
  rewrite bool_decide_eq_true_2 by (cbn; lia).
  cbn [Z.to_nat Z.of_nat length Nat.sub take drop Pos.to_nat
       Z.sub Z.add Z.opp Z.pos_sub Pos.of_succ_nat Pos.succ Pos.pred_double
       Pos.iter_op Nat.add].
  cbn [lookup list_lookup Nat.sub length].
  cbn [GoStrings.Join String.concat].
  match goal with
  | |- context [Tunnel.show_result _ _ ?s _ _ _ _ _] =>
      rewrite (show_result_CmdResults s)
  end.
  destruct (time_Parse_ok _); reflexivity.
Qed.

(** A reply whose command line parses to at least one word is handled
    without a panic. *)
Lemma reply_no_panic st tag command output cmd_id :
  registered st tag ->
  GoStrings.Contains command Def.MagicString = false ->
  GoStrings.Contains output Def.MagicString = false ->
  GoStrings.Contains cmd_id Def.MagicString = false ->
  ParseCmd command <> [] ->
  snd (processAgentData st
         {| Payload := "cmd" ++ Def.MagicString ++ command ++ Def.MagicString
                             ++ output ++ Def.MagicString ++ cmd_id;
            Tag := tag |}) = Ret tt.
Proof.
  intros (t & c & Ht & Hc) H1 H2 H3 Hwords.
  unfold Tunnel.processAgentData. cbn [Payload Tag].
  rewrite (GoStringsFacts.Split_four "cmd" command output cmd_id
             eq_refl H1 H2 H3).
  unfold GoSlice.index; cbn [lookup list_lookup].
  rewrite Ht, Hc.
  cbn [String.eqb Ascii.eqb Bool.eqb negb length].
  unfold GoSlice.slice.
  rewrite bool_decide_eq_true_2 by (cbn; lia).
  cbn [lookup list_lookup Nat.sub length].
  unfold Tunnel.show_result, GoSlice.index.
  destruct (ParseCmd command) as [|c0 ws]; [contradiction|].
  cbn [lookup list_lookup].
  repeat match goal with
         | |- context [if ?b then _ else _] => destruct b
         | |- context [match ?o with Some _ => _ | None => _ end] => destruct o
         end; reflexivity.
Qed.

(** C2: an envelope of a registered agent with op [cmd] and fewer than
    three fields is not dropped.  With [cmd] alone the handler indexes
    past the end of the split payload; with two fields it slices with a
    low bound above the high bound.  Either way it panics (the result
    table is as before). *)
Theorem C2_short_cmd_payload_panics st data :
  registered st (Tag data) ->
  (GoStrings.Split (Payload data) Def.MagicString = ["cmd"] ->
   processAgentData st data = (st, Panic "index out of range")) /\
  (forall x,
     GoStrings.Split (Payload data) Def.MagicString = ["cmd"; x] ->
     processAgentData st data = (st, Panic "slice bounds out of range")).
Proof.
  intros (t & c & Ht & Hc).
  split; [intros Hs | intros x Hs]; unfold Tunnel.processAgentData;
    rewrite Hs; unfold GoSlice.index; cbn [lookup list_lookup];
    rewrite Ht, Hc; reflexivity.
Qed.

End WithHelpers.

Lemma S1_registered : registered Scenario.cc_S1 "abcd-agent".
Proof.
  exists Scenario.abcd_agent, {| Index := 1; Label := "" |}.
  split; reflexivity.
Defined.

(** S1: after the reply [cmd<MAGIC>echo hi<MAGIC>hi<MAGIC>c1] the result
    awaited for [c1] is [hi]. *)
Lemma C4_reply_cached_witness :
  CmdResults
    (fst (processAgentData Scenario.words (fun _ => true) (fun _ => None)
            (fun _ => None) Scenario.cc_S1
            {| Payload := Scenario.payload_S1; Tag := "abcd-agent" |}))
    !! "c1" = Some "hi".
Proof.
  unfold Scenario.payload_S1.
  rewrite (C4_reply_cached Scenario.words (fun _ => true) (fun _ => None)
             (fun _ => None) Scenario.cc_S1 "abcd-agent" "echo hi" "hi" "c1"
             S1_registered eq_refl eq_refl eq_refl).
  apply lookup_insert_eq.
Defined.

(** The two payloads [cmd] and [cmd<MAGIC>x] from [abcd-agent]. *)
Lemma C2_short_cmd_payload_panics_witness :
  processAgentData Scenario.words (fun _ => true) (fun _ => None) (fun _ => None)
    Scenario.cc_S1 {| Payload := "cmd"; Tag := "abcd-agent" |}
  = (Scenario.cc_S1, Panic "index out of range") /\
  processAgentData Scenario.words (fun _ => true) (fun _ => None) (fun _ => None)
    Scenario.cc_S1 {| Payload := "cmd" ++ Def.MagicString ++ "x"; Tag := "abcd-agent" |}
  = (Scenario.cc_S1, Panic "slice bounds out of range").
Proof.
  split.
  - apply (C2_short_cmd_payload_panics Scenario.words (fun _ => true)
             (fun _ => None) (fun _ => None) Scenario.cc_S1
             {| Payload := "cmd"; Tag := "abcd-agent" |} S1_registered).
    vm_compute; reflexivity.
  - apply (proj2 (C2_short_cmd_payload_panics Scenario.words (fun _ => true)
             (fun _ => None) (fun _ => None) Scenario.cc_S1
             {| Payload := "cmd" ++ Def.MagicString ++ "x"; Tag := "abcd-agent" |}
             S1_registered) "x").
    vm_compute; reflexivity.
Defined.

End TunnelFacts.

(** ** The file-transfer front end *)
Module FtpFacts.
Import Ftp.

Lemma append_assoc (a b c : string) : (a ++ b) ++ c = a ++ b ++ c.
Proof.
  induction a as [|x a IH]; [reflexivity|].
  change (String x ((a ++ b) ++ c) = String x (a ++ b ++ c)). now rewrite IH.
Qed.

Lemma length_hex_fixed (n : nat) (x : Z) : String.length (GoFmt.hex_fixed n x) = n.
Proof.
  revert x. induction n as [|n IH]; intros x; [reflexivity|].
  cbn [GoFmt.hex_fixed]. rewrite GoStringsFacts.length_append, IH.
  cbn [String.length]. lia.
Qed.

Lemma all_hex_append (a b : string) :
  GoFmt.all_hex (a ++ b) = GoFmt.all_hex a && GoFmt.all_hex b.
Proof.
  induction a as [|x a IH]; [reflexivity|].
  change (String x a ++ b) with (String x (a ++ b)).
  cbn [GoFmt.all_hex]. rewrite IH. apply andb_assoc.
Qed.

Lemma hex_digit_is_hex (d : Z) :
  (0 <= d < 16)%Z -> GoFmt.is_hex (GoFmt.hex_digit d) = true.
Proof.
  intros Hd. rewrite <- (Z2Nat.id d) by lia.
  assert (Hn : Z.to_nat d < 16) by lia.
  revert Hn. generalize (Z.to_nat d) as n. intros n Hn.
  do 16 (destruct n as [|n]; [reflexivity|]). lia.
Qed.

Lemma all_hex_hex_fixed (n : nat) (x : Z) : GoFmt.all_hex (GoFmt.hex_fixed n x) = true.
Proof.
  revert x. induction n as [|n IH]; intros x; [reflexivity|].
  cbn [GoFmt.hex_fixed]. rewrite all_hex_append, IH.
  cbn [GoFmt.all_hex]. rewrite hex_digit_is_hex; [reflexivity|].
  apply Z.mod_pos_bound. lia.
Qed.

(** The nonce of a token: sixteen hexadecimal characters, whatever the
    random input. *)
Lemma RandMD5String_shape (r : Z) :
  String.length (RandMD5String r) = 16 /\ GoFmt.all_hex (RandMD5String r) = true.
Proof. split; [apply length_hex_fixed | apply all_hex_hex_fixed]. Qed.

Lemma length_ne (a b : string) : String.length a <> String.length b -> a <> b.
Proof. intros H ->. contradiction. Qed.

Section WithPlatform.
Context `{P : Platform}.

Lemma paths_eq p :
  GenerateGetFilePaths p = (write_dir_of p, save_path p, temp_path p, lock_path p).
Proof. reflexivity. Qed.

Lemma temp_path_eq p : temp_path p = save_path p ++ ".downloading".
Proof. reflexivity. Qed.

Lemma lock_path_eq p : lock_path p = save_path p ++ ".lock".
Proof. reflexivity. Qed.

Lemma save_path_eq p :
  save_path p = write_dir_of p ++ "/" ++ FileBaseName (filepath_Clean p).
Proof. reflexivity. Qed.

Lemma temp_ne_save p : temp_path p <> save_path p.
Proof. rewrite temp_path_eq. now apply GoStringsFacts.append_ne_self. Qed.

Lemma lock_ne_save p : lock_path p <> save_path p.
Proof. rewrite lock_path_eq. now apply GoStringsFacts.append_ne_self. Qed.

Lemma temp_ne_dir p : temp_path p <> write_dir_of p.
Proof.
  rewrite temp_path_eq, save_path_eq, append_assoc.
  now apply GoStringsFacts.append_ne_self.
Qed.

Lemma lock_ne_dir p : lock_path p <> write_dir_of p.
Proof.
  rewrite lock_path_eq, save_path_eq, append_assoc.
  now apply GoStringsFacts.append_ne_self.
Qed.

Lemma save_ne_dir p : save_path p <> write_dir_of p.
Proof. rewrite save_path_eq. now apply GoStringsFacts.append_ne_self. Qed.

Lemma made_fs w p w1 path :
  made w p = Some w1 -> path <> write_dir_of p ->
  fs w1 !! path = fs w !! path.
Proof.
  unfold made, MkdirAll. intros H Hne.
  destruct (negb _); [|now injection H as <-].
  destruct (fs w !! write_dir_of p) as [[|c]|]; try discriminate;
    injection H as <-; cbn; now rewrite lookup_insert_ne.
Qed.

Lemma made_rest w p w1 :
  made w p = Some w1 ->
  sent w1 = sent w /\ FTPStreams w1 = FTPStreams w /\ conn_up w1 = conn_up w.
Proof.
  unfold made, MkdirAll. intros H.
  destruct (negb _); [|now injection H as <-].
  destruct (fs w !! write_dir_of p) as [[|c]|]; try discriminate;
    injection H as <-; repeat split.
Qed.

Lemma made_dir_exists w p :
  IsDirExist w (write_dir_of p) = true -> made w p = Some w.
Proof. unfold made. now intros ->. Qed.

Lemma SendCmd_inv w cmd id w' :
  SendCmd w cmd id = Some w' ->
  conn_up w = true /\ fs w' = fs w /\ FTPStreams w' = FTPStreams w /\
  sent w' = (sent w ++ [(cmd, id)])%list /\ conn_up w' = true.
Proof.
  unfold SendCmd. destruct (conn_up w) eqn:Hc; [|discriminate].
  intros [= <-]. cbn. repeat split; assumption.
Qed.

Lemma FileAllocate_inv w path n w' :
  FileAllocate w path n = Some w' ->
  fs w' = <[path := File (replicate (Z.to_nat n) Byte.x00)]> (fs w) /\
  FTPStreams w' = FTPStreams w /\ sent w' = sent w /\ conn_up w' = conn_up w.
Proof.
  unfold FileAllocate.
  destruct (fs w !! path) as [[|c]|]; try discriminate;
    (destruct (bool_decide _); [discriminate|]); intros [= <-]; repeat split.
Qed.

Lemma IsExist_fs w w' path :
  fs w' !! path = fs w !! path -> IsExist w' path = IsExist w path.
Proof. unfold IsExist. now intros ->. Qed.

Lemma FileSize_fs w w' path :
  fs w' !! path = fs w !! path -> FileSize w' path = FileSize w path.
Proof. unfold FileSize. now intros ->. Qed.

(** Open [GetFile] up to its directory step. *)
Ltac open_GetFile w p :=
  unfold GetFile; rewrite paths_eq; cbv beta iota zeta; fold (made w p).

(** The shape of every call that hands back a stream handle. *)
Lemma GetFile_handler_inv e w p fuel w' sh err :
  GetFile e w p fuel = Some (w', (Some sh, err)) ->
  exists w1 w1s k res fi w3,
    made w p = Some w1 /\
    IsExist w1 (lock_path p) = false /\
    SendCmd w1 (stat_cmd p) (uuid e) = Some w1s /\
    StatFile_loop e (uuid e) fuel 0 = Some (k, res) /\
    json_Unmarshal_FileStat res = Some fi /\
    FileAllocate (after_wait e w1s k)
                 (save_path p) (Size fi) = Some w3 /\
    sh = {| Token := RandMD5String (rnd e) ++ "-" ++ Checksum fi;
            BufSize := 8192 |} /\
    err = None /\
    SendCmd (set_FTPStreams w3 (<[p := sh]> (FTPStreams w3)))
            (get_cmd p (if IsExist w3 (temp_path p)
                        then FileSize w3 (temp_path p) else 0%Z)
                     (Token sh)) ""
    = Some w'.
Proof.
  open_GetFile w p.
  destruct (made w p) as [w1|] eqn:Hmade; [|discriminate].
  destruct (IsExist w1 (lock_path p)) eqn:Hlock; [discriminate|].
  unfold StatFile. fold (stat_cmd p).
  destruct (SendCmd w1 (stat_cmd p) (uuid e)) as [w1s|] eqn:Hsend; [|discriminate].
  destruct (StatFile_loop e (uuid e) fuel 0) as [[k res]|] eqn:Hloop; [|discriminate].
  destruct (json_Unmarshal_FileStat res) as [fi|] eqn:Hjson; [|discriminate].
  destruct (IsExist _ (save_path p) && _); [discriminate|].
  destruct (FileAllocate _ (save_path p) (Size fi)) as [w3|] eqn:Halloc; [|discriminate].
  match goal with
  | |- context [SendCmd ?a ?b ?c] => destruct (SendCmd a b c) as [w4|] eqn:Hget
  end; [|discriminate].
  intros [= <- <- <-].
  exists w1, w1s, k, res, fi, w3. repeat split; try assumption.
Qed.

(** [GetFile] writes the write directory and the final file, and no
    other path. *)
Lemma GetFile_fs_other e w p fuel w' r path :
  GetFile e w p fuel = Some (w', r) ->
  path <> write_dir_of p -> path <> save_path p ->
  fs w' !! path = fs w !! path.
Proof.
  intros H Hdir Hsave. revert H.
  open_GetFile w p.
  destruct (made w p) as [w1|] eqn:Hmade; [|now intros [= <- _]].
  pose proof (made_fs _ _ _ path Hmade Hdir) as Hfs1.
  destruct (IsExist w1 (lock_path p)); [now intros [= <- _]|].
  unfold StatFile. fold (stat_cmd p).
  destruct (SendCmd w1 (stat_cmd p) (uuid e)) as [w1s|] eqn:Hsend;
    [|now intros [= <- _]].
  apply SendCmd_inv in Hsend as (_ & Hfs2 & _).
  destruct (StatFile_loop e (uuid e) fuel 0) as [[k res]|]; [|discriminate].
  destruct (json_Unmarshal_FileStat res) as [fi|];
    [|intros [= <- _]; cbn; now rewrite Hfs2].
  destruct (IsExist _ (save_path p) && _);
    [intros [= <- _]; cbn; now rewrite Hfs2|].
  destruct (FileAllocate _ (save_path p) (Size fi)) as [w3|] eqn:Halloc;
    [|intros [= <- _]; cbn; now rewrite Hfs2].
  apply FileAllocate_inv in Halloc as (Hfs3 & _).
  assert (Hw3 : fs w3 !! path = fs w !! path).
  { rewrite Hfs3, lookup_insert_ne by congruence. cbn. now rewrite Hfs2. }
  match goal with
  | |- context [SendCmd ?a ?b ?c] => destruct (SendCmd a b c) as [w4|] eqn:Hget
  end.
  - apply SendCmd_inv in Hget as (_ & Hfs4 & _).
    intros [= <- _]. now rewrite Hfs4.
  - now intros [= <- _].
Qed.

(** The only place that reports a download in progress is the lock
    check. *)
Lemma GetFile_refused_inv e w p fuel w' sh :
  GetFile e w p fuel = Some (w', (sh, Some (ErrAlreadyDownloading (save_path p)))) ->
  exists w1, made w p = Some w1 /\ IsExist w1 (lock_path p) = true.
Proof.
  open_GetFile w p.
  destruct (made w p) as [w1|] eqn:Hmade; [|discriminate].
  destruct (IsExist w1 (lock_path p)) eqn:Hlock; [intros _; now exists w1|].
  unfold StatFile.
  destruct (SendCmd w1 _ (uuid e)) as [w1s|]; [|discriminate].
  destruct (StatFile_loop e (uuid e) fuel 0) as [[k res]|]; [|discriminate].
  destruct (json_Unmarshal_FileStat res) as [fi|]; [|discriminate].
  destruct (IsExist _ (save_path p) && _); [discriminate|].
  destruct (FileAllocate _ (save_path p) (Size fi)) as [w3|]; [|discriminate].
  match goal with
  | |- context [SendCmd ?a ?b ?c] => destruct (SendCmd a b c)
  end; discriminate.
Qed.

(** C3 (amended): with the lock file present [GetFile] fails with the
    already-being-downloaded error and touches nothing; with the lock
    file absent it is not refused, and it leaves the lock file absent:
    [GetFile] never takes the lock itself. *)
Theorem C3_lock_checked_never_taken e w p fuel :
  IsDirExist w (write_dir_of p) = true ->
  (IsExist w (lock_path p) = true ->
   GetFile e w p fuel
   = Some (w, (None, Some (ErrAlreadyDownloading (save_path p))))) /\
  (IsExist w (lock_path p) = false ->
   forall w' r, GetFile e w p fuel = Some (w', r) ->
     IsExist w' (lock_path p) = false /\
     snd r <> Some (ErrAlreadyDownloading (save_path p))).
Proof.
  intros Hdir. split.
  - intros Hlock. unfold GetFile. rewrite paths_eq. cbv beta iota zeta.
    rewrite Hdir. cbn [negb]. now rewrite Hlock.
  - intros Hlock w' r H. split.
    + rewrite <- Hlock. apply IsExist_fs.
      apply (GetFile_fs_other e w p fuel w' r); [exact H | apply lock_ne_dir | apply lock_ne_save].
    + destruct r as [sh err]. cbn. intros ->.
      apply GetFile_refused_inv in H as (w1 & Hmade & Hl).
      rewrite (made_dir_exists _ _ Hdir) in Hmade. injection Hmade as <-.
      congruence.
Qed.

(** C7: a call that reaches the transfer stage sends the stat command
    and then the get command, whose offset is the size of the temp file
    if there is one and 0 otherwise. *)
Theorem C7_get_offset_is_temp_size e w p fuel w' sh :
  GetFile e w p fuel = Some (w', (Some sh, None)) ->
  sent w' = (sent w ++
    [(stat_cmd p, uuid e);
     (get_cmd p (if IsExist w (temp_path p)
                 then FileSize w (temp_path p) else 0%Z) (Token sh), "")])%list.
Proof.
  intros H.
  pose proof (GetFile_fs_other _ _ _ _ _ _ (temp_path p) H
                (temp_ne_dir p) (temp_ne_save p)) as Hfs.
  apply GetFile_handler_inv in H
    as (w1 & w1s & k & res & fi & w3 & Hmade & _ & Hstat & _ & _ & Halloc & _ & _ & Hget).
  apply SendCmd_inv in Hget as (_ & Hfs4 & _ & Hsent4 & _).
  assert (Hw3 : fs w3 !! temp_path p = fs w !! temp_path p)
    by (now rewrite <- Hfs, Hfs4).
  rewrite (IsExist_fs _ _ _ Hw3), (FileSize_fs _ _ _ Hw3) in Hsent4.
  rewrite Hsent4. cbn [sent set_FTPStreams].
  apply FileAllocate_inv in Halloc as (_ & _ & -> & _). cbn [sent after_wait].
  apply SendCmd_inv in Hstat as (_ & _ & _ & -> & _).
  apply made_rest in Hmade as (-> & _).
  now rewrite <- app_assoc.
Qed.

(** C8: a call either registers no stream handle and returns none, or
    registers exactly one, under the path asked for; its token is a nonce
    of exactly sixteen hexadecimal characters, a dash, and the checksum the
    agent reported for the file, and it is the handle handed back when the
    get command could be sent. *)
Theorem C8_token_shape e w p fuel w' r :
  GetFile e w p fuel = Some (w', r) ->
  (FTPStreams w' = FTPStreams w /\ fst r = None) \/
  exists nonce fi sh,
    stat_reply e fuel = Some fi /\
    Token sh = nonce ++ "-" ++ Checksum fi /\
    String.length nonce = 16 /\ GoFmt.all_hex nonce = true /\
    FTPStreams w' = <[p := sh]> (FTPStreams w) /\
    (r = (Some sh, None) \/ fst r = None).
Proof.
  open_GetFile w p.
  destruct (made w p) as [w1|] eqn:Hmade; [|intros [= <- <-]; now left].
  apply made_rest in Hmade as (_ & Hs1 & _).
  destruct (IsExist w1 (lock_path p)); [intros [= <- <-]; now left|].
  unfold StatFile. fold (stat_cmd p).
  destruct (SendCmd w1 (stat_cmd p) (uuid e)) as [w1s|] eqn:Hsend;
    [|intros [= <- <-]; now left].
  apply SendCmd_inv in Hsend as (_ & _ & Hs2 & _).
  destruct (StatFile_loop e (uuid e) fuel 0) as [[k res]|] eqn:Hloop; [|discriminate].
  destruct (json_Unmarshal_FileStat res) as [fi|] eqn:Hjson;
    [|intros [= <- <-]; left; cbn; split; [congruence | reflexivity]].
  destruct (IsExist _ (save_path p) && _);
    [intros [= <- <-]; left; cbn; split; [congruence | reflexivity]|].
  destruct (FileAllocate _ (save_path p) (Size fi)) as [w3|] eqn:Halloc;
    [|intros [= <- <-]; left; cbn; split; [congruence | reflexivity]].
  apply FileAllocate_inv in Halloc as (_ & Hs3 & _). cbn [FTPStreams after_wait] in Hs3.
  destruct (RandMD5String_shape (rnd e)) as [Hlen Hhex].
  assert (Hreply : stat_reply e fuel = Some fi)
    by (unfold stat_reply; now rewrite Hloop).
  match goal with
  | |- context [SendCmd ?a ?b ?c] => destruct (SendCmd a b c) as [w4|] eqn:Hget
  end.
  - apply SendCmd_inv in Hget as (_ & _ & Hs4 & _).
    intros [= <- <-]. right.
    exists (RandMD5String (rnd e)), fi,
      {| Token := RandMD5String (rnd e) ++ "-" ++ Checksum fi; BufSize := 1024 * 8 |}.
    split; [exact Hreply|]. split; [reflexivity|]. split; [exact Hlen|].
    split; [exact Hhex|]. split; [|now left].
    rewrite Hs4. cbn. congruence.
  - intros [= <- <-]. right.
    exists (RandMD5String (rnd e)), fi,
      {| Token := RandMD5String (rnd e) ++ "-" ++ Checksum fi; BufSize := 1024 * 8 |}.
    split; [exact Hreply|]. split; [reflexivity|]. split; [exact Hlen|].
    split; [exact Hhex|]. split; [|now right].
    cbn. congruence.
Qed.

(** C10 (amended): when the final file exists and its checksum equals
    the one the agent reported, [GetFile] returns neither a handle nor
    an error; the stat request is the only command it has sent, and no
    stream is registered.  A handle comes back only with a nil error and
    after the get command was put on the tunnel. *)
Theorem C10_short_circuit_after_stat e w p fuel :
  (forall fi,
     IsDirExist w (write_dir_of p) = true ->
     IsExist w (lock_path p) = false ->
     conn_up w = true ->
     stat_reply e fuel = Some fi ->
     IsExist w (save_path p) = true ->
     SHA256SumFile w (save_path p) = Checksum fi ->
     exists w',
       GetFile e w p fuel = Some (w', (None, None)) /\
       sent w' = (sent w ++ [(stat_cmd p, uuid e)])%list /\
       FTPStreams w' = FTPStreams w /\ fs w' = fs w) /\
  (forall w' sh err,
     GetFile e w p fuel = Some (w', (Some sh, err)) ->
     err = None /\
     exists offset, last (sent w') = Some (get_cmd p offset (Token sh), "")).
Proof.
  split.
  - intros fi Hdir Hlock Hconn Hreply Hfinal Hsum.
    unfold GetFile. rewrite paths_eq. cbv beta iota zeta.
    rewrite Hdir. cbn [negb]. rewrite Hlock.
    unfold StatFile, SendCmd. rewrite Hconn.
    unfold stat_reply in Hreply.
    destruct (StatFile_loop e (uuid e) fuel 0) as [[k res]|]; [|discriminate].
    rewrite Hreply.
    match goal with
    | |- context [IsExist ?x (save_path p)] =>
        replace (IsExist x (save_path p)) with true
          by (symmetry; exact Hfinal);
        replace (SHA256SumFile x (save_path p)) with (Checksum fi)
          by (symmetry; exact Hsum)
    end.
    rewrite String.eqb_refl. cbn [andb].
    eexists. split; [reflexivity|]. repeat split.
  - intros w' sh err H.
    apply GetFile_handler_inv in H
      as (w1 & w1s & k & res & fi & w3 & _ & _ & _ & _ & _ & _ & _ & Herr & Hget).
    split; [exact Herr|].
    apply SendCmd_inv in Hget as (_ & _ & _ & -> & _).
    eexists. now rewrite last_snoc.
Qed.

(** C5: [StatFile] has no deadline: while the agent's reply stays away,
    no number of iterations of its polling loop lets it return, and
    [GetFile], which waits for it, does not return either. *)
Theorem C5_StatFile_never_times_out e w p :
  conn_up w = true ->
  (forall k, tbl_at e k !! uuid e = None) ->
  forall fuel,
    StatFile e w p fuel = None /\
    (IsDirExist w (write_dir_of p) = true ->
     IsExist w (lock_path p) = false ->
     GetFile e w p fuel = None).
Proof.
  intros Hconn Hsilent fuel.
  assert (Hloop : forall k, StatFile_loop e (uuid e) fuel k = None).
  { induction fuel as [|fuel IH]; intros k; [reflexivity|].
    cbn [StatFile_loop]. now rewrite Hsilent. }
  assert (Hstat : forall w0, conn_up w0 = true -> StatFile e w0 p fuel = None).
  { intros w0 H0. unfold StatFile, SendCmd. now rewrite H0, Hloop. }
  split; [now apply Hstat|].
  intros Hdir Hlock. unfold GetFile. rewrite paths_eq. cbv beta iota zeta.
  rewrite Hdir. cbn [negb]. rewrite Hlock. now rewrite (Hstat w Hconn).
Qed.

End WithPlatform.

(** The wait of [moduleMemDump] is bounded: without a reply it gives up
    after one hundred sleeps of 100 ms and reports an empty response. *)
Lemma moduleMemDump_gives_up tbl_at cmd_id pid :
  (forall k, tbl_at k !! cmd_id = None) ->
  MemDump.moduleMemDump (Some pid) true tbl_at cmd_id = (MemDump.EmptyResponse, 100) /\
  (Z.of_nat 100 * MemDump.sleep_ms = 10 * 1000)%Z.
Proof.
  intros Hsilent. split; [|reflexivity].
  assert (Hloop : forall left i, MemDump.wait_loop tbl_at cmd_id left i = ("", left + i)).
  { induction left as [|left IH]; intros i; [reflexivity|].
    cbn [MemDump.wait_loop]. rewrite Hsilent, IH. f_equal. lia. }
  unfold MemDump.moduleMemDump. cbn [negb]. rewrite Hloop. reflexivity.
Qed.

#[local] Existing Instance Scenario.workspace.

Lemma C3_lock_checked_never_taken_witness :
  GetFile Scenario.env_first Scenario.ws_locked "/etc/hostname" 3
  = Some (Scenario.ws_locked,
          (None, Some (ErrAlreadyDownloading (save_path "/etc/hostname")))) /\
  forall w' r,
    GetFile Scenario.env_first Scenario.ws_fresh "/etc/hostname" 3 = Some (w', r) ->
    IsExist w' (lock_path "/etc/hostname") = false.
Proof.
  split.
  - destruct (C3_lock_checked_never_taken Scenario.env_first Scenario.ws_locked
                "/etc/hostname" 3) as [Hlocked _]; [vm_compute; reflexivity|].
    apply Hlocked. vm_compute; reflexivity.
  - intros w' r H.
    destruct (C3_lock_checked_never_taken Scenario.env_first Scenario.ws_fresh
                "/etc/hostname" 3) as [_ Hfree]; [vm_compute; reflexivity|].
    apply (Hfree ltac:(vm_compute; reflexivity) w' r H).
Defined.

(** Two calls for the same path, one right after the other, on a fresh
    workspace: the second is not refused, both begin a transfer. *)
Lemma C3_counterexample :
  begins_transfer (GetFile Scenario.env_first Scenario.ws_fresh "/etc/hostname" 3) = true /\
  begins_transfer
    (GetFile Scenario.env_second
       (world_after (GetFile Scenario.env_first Scenario.ws_fresh "/etc/hostname" 3)
                    Scenario.ws_fresh)
       "/etc/hostname" 3) = true.
Proof. split; vm_compute; reflexivity. Qed.

(** S2: restarted on a temp file of 5 bytes, the get command carries
    offset 5. *)
Lemma C7_get_offset_is_temp_size_witness :
  exists w' sh,
    GetFile Scenario.env_first Scenario.ws_partial "/etc/hostname" 3
    = Some (w', (Some sh, None)) /\
    sent w' =
      [("!stat --path '/etc/hostname'", uuid Scenario.env_first);
       ("get --file_path '/etc/hostname' --offset 5 --token '" ++ Token sh ++ "'", "")].
Proof.
  destruct (GetFile Scenario.env_first Scenario.ws_partial "/etc/hostname" 3)
    as [[w' [[sh|] [err|]]]|] eqn:H; try (vm_compute in H; discriminate H).
  exists w', sh. split; [reflexivity|].
  rewrite (C7_get_offset_is_temp_size _ _ _ _ _ _ H). reflexivity.
Defined.

Lemma C8_token_shape_witness :
  exists w' sh nonce,
    GetFile Scenario.env_first Scenario.ws_fresh "/etc/hostname" 3
    = Some (w', (Some sh, None)) /\
    Token sh = nonce ++ "-" ++ Scenario.H /\ String.length nonce = 16 /\
    FTPStreams w' = {[ "/etc/hostname" := sh ]}.
Proof.
  destruct (GetFile Scenario.env_first Scenario.ws_fresh "/etc/hostname" 3)
    as [[w' [[sh|] [err|]]]|] eqn:H; try (vm_compute in H; discriminate H).
  destruct (C8_token_shape _ _ _ _ _ _ H)
    as [[_ Hnone] | (nonce & fi & sh' & Hfi & Htok & Hlen & _ & Hreg & [Hr | Hr])];
    [discriminate Hnone | | discriminate Hr].
  injection Hr as <-.
  exists w', sh, nonce. split; [reflexivity|].
  vm_compute in Hfi. injection Hfi as <-.
  split; [exact Htok|]. split; [exact Hlen|]. exact Hreg.
Defined.

Lemma C10_short_circuit_after_stat_witness :
  exists w',
    GetFile Scenario.env_first Scenario.ws_done "/etc/hostname" 3
    = Some (w', (None, None)) /\
    sent w' = [("!stat --path '/etc/hostname'", uuid Scenario.env_first)] /\
    FTPStreams w' = ∅.
Proof.
  destruct (proj1 (C10_short_circuit_after_stat Scenario.env_first Scenario.ws_done
                     "/etc/hostname" 3)
              {| Name := "hostname"; Size := 12; Checksum := Scenario.H |})
    as (w' & Hget & Hsent & Hstreams & _); try (vm_compute; reflexivity).
  exists w'. repeat split; assumption.
Defined.

(** The final file is there with the reported checksum: [GetFile]
    returns (nil, nil), and it has sent the agent a command. *)
Lemma C10_counterexample :
  snd <$> GetFile Scenario.env_first Scenario.ws_done "/etc/hostname" 3
    = Some (None, None) /\
  (sent ∘ fst) <$> GetFile Scenario.env_first Scenario.ws_done "/etc/hostname" 3
    = Some [("!stat --path '/etc/hostname'", "0b7e6a52-3c1f-4d8e-9a40-5f2c7d1e8b93")] /\
  sent Scenario.ws_done = [].
Proof. repeat split; vm_compute; reflexivity. Qed.

(** When the connection drops between the stat reply and the get command,
    the stream handle stays registered although none is handed back. *)
Lemma GetFile_registers_before_sending :
  fst <$> (snd <$> GetFile Scenario.env_drops Scenario.ws_fresh "/etc/hostname" 3)
    = Some None /\
  is_Some (FTPStreams (world_after
                         (GetFile Scenario.env_drops Scenario.ws_fresh "/etc/hostname" 3)
                         Scenario.ws_fresh) !! "/etc/hostname").
Proof. split; vm_compute; eauto. Qed.

(** A thousand wake-ups (a hundred seconds) after the stat command went
    out to a silent agent, [StatFile] is still polling, and so is the
    [GetFile] that called it. *)
Lemma C5_StatFile_never_times_out_witness :
  StatFile Scenario.env_silent Scenario.ws_fresh "/etc/hostname" 1000 = None /\
  GetFile Scenario.env_silent Scenario.ws_fresh "/etc/hostname" 1000 = None.
Proof.
  destruct (C5_StatFile_never_times_out Scenario.env_silent Scenario.ws_fresh
              "/etc/hostname" eq_refl (fun k => lookup_empty _) 1000)
    as [Hstat Hget].
  split; [exact Hstat|].
  apply Hget; vm_compute; reflexivity.
Defined.

End FtpFacts.

(** ** Module options *)
Module OptionsFacts.
Import Options.

(** The [live] revision of [SetOption] reports an unknown option and
    changes no option. *)
Lemma live_SetOption_unknown_reported st options opt val :
  ActiveModule st = Some options ->
  options !! opt = None ->
  snd (live_SetOption st opt val) = Ret tt /\
  log (fst (live_SetOption st opt val)) = (log st ++ [LogError_option_not_found opt])%list /\
  heap (fst (live_SetOption st opt val)) = heap st /\
  ActiveModule (fst (live_SetOption st opt val)) = ActiveModule st.
Proof.
  intros Hact Hmiss. unfold live_SetOption. rewrite Hact, Hmiss.
  repeat split.
Qed.

(** C6: in package cc, [SetOption] on a name that is not in the option
    map dereferences the nil pointer the map lookup yields: it panics,
    with no message for the operator (the options are left as they
    were). *)
Theorem C6_SetOption_unknown_name_panics st opt val :
  CurrentModuleOptions st !! opt = None ->
  SetOption st opt val
  = (st, Panic "invalid memory address or nil pointer dereference").
Proof. intros Hmiss. unfold SetOption. now rewrite Hmiss. Qed.

Lemma C6_SetOption_unknown_name_panics_witness :
  panicked (snd (SetOption Scenario.opts_cmd_exec "no_such_option" "1")) = true /\
  fst (SetOption Scenario.opts_cmd_exec "no_such_option" "1") = Scenario.opts_cmd_exec.
Proof.
  rewrite (C6_SetOption_unknown_name_panics Scenario.opts_cmd_exec
             "no_such_option" "1") by (vm_compute; reflexivity).
  split; reflexivity.
Defined.

End OptionsFacts.

(** ** The operator long poll *)
Module OperatorFacts.
Import Operator.

Lemma enter_ticking ops session c :
  ticking (handleOperatorConn_enter ops session c).
Proof. repeat split. Qed.

(** A tick finds the timer pending, stops it and arms it again. *)
Lemma tick_rearms ctx_returns h :
  ticking h ->
  step ctx_returns h heartbeatTicker_C
  = with_timer h (now h + Second) (timer_Reset (now h + Second) Minute).
Proof.
  intros (Hret & _ & Htm). unfold step. rewrite Hret, Htm.
  unfold timer_Stop, timer_Reset. cbn [armed deadline].
  replace (now h + Minute <=? now h + Second)%Z with false; [reflexivity|].
  symmetry. apply Z.leb_gt. unfold Minute, Second. lia.
Qed.

Lemma tick_ticking ctx_returns h :
  ticking h -> ticking (step ctx_returns h heartbeatTicker_C).
Proof.
  intros Ht. rewrite (tick_rearms _ _ Ht).
  destruct Ht as (Hret & Hconn & _). repeat split; assumption.
Qed.

Lemma ticks_run ctx_returns n h :
  ticking h ->
  let h' := run ctx_returns h (repeat heartbeatTicker_C n) in
  ticking h' /\ OPERATORS h' = OPERATORS h /\
  operator_session h' = operator_session h /\
  now h' = (now h + Z.of_nat n * Second)%Z /\ log h' = log h.
Proof.
  revert h. induction n as [|n IH]; intros h Ht.
  - cbn. repeat split; try apply Ht. lia.
  - cbn [repeat run fold_left].
    destruct (IH _ (tick_ticking ctx_returns h Ht)) as (Ht' & Hops & Hsess & Hnow & Hlog).
    cbn zeta. unfold run in *. split; [exact Ht'|].
    rewrite Hops, Hsess, Hnow, Hlog, (tick_rearms _ _ Ht). cbn.
    repeat split. lia.
Qed.

Lemma heartbeat_ticking ctx_returns h :
  ticking h ->
  ticking (step ctx_returns h heartbeatCh) /\
  OPERATORS (step ctx_returns h heartbeatCh) = OPERATORS h /\
  operator_session (step ctx_returns h heartbeatCh) = operator_session h /\
  log (step ctx_returns h heartbeatCh) = log h.
Proof.
  intros (Hret & Hconn & Htm). unfold step. rewrite Hret.
  repeat split; assumption.
Qed.

(** As long as the request context lives, no order of ticks and received
    heartbeats leads into the timeout branch. *)
Lemma no_timeout_while_context_lives ctx_returns evs h :
  ticking h ->
  Forall (fun ev => ev <> ctx_Done) evs ->
  let h' := run ctx_returns h evs in
  ticking h' /\ OPERATORS h' = OPERATORS h /\
  operator_session h' = operator_session h /\ log h' = log h.
Proof.
  revert h. induction evs as [|ev evs IH]; intros h Ht Hevs.
  - repeat split; apply Ht.
  - apply Forall_cons in Hevs as [Hev Hevs]. cbn zeta. cbn [run fold_left].
    destruct ev; [| |contradiction].
    + destruct (IH _ (tick_ticking ctx_returns h Ht) Hevs) as (Ht' & Hops & Hsess & Hlog).
      unfold run in *. split; [exact Ht'|].
      rewrite Hops, Hsess, Hlog, (tick_rearms _ _ Ht). repeat split.
    + destruct (heartbeat_ticking ctx_returns h Ht) as (Hth & Hops0 & Hsess0 & Hlog0).
      destruct (IH _ Hth Hevs) as (Ht' & Hops & Hsess & Hlog).
      unfold run in *. split; [exact Ht'|].
      rewrite Hops, Hsess, Hlog. repeat split; assumption.
Qed.

(** C1: an operator that sends nothing is never timed out.  Each tick of
    the one-second ticker stops the one-minute timer while it is still
    pending and arms it again, so after any number of ticks (sixty and
    more included) the session is still in [OPERATORS] with its
    connection open, and no timeout was logged. *)
Theorem C1_silent_operator_never_timed_out ctx_returns ops session c n :
  let h := run ctx_returns (handleOperatorConn_enter ops session c)
               (repeat heartbeatTicker_C n) in
  attached h /\ now h = (Z.of_nat n * Second)%Z /\ log h = [].
Proof.
  destruct (ticks_run ctx_returns n _ (enter_ticking ops session c))
    as ((Hret & Hconn & _) & Hops & Hsess & Hnow & Hlog).
  cbn zeta. unfold attached. rewrite Hops, Hsess, Hnow, Hlog.
  repeat split; try assumption.
  cbn. destruct (ops !! session); rewrite lookup_insert_eq; eauto.
Qed.

(** S5 on the code: sixty-one seconds of silence, and the operator is
    still attached. *)
Lemma C1_silent_operator_never_timed_out_witness :
  let h := run true Scenario.operator_S5 (repeat heartbeatTicker_C 61) in
  is_Some (OPERATORS h !! "operator-1") /\ conn_closed h = false /\
  now h = 61000%Z.
Proof.
  destruct (C1_silent_operator_never_timed_out true ∅ "operator-1" 1 61)
    as ((Hin & Hconn & _) & Hnow & _).
  repeat split; assumption.
Defined.

(** The timeout branch does what the specification asks, once it is
    reached: a tick that finds the timer expired removes the session and
    closes the connection. *)
Lemma expired_timer_closes ctx_returns h :
  returned h = false ->
  armed (timeoutTimer h) = true ->
  (deadline (timeoutTimer h) <= now h + Second)%Z ->
  let h' := step ctx_returns h heartbeatTicker_C in
  OPERATORS h' !! operator_session h = None /\ conn_closed h' = true /\
  returned h' = true.
Proof.
  intros Hret Harmed Hdl. cbn zeta. unfold step, timer_Stop.
  rewrite Hret, Harmed.
  replace (deadline (timeoutTimer h) <=? now h + Second)%Z with true
    by (symmetry; now apply Z.leb_le).
  cbn. repeat split. apply lookup_delete_eq.
Qed.

End OperatorFacts.

(** ** The KCP tunnel configuration *)
Module KcpFacts.
Import Kcp.

(** C9: the [switch] of [NewConfig] gives each profile its row of the
    preset table; [NewConfig] itself selects [fast3] and so returns that
    row; and client and server derive their key as
    PBKDF2-SHA1(pre-shared key, salt, 4096 iterations, 32 bytes), where the
    salt is the argument documented as the magic string. *)
Theorem C9_presets_and_key_derivation :
  (forall c,
     nodelay_tuple (switch_Mode (with_Mode c "normal")) = (0, 40, 2, 1)%Z /\
     nodelay_tuple (switch_Mode (with_Mode c "fast")) = (0, 30, 2, 1)%Z /\
     nodelay_tuple (switch_Mode (with_Mode c "fast2")) = (1, 20, 2, 1)%Z /\
     nodelay_tuple (switch_Mode (with_Mode c "fast3")) = (1, 10, 2, 1)%Z) /\
  (forall remote_addr target port password salt,
     let config := NewConfig remote_addr target port password salt in
     Mode config = "fast3" /\ nodelay_tuple config = (1, 10, 2, 1)%Z /\
     Key config = password) /\
  (forall pbkdf2_Key addr port password salt,
     KCPTunClient_pass pbkdf2_Key addr port password salt
     = pbkdf2_Key (list_byte_of_string password)
                  (list_byte_of_string salt) 4096%Z 32%Z sha1_New /\
     KCPTunServer_pass pbkdf2_Key addr port password salt
     = pbkdf2_Key (list_byte_of_string password)
                  (list_byte_of_string salt) 4096%Z 32%Z sha1_New).
Proof.
  split; [|split].
  - intros c. repeat split.
  - intros. repeat split.
  - intros. split; reflexivity.
Qed.

(** With the magic string as salt, as the callers are documented to pass
    it. *)
Lemma KCPTunClient_pass_MagicString pbkdf2_Key addr port password :
  KCPTunClient_pass pbkdf2_Key addr port password Def.MagicString
  = pbkdf2_Key (list_byte_of_string password)
               (list_byte_of_string Def.MagicString) 4096%Z 32%Z sha1_New.
Proof. reflexivity. Qed.

(** A mode outside the table leaves the tuple as it was. *)
Lemma switch_Mode_manual c :
  nodelay_tuple (switch_Mode (with_Mode c "manual")) = nodelay_tuple c.
Proof. reflexivity. Qed.

End KcpFacts.

(** ** The agent registry *)
Module RegistryFacts.
Import Registry.

(** X1: [GetTargetFromTag] answers with an agent of [Targets] that carries
    the tag, and answers nil exactly when no agent of [Targets] carries
    it. *)
Theorem GetTargetFromTag_sound_complete (st : Tunnel.cc_state) (tag : string) :
  (forall t, Tunnel.GetTargetFromTag st tag = Some t ->
     In t (map fst (Tunnel.Targets st)) /\ Tunnel.agent_Tag t = tag) /\
  (Tunnel.GetTargetFromTag st tag = None <->
     forall t, In t (map fst (Tunnel.Targets st)) -> Tunnel.agent_Tag t <> tag).
Proof.
  unfold Tunnel.GetTargetFromTag.
  induction (Tunnel.Targets st) as [|[t0 c0] ts [IHs IHc]]; cbn [Tunnel.GetTargetFromTag_loop map fst In].
  - split; [discriminate|]. split; [intros _ t [] | reflexivity].
  - destruct (String.eqb (Tunnel.agent_Tag t0) tag) eqn:Heq.
    + apply String.eqb_eq in Heq. split.
      * intros t [= <-]. split; [now left | exact Heq].
      * split; [discriminate|]. intros H. exfalso. apply (H t0); [now left | exact Heq].
    + apply String.eqb_neq in Heq. split.
      * intros t Ht. destruct (IHs t Ht) as [Hin Htag]. split; [now right | exact Htag].
      * rewrite IHc. split.
        -- intros H t [<- | Hin]; [exact Heq | now apply H].
        -- intros H t Hin. apply H. now right.
Qed.

Lemma GetTargetFromH2Conn_found ts conn t :
  GetTargetFromH2Conn ts conn = Ret (Some t) ->
  exists ctrl, In (t, Some ctrl) ts /\ Conn ctrl = conn.
Proof.
  induction ts as [|[t0 [c0|]] ts IH]; cbn [GetTargetFromH2Conn]; try discriminate.
  destruct (bool_decide (conn = Conn c0)) eqn:Hc.
  - intros [= <-]. exists c0. apply bool_decide_eq_true in Hc. split; [now left | now symmetry].
  - intros H. destruct (IH H) as (ctrl & Hin & Hconn). exists ctrl. split; [now right | exact Hconn].
Qed.

Lemma lookup_target_In ts t c :
  NoDup (addrs ts) -> In (t, c) ts -> lookup_target ts (Tunnel.agent_addr t) = c.
Proof.
  induction ts as [|[t0 c0] ts IH]; intros Hnd Hin; [destruct Hin|].
  cbn [addrs map fst] in Hnd. apply NoDup_cons in Hnd as [Hnot Hnd].
  cbn [lookup_target].
  destruct Hin as [[= -> ->] | Hin].
  - now rewrite Pos.eqb_refl.
  - destruct (Pos.eqb (Tunnel.agent_addr t0) (Tunnel.agent_addr t)) eqn:Heq.
    + apply Pos.eqb_eq in Heq. exfalso. apply Hnot. rewrite Heq.
      apply list_elem_of_In. apply (in_map (fun tc => Tunnel.agent_addr (fst tc)) _ _ Hin).
    + now apply IH.
Qed.

(** X2: a message sent to the agent that [GetTargetFromH2Conn] finds for
    an open connection goes out on that very connection, after what it
    already carried, and on no other. *)
Theorem reply_goes_out_on_the_agents_connection ts net c got data t :
  NoDup (addrs ts) ->
  GetTargetFromH2Conn ts (Some c) = Ret (Some t) ->
  net !! c = Some got ->
  Send2Agent ts net data t = (<[c := (got ++ [data])%list]> net, None).
Proof.
  intros Hnd Hfound Hopen.
  apply GetTargetFromH2Conn_found in Hfound as (ctrl & Hin & Hconn).
  unfold Send2Agent. rewrite (lookup_target_In _ _ _ Hnd Hin), Hconn, Hopen. reflexivity.
Qed.

(** [efgh-agent] is found by its connection 9, and the message goes out
    there. *)
Lemma reply_goes_out_on_the_agents_connection_witness :
  Send2Agent ScenarioMore.two_targets ScenarioMore.net_open ScenarioMore.ping
    ScenarioMore.efgh_agent
  = (<[9%positive := [ScenarioMore.ping]]> ScenarioMore.net_open, None).
Proof.
  apply (reply_goes_out_on_the_agents_connection ScenarioMore.two_targets
           ScenarioMore.net_open 9%positive [] ScenarioMore.ping ScenarioMore.efgh_agent).
  - cbn. apply NoDup_cons_2; [|apply NoDup_singleton].
    rewrite list_elem_of_singleton. discriminate.
  - vm_compute; reflexivity.
  - vm_compute; reflexivity.
Defined.

(** An agent without a control interface, or whose control has no
    connection, is reported as not connected and nothing is written. *)
Lemma Send2Agent_not_connected ts net data agent :
  (lookup_target ts (Tunnel.agent_addr agent) = None \/
   exists ctrl, lookup_target ts (Tunnel.agent_addr agent) = Some ctrl /\ Conn ctrl = None) ->
  Send2Agent ts net data agent = (net, Some (NotConnected (Tunnel.Payload data))).
Proof.
  unfold Send2Agent. intros [-> | (ctrl & -> & ->)]; reflexivity.
Qed.

Lemma find_label_app a b tag :
  find_label (a ++ b) tag
  = match find_label a tag with Some x => Some x | None => find_label b tag end.
Proof.
  induction a as [|x a IH]; [reflexivity|].
  cbn [app find_label]. destruct (String.eqb tag (Tag x)); [reflexivity | exact IH].
Qed.

Lemma update_old_None old tag label :
  update_old old tag label = None <-> find_label old tag = None.
Proof.
  induction old as [|l old IH]; cbn [update_old find_label]; [tauto|].
  rewrite (String.eqb_sym tag). destruct (String.eqb (Tag l) tag); [split; discriminate|].
  destruct (update_old old tag label); split; intros H; try discriminate; try reflexivity.
  - apply IH in H. discriminate.
  - now apply IH.
Qed.

Lemma update_old_Some old tag label old' :
  update_old old tag label = Some old' ->
  find_label old' tag = Some label /\
  forall tag', tag' <> tag -> find_label old' tag' = find_label old tag'.
Proof.
  revert old'. induction old as [|l old IH]; intros old'; cbn [update_old]; [discriminate|].
  destruct (String.eqb (Tag l) tag) eqn:Heq.
  - apply String.eqb_eq in Heq. intros [= <-]. cbn [find_label Tag Label_of].
    rewrite Heq, String.eqb_refl. split; [reflexivity|].
    intros tag' Hne. apply String.eqb_neq in Hne. now rewrite Hne.
  - destruct (update_old old tag label) as [rest'|]; [|discriminate].
    intros [= <-]. destruct (IH rest' eq_refl) as [Hhere Hother].
    cbn [find_label]. rewrite (String.eqb_sym tag), Heq. split; [exact Hhere|].
    intros tag' Hne. destruct (String.eqb tag' (Tag l)); [reflexivity | now apply Hother].
Qed.

(** What the loop of [labelAgents] leaves in the two lists. *)
Lemma labelAgents_loop_spec ts :
  forall new old new' old',
    NoDup (tags ts) ->
    (forall tag, In tag (tags ts) -> find_label new tag = None) ->
    labelAgents_loop ts new old = Ret (new', old') ->
    (forall t c, In (t, Some c) ts -> Label c <> "" ->
       find_label (new' ++ old') (Tunnel.agent_Tag t) = Some (Label c)) /\
    (forall tag, ~ In tag (tags ts) ->
       find_label (new' ++ old') tag = find_label (new ++ old) tag).
Proof.
  induction ts as [|[t0 [c0|]] ts IH]; intros new old new' old' Hnd Hfresh;
    cbn [labelAgents_loop]; [| |discriminate].
  - intros [= <- <-]. split; [intros t c []|reflexivity].
  - cbn [tags map fst] in Hnd, Hfresh. apply NoDup_cons in Hnd as [Hnot Hnd].
    rewrite list_elem_of_In in Hnot.
    assert (Hfresh' : forall tag, In tag (tags ts) -> find_label new tag = None)
      by (intros tag Hin; apply Hfresh; now right).
    destruct (String.eqb (Label c0) "") eqn:Hlab.
    { intros Hloop. destruct (IH _ _ _ _ Hnd Hfresh' Hloop) as [Hin Hout]. split.
      - intros t c [[= -> ->] | Hin'] Hne; [|now apply Hin].
        apply String.eqb_eq in Hlab. contradiction.
      - intros tag Hnotin. apply Hout. intros Hx. apply Hnotin. now right. }
    destruct (update_old old (Tunnel.agent_Tag t0) (Label c0)) as [old1|] eqn:Hup.
    + intros Hloop. destruct (IH _ _ _ _ Hnd Hfresh' Hloop) as [Hin Hout].
      destruct (update_old_Some _ _ _ _ Hup) as [Hhere Hother]. split.
      * intros t c [[= -> ->] | Hin'] Hne; [|now apply Hin].
        rewrite (Hout _ Hnot), find_label_app, (Hfresh (Tunnel.agent_Tag t)) by now left.
        exact Hhere.
      * intros tag Hnotin.
        assert (tag <> Tunnel.agent_Tag t0) by (intros ->; apply Hnotin; now left).
        rewrite Hout by (intros Hx; apply Hnotin; now right).
        rewrite !find_label_app, Hother by assumption. reflexivity.
    + intros Hloop. apply update_old_None in Hup.
      assert (Hfresh1 : forall tag, In tag (tags ts) ->
                find_label (new ++ [{| Tag := Tunnel.agent_Tag t0; Label_of := Label c0 |}]) tag = None).
      { intros tag Hin. rewrite find_label_app, (Hfresh' _ Hin). cbn [find_label Tag].
        destruct (String.eqb tag (Tunnel.agent_Tag t0)) eqn:Heq; [|reflexivity].
        apply String.eqb_eq in Heq. subst tag. contradiction. }
      destruct (IH _ _ _ _ Hnd Hfresh1 Hloop) as [Hin Hout]. split.
      * intros t c [[= -> ->] | Hin'] Hne; [|now apply Hin].
        rewrite (Hout _ Hnot), !find_label_app, (Hfresh (Tunnel.agent_Tag t)) by now left.
        cbn [find_label Tag Label_of]. now rewrite String.eqb_refl.
      * intros tag Hnotin.
        assert (Hne : tag <> Tunnel.agent_Tag t0) by (intros ->; apply Hnotin; now left).
        rewrite Hout by (intros Hx; apply Hnotin; now right).
        rewrite !find_label_app. cbn [find_label Tag].
        apply String.eqb_neq in Hne. rewrite Hne.
        destruct (find_label new tag); reflexivity.
Qed.

(** The file [labelAgents] leaves records the label of every labelled
    target. *)
Lemma labelAgents_records ts old file' :
  NoDup (tags ts) ->
  labelAgents ts (Labels old) true = Ret file' ->
  forall t c, In (t, Some c) ts -> Label c <> "" ->
    exists l', file' = Labels l' /\ find_label l' (Tunnel.agent_Tag t) = Some (Label c).
Proof.
  intros Hnd. unfold labelAgents.
  destruct (labelAgents_loop ts [] old) as [[new' old']|] eqn:Hloop; [|discriminate].
  destruct (labelAgents_loop_spec ts [] old new' old' Hnd (fun _ _ => eq_refl) Hloop)
    as [Hin _].
  intros Hfile t c Ht Hne. specialize (Hin t c Ht Hne).
  destruct (Nat.eqb (length (new' ++ old')) 0) eqn:Hlen.
  - apply Nat.eqb_eq in Hlen. apply length_zero_iff_nil in Hlen.
    rewrite Hlen in Hin. discriminate Hin.
  - injection Hfile as <-. now exists (new' ++ old')%list.
Qed.

(** X3: labels survive a restart.  When the connected agents have distinct
    tags and the file can be written, [labelAgents] leaves a file from which
    [SetAgentLabel] reads back the label of every labelled agent; the label
    recorded for any tag that is not connected is what it was before. *)
Theorem labels_survive_restart ts old file' :
  NoDup (tags ts) ->
  labelAgents ts (Labels old) true = Ret file' ->
  (forall t c, In (t, Some c) ts -> Label c <> "" ->
     fst (SetAgentLabel ts file' t) = Label c) /\
  (forall tag l', ~ In tag (tags ts) -> file' = Labels l' ->
     find_label l' tag = find_label old tag).
Proof.
  intros Hnd Hfile. split.
  - intros t c Ht Hne.
    destruct (labelAgents_records ts old file' Hnd Hfile t c Ht Hne) as (l' & -> & Hl').
    unfold SetAgentLabel. now rewrite Hl'.
  - revert Hfile. unfold labelAgents.
    destruct (labelAgents_loop ts [] old) as [[new' old']|] eqn:Hloop; [|discriminate].
    destruct (labelAgents_loop_spec ts [] old new' old' Hnd (fun _ _ => eq_refl) Hloop)
      as [_ Hout].
    destruct (Nat.eqb (length (new' ++ old')) 0) eqn:Hlen.
    + intros [= <-] tag l' Hnotin [= <-]. reflexivity.
    + intros [= <-] tag l' Hnotin [= <-]. now apply Hout.
Qed.

(** The label [db] of [abcd-agent] is read back from the file written, and
    the record of the agent that is away is kept. *)
Lemma labels_survive_restart_witness :
  (forall t c, In (t, Some c) ScenarioMore.two_targets -> Label c <> "" ->
     fst (SetAgentLabel ScenarioMore.two_targets
            (Labels ({| Tag := "abcd-agent"; Label_of := "db" |} :: ScenarioMore.old_labels)) t)
     = Label c) /\
  (forall tag l', ~ In tag (tags ScenarioMore.two_targets) ->
     Labels ({| Tag := "abcd-agent"; Label_of := "db" |} :: ScenarioMore.old_labels) = Labels l' ->
     find_label l' tag = find_label ScenarioMore.old_labels tag).
Proof.
  apply (labels_survive_restart ScenarioMore.two_targets ScenarioMore.old_labels).
  - cbn. apply NoDup_cons_2; [|apply NoDup_singleton].
    rewrite list_elem_of_singleton. discriminate.
  - vm_compute; reflexivity.
Defined.

End RegistryFacts.

(** ** More on the message tunnel *)
Module TunnelMore.
Import Tunnel.

Lemma split_go_nonempty sep k s : GoStrings.split_go sep k s <> [].
Proof.
  revert k. induction s as [|c s IH]; intros k; cbn [GoStrings.split_go]; [discriminate|].
  destruct k; [|apply IH].
  destruct (String.prefix sep (String c s)); [discriminate|].
  destruct (GoStrings.split_go sep 0 s); discriminate.
Qed.

Lemma Split_MagicString_nonempty payload :
  exists op rest, GoStrings.Split payload Def.MagicString = op :: rest.
Proof.
  change (GoStrings.Split payload Def.MagicString)
    with (GoStrings.split_go Def.MagicString 0 payload).
  destruct (GoStrings.split_go Def.MagicString 0 payload) as [|op rest] eqn:H.
  - now apply split_go_nonempty in H.
  - now exists op, rest.
Qed.

Section WithHelpers.
Variable ParseCmd : string -> list string.
Variable time_Parse_ok : string -> bool.
Variable render_ps : string -> option string.
Variable render_ls : string -> option string.

Local Abbreviation processAgentData :=
  (processAgentData ParseCmd time_Parse_ok render_ps render_ls).

(** X4: an envelope is dropped in two cases.  From an agent that is not
    registered it leaves one error line in the log and changes nothing
    else; from a registered agent with an op other than [cmd] it changes
    nothing at all.  Neither panics. *)
Theorem envelope_dropped st data :
  (~ registered st (Tag data) ->
   processAgentData st data
   = (add_log st (LogError_target_not_found (Tag data)
                    (GoStrings.Split (Payload data) Def.MagicString)), Ret tt)) /\
  (registered st (Tag data) ->
   forall op rest,
     GoStrings.Split (Payload data) Def.MagicString = op :: rest -> op <> "cmd" ->
     processAgentData st data = (st, Ret tt)).
Proof.
  split.
  - intros Hnot. unfold Tunnel.processAgentData.
    destruct (Split_MagicString_nonempty (Payload data)) as (op & rest & Hs).
    rewrite Hs. unfold GoSlice.index. cbn [lookup list_lookup].
    destruct (GetTargetFromTag st (Tag data)) as [t|] eqn:Ht; [|reflexivity].
    destruct (targets_lookup (Targets st) (agent_addr t)) as [c|] eqn:Hc; [|reflexivity].
    exfalso. apply Hnot. now exists t, c.
  - intros Hreg op rest Hs Hop.
    now apply (TunnelFacts.unknown_op_dropped ParseCmd time_Parse_ok render_ps render_ls
                 st data op rest).
Qed.

(** The fields of a [cmd] payload. *)
Lemma cmd_payload_fields command outs cmd_id :
  GoStrings.clean_fields Def.MagicString (command :: outs ++ [cmd_id])%list ->
  GoStrings.Split
    (GoStrings.Join ("cmd" :: command :: outs ++ [cmd_id])%list Def.MagicString)
    Def.MagicString
  = ("cmd" :: command :: outs ++ [cmd_id])%list.
Proof.
  intros Hclean. apply GoStringsFacts.Split_Join_MagicString; [discriminate|].
  apply Forall_cons. split; [reflexivity | exact Hclean].
Qed.

(** The state in which [processAgentData] starts to display a reply. *)
Lemma cmd_payload_cached st tag command outs cmd_id t c :
  GetTargetFromTag st tag = Some t ->
  targets_lookup (Targets st) (agent_addr t) = Some c ->
  GoStrings.clean_fields Def.MagicString (command :: outs ++ [cmd_id])%list ->
  exists st1,
    CmdResults st1 = <[cmd_id := GoStrings.Join outs " "]> (CmdResults st) /\
    OutputPane st1 = OutputPane st /\ APIConn st1 = APIConn st /\
    IsAPIEnabled st1 = IsAPIEnabled st /\ DebugLevel st1 = DebugLevel st /\
    (exists l, log st1 = (log st ++ [l])%list) /\
    processAgentData st
      {| Payload := GoStrings.Join ("cmd" :: command :: outs ++ [cmd_id])%list Def.MagicString;
         Tag := tag |}
    = show_result render_ps render_ls st1 t c command (GoStrings.Join outs " ")
        (ParseCmd command).
Proof.
  intros Ht Hc Hclean.
  unfold Tunnel.processAgentData. cbn [Payload Tag].
  rewrite (cmd_payload_fields command outs cmd_id Hclean).
  assert (Hlast : ("cmd" :: command :: outs ++ [cmd_id])%list
                    !! (length ("cmd" :: command :: outs ++ [cmd_id])%list - 1)%nat
                  = Some cmd_id).
  { replace (length ("cmd" :: command :: outs ++ [cmd_id])%list - 1)%nat
      with (Nat.pred (length ("cmd" :: command :: outs ++ [cmd_id])%list)) by lia.
    rewrite <- last_lookup, !app_comm_cons. apply last_snoc. }
  unfold GoSlice.index. rewrite Hlast. cbn [lookup list_lookup]. rewrite Ht, Hc.
  cbn [String.eqb Ascii.eqb Bool.eqb negb].
  unfold GoSlice.slice.
  rewrite bool_decide_eq_true_2
    by (cbn [length]; rewrite length_app; cbn [length]; lia).
  replace (Z.to_nat (Z.of_nat (length ("cmd" :: command :: outs ++ [cmd_id])%list) - 1)
           - Z.to_nat 2)%nat with (length outs)
    by (cbn [length]; rewrite length_app; cbn [length]; lia).
  replace (Z.to_nat 2) with 2%nat by reflexivity.
  change (drop 2 ("cmd" :: command :: outs ++ [cmd_id])%list)
    with (outs ++ [cmd_id])%list.
  rewrite take_app_length.
  eexists. split; [|split; [|split; [|split; [|split; [|split; [|reflexivity]]]]]].
  - destruct (time_Parse_ok _); reflexivity.
  - destruct (time_Parse_ok _); reflexivity.
  - destruct (time_Parse_ok _); reflexivity.
  - destruct (time_Parse_ok _); reflexivity.
  - destruct (time_Parse_ok _); reflexivity.
  - destruct (time_Parse_ok _); eexists; reflexivity.
Qed.

(** X5: a [cmd] reply may carry its output in several fields.  Whatever
    lies between the command and the last field is joined with single
    spaces and cached under the last field; with nothing in between the
    empty text is cached. *)
Theorem output_fields_joined_with_spaces st tag command outs cmd_id :
  registered st tag ->
  GoStrings.clean_fields Def.MagicString (command :: outs ++ [cmd_id])%list ->
  CmdResults
    (fst (processAgentData st
            {| Payload := GoStrings.Join ("cmd" :: command :: outs ++ [cmd_id])%list
                                         Def.MagicString;
               Tag := tag |}))
  = <[cmd_id := GoStrings.Join outs " "]> (CmdResults st).
Proof.
  intros (t & c & Ht & Hc) Hclean.
  destruct (cmd_payload_cached st tag command outs cmd_id t c Ht Hc Hclean)
    as (st1 & Hres & _ & _ & _ & _ & _ & ->).
  now rewrite TunnelFacts.show_result_CmdResults.
Qed.

(** X6: a reply whose command line parses to no word at all makes the
    handler panic, and only such a reply does; by then its output is
    already in the result table. *)
Theorem reply_panics_iff_no_command_word st tag command outs cmd_id :
  registered st tag ->
  GoStrings.clean_fields Def.MagicString (command :: outs ++ [cmd_id])%list ->
  let r := processAgentData st
             {| Payload := GoStrings.Join ("cmd" :: command :: outs ++ [cmd_id])%list
                                          Def.MagicString;
                Tag := tag |} in
  (panicked (snd r) = true <-> ParseCmd command = []) /\
  CmdResults (fst r) !! cmd_id = Some (GoStrings.Join outs " ").
Proof.
  intros (t & c & Ht & Hc) Hclean r. subst r.
  destruct (cmd_payload_cached st tag command outs cmd_id t c Ht Hc Hclean)
    as (st1 & Hres & _ & _ & _ & _ & _ & ->).
  split.
  - unfold Tunnel.show_result, GoSlice.index.
    destruct (ParseCmd command) as [|c0 ws]; cbn [lookup list_lookup].
    + destruct (IsAPIEnabled st1); split; reflexivity.
    + split; [|discriminate].
      repeat match goal with
             | |- context [if ?b then _ else _] => destruct b
             | |- context [match ?o with Some _ => _ | None => _ end] => destruct o
             end; discriminate.
  - rewrite TunnelFacts.show_result_CmdResults, Hres. apply lookup_insert_eq.
Qed.

(** X7: the reply to [ps] or [ls] is rendered from JSON; when it does not
    decode, an error is logged and nothing is printed to the output pane,
    yet the raw reply is cached for whoever waits for it and the handler
    returns normally. *)
Theorem undecodable_listing_reported st tag command words output cmd_id :
  registered st tag ->
  GoStrings.clean_fields Def.MagicString [command; output; cmd_id] ->
  (ParseCmd command = "ps" :: words /\ render_ps output = None \/
   ParseCmd command = "ls" :: words /\ render_ls output = None) ->
  let r := processAgentData st
             {| Payload := GoStrings.Join ["cmd"; command; output; cmd_id] Def.MagicString;
                Tag := tag |} in
  snd r = Ret tt /\
  OutputPane (fst r) = OutputPane st /\
  CmdResults (fst r) !! cmd_id = Some output /\
  (last (log (fst r)) = Some (LogError_ps output) \/
   last (log (fst r)) = Some (LogError_ls output)).
Proof.
  intros (t & c & Ht & Hc) Hclean Hbad r. subst r.
  destruct (cmd_payload_cached st tag command [output] cmd_id t c Ht Hc Hclean)
    as (st1 & Hres & Hpane & _ & _ & _ & _ & Heq).
  cbn [app] in Heq. rewrite Heq. clear Heq.
  cbn [GoStrings.Join String.concat] in *.
  unfold Tunnel.show_result, GoSlice.index.
  destruct Hbad as [[-> Hr] | [-> Hr]]; cbn [lookup list_lookup];
    cbn [String.eqb Ascii.eqb Bool.eqb]; rewrite Hr;
    destruct (IsAPIEnabled st1); cbn [fst snd add_log add_api log OutputPane CmdResults];
    rewrite ?last_snoc, Hres, Hpane, lookup_insert_eq; auto.
Qed.

(** X8: whatever the envelope, [processAgentData] keeps the registry and
    the dispatch times as they are and never removes a cached result: the
    result table is left alone or gains one entry, under the last field of
    the payload. *)
Theorem result_table_only_grows st data :
  let st' := fst (processAgentData st data) in
  Targets st' = Targets st /\ CmdTime st' = CmdTime st /\
  (CmdResults st' = CmdResults st \/
   exists cmd_id out,
     last (GoStrings.Split (Payload data) Def.MagicString) = Some cmd_id /\
     CmdResults st' = <[cmd_id := out]> (CmdResults st)).
Proof.
  cbn zeta. unfold Tunnel.processAgentData, GoSlice.index.
  destruct (GoStrings.Split (Payload data) Def.MagicString !! 0) as [op|];
    [|repeat split; now left].
  destruct (GetTargetFromTag st (Tag data)) as [t|]; [|repeat split; now left].
  destruct (targets_lookup (Targets st) (agent_addr t)) as [c|]; [|repeat split; now left].
  destruct (negb (op =? "cmd")%string); [repeat split; now left|].
  destruct (GoStrings.Split (Payload data) Def.MagicString !! 1) as [cmd|];
    [|repeat split; now left].
  destruct (GoSlice.slice _ 2 _) as [outs|]; [|repeat split; now left].
  destruct (GoStrings.Split (Payload data) Def.MagicString
              !! (length (GoStrings.Split (Payload data) Def.MagicString) - 1)%nat)
    as [cmd_id|] eqn:Hlast; [|repeat split; now left].
  match goal with
  | |- context [Tunnel.show_result _ _ ?s ?a ?b ?x ?y ?z] =>
      pose proof (TunnelFacts.show_result_CmdResults render_ps render_ls s a b x y z) as Hres;
      assert (Hkeep : Targets (fst (Tunnel.show_result render_ps render_ls s a b x y z)) = Targets s /\
                      CmdTime (fst (Tunnel.show_result render_ps render_ls s a b x y z)) = CmdTime s)
  end.
  { unfold Tunnel.show_result, GoSlice.index.
    repeat match goal with
           | |- context [if ?b then _ else _] => destruct b
           | |- context [match ?o with Some _ => _ | None => _ end] => destruct o
           end; split; reflexivity. }
  destruct Hkeep as [HT HC]. rewrite HT, HC, Hres.
  split; [destruct (time_Parse_ok _); reflexivity|].
  split; [destruct (time_Parse_ok _); reflexivity|].
  right. exists cmd_id, (GoStrings.Join outs " "). split.
  - rewrite last_lookup, <- Hlast. f_equal. lia.
  - destruct (time_Parse_ok _); reflexivity.
Qed.

End WithHelpers.

Ltac clean_fields_tac :=
  repeat (apply List.Forall_cons; [vm_compute; reflexivity|]); apply List.Forall_nil.

(** A message of an agent that never checked in, and a [ping] of
    [abcd-agent]. *)
Lemma envelope_dropped_witness :
  processAgentData Scenario.words (fun _ => true) (fun _ => None) (fun _ => None)
    Scenario.cc_S1 {| Payload := "hello"; Tag := "zzzz-agent" |}
  = (add_log Scenario.cc_S1 (LogError_target_not_found "zzzz-agent" ["hello"]), Ret tt) /\
  processAgentData Scenario.words (fun _ => true) (fun _ => None) (fun _ => None)
    Scenario.cc_S1 {| Payload := "ping"; Tag := "abcd-agent" |}
  = (Scenario.cc_S1, Ret tt).
Proof.
  split.
  - apply (proj1 (envelope_dropped Scenario.words (fun _ => true) (fun _ => None)
                    (fun _ => None) Scenario.cc_S1
                    {| Payload := "hello"; Tag := "zzzz-agent" |})).
    intros (t & c & Ht & _). vm_compute in Ht. discriminate Ht.
  - apply (proj2 (envelope_dropped Scenario.words (fun _ => true) (fun _ => None)
                    (fun _ => None) Scenario.cc_S1
                    {| Payload := "ping"; Tag := "abcd-agent" |})
             TunnelFacts.S1_registered "ping" []); [reflexivity | discriminate].
Defined.

(** A reply to [echo hi there] that carries its output in two fields. *)
Lemma output_fields_joined_with_spaces_witness :
  CmdResults
    (fst (processAgentData Scenario.words (fun _ => true) (fun _ => None) (fun _ => None)
            Scenario.cc_S1
            {| Payload := GoStrings.Join ["cmd"; "echo hi there"; "hi"; "there"; "c1"]
                                         Def.MagicString;
               Tag := "abcd-agent" |}))
  = <[ "c1" := "hi there" ]> (CmdResults Scenario.cc_S1).
Proof.
  apply (output_fields_joined_with_spaces Scenario.words (fun _ => true) (fun _ => None)
           (fun _ => None) Scenario.cc_S1 "abcd-agent" "echo hi there" ["hi"; "there"] "c1"
           TunnelFacts.S1_registered).
  clean_fields_tac.
Defined.

(** A reply to the empty command line: the handler panics, with the output
    cached. *)
Lemma reply_panics_iff_no_command_word_witness :
  (panicked (snd (processAgentData Scenario.words (fun _ => true) (fun _ => None)
                    (fun _ => None) Scenario.cc_S1
                    {| Payload := GoStrings.Join ["cmd"; " "; "out"; "c1"] Def.MagicString;
                       Tag := "abcd-agent" |})) = true
   <-> Scenario.words " " = []) /\
  CmdResults (fst (processAgentData Scenario.words (fun _ => true) (fun _ => None)
                     (fun _ => None) Scenario.cc_S1
                     {| Payload := GoStrings.Join ["cmd"; " "; "out"; "c1"] Def.MagicString;
                        Tag := "abcd-agent" |})) !! "c1" = Some "out".
Proof.
  apply (reply_panics_iff_no_command_word Scenario.words (fun _ => true) (fun _ => None)
           (fun _ => None) Scenario.cc_S1 "abcd-agent" " " ["out"] "c1"
           TunnelFacts.S1_registered).
  clean_fields_tac.
Defined.

(** A reply to [ps] that is not JSON. *)
Lemma undecodable_listing_reported_witness :
  let r := processAgentData Scenario.words (fun _ => true) (fun _ => None) (fun _ => None)
             Scenario.cc_S1
             {| Payload := GoStrings.Join ["cmd"; "ps"; "not json"; "c2"] Def.MagicString;
                Tag := "abcd-agent" |} in
  snd r = Ret tt /\
  OutputPane (fst r) = OutputPane Scenario.cc_S1 /\
  CmdResults (fst r) !! "c2" = Some "not json" /\
  (last (log (fst r)) = Some (LogError_ps "not json") \/
   last (log (fst r)) = Some (LogError_ls "not json")).
Proof.
  apply (undecodable_listing_reported Scenario.words (fun _ => true) (fun _ => None)
           (fun _ => None) Scenario.cc_S1 "abcd-agent" "ps" [] "not json" "c2"
           TunnelFacts.S1_registered).
  - clean_fields_tac.
  - left. split; vm_compute; reflexivity.
Defined.

End TunnelMore.

(** ** More on the file-transfer front end *)
Module FtpMore.
Import Ftp.

Section WithPlatform.
Context `{P : Platform}.

Lemma StatFile_loop_first_reply e k res :
  tbl_at e k !! uuid e = Some res ->
  (forall j, j < k -> tbl_at e j !! uuid e = None) ->
  forall fuel k0, k0 <= k -> k < k0 + fuel ->
    StatFile_loop e (uuid e) fuel k0 = Some (k, res).
Proof.
  intros Hk Hbefore. induction fuel as [|fuel IH]; intros k0 Hle Hlt; [lia|].
  cbn [StatFile_loop].
  destruct (decide (k0 = k)) as [->|Hne].
  - now rewrite Hk.
  - rewrite Hbefore by lia. apply IH; lia.
Qed.

(** X9: [StatFile] returns as soon as the reply is there.  If the result
    table first holds the command's entry at wake-up [k], then any run
    longer than [k] wake-ups returns what that entry decodes to; the stat
    command is the one thing sent, and the entry has been deleted from the
    table on the way out, decodable or not. *)
Theorem StatFile_returns_at_first_reply e w p k res fuel :
  conn_up w = true ->
  tbl_at e k !! uuid e = Some res ->
  (forall j, j < k -> tbl_at e j !! uuid e = None) ->
  k < fuel ->
  exists w',
    StatFile e w p fuel
    = Some (w', match json_Unmarshal_FileStat res with
                | Some fi => inl fi
                | None => inr (ErrUnmarshal res)
                end) /\
    sent w' = (sent w ++ [(stat_cmd p, uuid e)])%list /\
    CmdResults w' = delete (uuid e) (tbl_at e k) /\
    CmdResults w' !! uuid e = None /\ fs w' = fs w.
Proof.
  intros Hconn Hk Hbefore Hfuel.
  unfold StatFile, SendCmd. rewrite Hconn.
  rewrite (StatFile_loop_first_reply e k res Hk Hbefore fuel 0) by lia.
  eexists. split; [destruct (json_Unmarshal_FileStat res); reflexivity|].
  cbn. repeat split. apply lookup_delete_eq.
Qed.


Lemma append_inj_l (a b c : string) : a ++ b = a ++ c -> b = c.
Proof.
  induction a as [|x a IH]; [trivial|].
  change (String x (a ++ b) = String x (a ++ c) -> b = c). intros [= H]. now apply IH.
Qed.

(** X11: the four paths of a download are pairwise distinct, for every
    requested path: the temp file and the lock file never collide with the
    final file, with the write directory or with each other. *)
Theorem download_paths_distinct p :
  let '(write_dir, save_to_file, tempname, lock) := GenerateGetFilePaths p in
  NoDup [write_dir; save_to_file; tempname; lock].
Proof.
  rewrite FtpFacts.paths_eq.
  assert (Htl : temp_path p <> lock_path p).
  { rewrite FtpFacts.temp_path_eq, FtpFacts.lock_path_eq. intros H.
    apply append_inj_l in H. discriminate. }
  pose proof (FtpFacts.temp_ne_save p). pose proof (FtpFacts.lock_ne_save p).
  pose proof (FtpFacts.temp_ne_dir p). pose proof (FtpFacts.lock_ne_dir p).
  pose proof (FtpFacts.save_ne_dir p).
  repeat (apply NoDup_cons; split;
          [rewrite ?elem_of_cons, elem_of_nil; intuition congruence|]).
  apply NoDup_nil_2.
Qed.

(** X12: [PutFile] announces what it staged.  For a regular local file and
    a connected agent with a control record it returns nil, the copy under
    the static-file root has the content of the local file, and the one
    command sent carries the size and the checksum of that content.  When
    there is no regular file at the local path it returns an error and sends
    nothing. *)
Theorem PutFile_announces_what_it_staged w idx lpath rpath :
  (forall content,
     fs w !! lpath = Some (File content) -> conn_up w = true ->
     exists w',
       FtpPut.PutFile w (Some idx) lpath rpath = (w', Ret None) /\
       fs w' !! (FtpPut.WWWRoot ++ FileBaseName lpath) = Some (File content) /\
       sent w' = (sent w ++
         [(FtpPut.put_cmd lpath rpath (SHA256SumRaw content)
             (Z.of_nat (length content)), "")])%list) /\
  ((forall content, fs w !! lpath <> Some (File content)) ->
   FtpPut.PutFile w (Some idx) lpath rpath
   = (w, Ret (Some (FtpPut.ErrCopy lpath (FtpPut.WWWRoot ++ FileBaseName lpath))))).
Proof.
  split.
  - intros content Hfile Hconn.
    unfold FtpPut.PutFile, FtpPut.Copy, SHA256SumFile, FileSize, SendCmd.
    rewrite Hfile. cbn [conn_up set_fs]. rewrite Hconn.
    eexists. split; [reflexivity|]. cbn. split; [apply lookup_insert_eq | reflexivity].
  - intros Hnone. unfold FtpPut.PutFile, FtpPut.Copy.
    destruct (fs w !! lpath) as [[|c]|]; try reflexivity.
    now destruct (Hnone c).
Qed.

End WithPlatform.

#[local] Existing Instance Scenario.workspace.

(** S2: the agent answers at the third wake-up. *)
Lemma StatFile_returns_at_first_reply_witness :
  exists w',
    StatFile Scenario.env_first Scenario.ws_fresh "/etc/hostname" 3
    = Some (w', inl {| Name := "hostname"; Size := 12; Checksum := Scenario.H |}) /\
    sent w' = [(stat_cmd "/etc/hostname", uuid Scenario.env_first)] /\
    CmdResults w' = delete (uuid Scenario.env_first) (tbl_at Scenario.env_first 2) /\
    CmdResults w' !! uuid Scenario.env_first = None /\ fs w' = fs Scenario.ws_fresh.
Proof.
  destruct (StatFile_returns_at_first_reply Scenario.env_first Scenario.ws_fresh
              "/etc/hostname" 2 Scenario.stat_text 3 eq_refl)
    as (w' & Hstat & Hrest).
  - vm_compute; reflexivity.
  - intros j Hj. destruct j as [|[|j]]; [vm_compute; reflexivity .. | lia].
  - lia.
  - exists w'. split; [|exact Hrest].
    rewrite Hstat. vm_compute; reflexivity.
Defined.


(** A tool of five bytes is put to the agent. *)
Lemma PutFile_announces_what_it_staged_witness :
  exists w',
    FtpPut.PutFile ScenarioMore.ws_tool (Some 0%Z) "/root/tool" "/tmp/tool" = (w', Ret None) /\
    fs w' !! "/tmp/emp3r0r/www/tool" = Some (File ScenarioMore.tool_bytes) /\
    sent w' = [("put --file '/root/tool' --path '/tmp/tool' --checksum "
                  ++ Scenario.checksum64 ScenarioMore.tool_bytes ++ " --size 5", "")].
Proof.
  destruct (proj1 (PutFile_announces_what_it_staged ScenarioMore.ws_tool 0%Z
                     "/root/tool" "/tmp/tool") ScenarioMore.tool_bytes)
    as (w' & Hput & Hfile & Hsent); [vm_compute; reflexivity | reflexivity |].
  exists w'. split; [exact Hput|]. split; [exact Hfile | exact Hsent].
Defined.

(** X13: the wait of [moduleMemDump] is bounded.  It never sleeps more
    than a hundred times (ten seconds); it fetches the path of the first
    reply it sees if that reply is not empty, and reports an empty response
    when the reply is empty. *)
Theorem moduleMemDump_wait_is_bounded tbl_at cmd_id pid :
  (snd (MemDump.moduleMemDump (Some pid) true tbl_at cmd_id) <= 100)%nat /\
  (forall i res,
     (i < 100)%nat -> tbl_at i !! cmd_id = Some res ->
     (forall j, (j < i)%nat -> tbl_at j !! cmd_id = None) ->
     MemDump.moduleMemDump (Some pid) true tbl_at cmd_id
     = (if String.eqb res "" then MemDump.EmptyResponse else MemDump.Fetch res, i)).
Proof.
  assert (Hbound : forall left i,
            (snd (MemDump.wait_loop tbl_at cmd_id left i) <= left + i)%nat).
  { induction left as [|left IH]; intros i; cbn [MemDump.wait_loop]; [cbn; lia|].
    destruct (tbl_at i !! cmd_id); [cbn; lia|].
    specialize (IH (S i)). lia. }
  split.
  - unfold MemDump.moduleMemDump. cbn [negb].
    specialize (Hbound 100%nat 0%nat).
    destruct (MemDump.wait_loop tbl_at cmd_id 100 0) as [cmd_res sleeps].
    cbn [snd] in Hbound. destruct (String.eqb cmd_res ""); cbn [snd]; lia.
  - intros i res Hi Hres Hbefore.
    assert (Hloop : forall left i0, (i0 <= i)%nat -> (i < i0 + left)%nat ->
              MemDump.wait_loop tbl_at cmd_id left i0 = (res, i)).
    { induction left as [|left IH]; intros i0 Hle Hlt; [lia|].
      cbn [MemDump.wait_loop]. destruct (decide (i0 = i)) as [->|Hne].
      - now rewrite Hres.
      - rewrite Hbefore by lia. apply IH; lia. }
    unfold MemDump.moduleMemDump. cbn [negb]. rewrite Hloop by lia.
    now destruct (String.eqb res "").
Qed.

(** The agent answers at the third look with the path of the dump. *)
Lemma moduleMemDump_wait_is_bounded_witness :
  MemDump.moduleMemDump (Some "4242") true ScenarioMore.dump_answers "cmd-7"
  = (MemDump.Fetch "/tmp/4242.dump", 2%nat).
Proof.
  apply (proj2 (moduleMemDump_wait_is_bounded ScenarioMore.dump_answers "cmd-7" "4242")
           2%nat "/tmp/4242.dump"); [lia | vm_compute; reflexivity |].
  intros j Hj. destruct j as [|[|j]]; [vm_compute; reflexivity .. | lia].
Defined.

End FtpMore.

(** ** Selecting and running a module *)
Module ModuleFacts.
Import Options ModuleCtl.

Local Abbreviation wf := well_formed.

Lemma wf_clear o : wf (clear_options o).
Proof.
  unfold well_formed, clear_options; cbn. repeat split; intros *; rewrite lookup_empty; discriminate.
Qed.

Lemma set_default_spec o key val :
  wf o ->
  exists o',
    set_default o key val = (o', Ret tt) /\ wf o' /\
    option_value o' key = Some val /\
    forall k, k <> key -> option_value o' k = option_value o k.
Proof.
  intros (Hnil & Hheap & Hinj).
  unfold set_default, addIfNotFound.
  destruct (CurrentModuleOptions o !! key) as [[p|]|] eqn:Hkey.
  - destruct (Hheap _ _ Hkey) as [x Hx].
    eexists. split; [reflexivity|]. split; [|split].
    + unfold well_formed, store_Val; cbn. split; [exact Hnil|]. split; [|exact Hinj].
      intros k q Hk. rewrite lookup_alter_is_Some. eauto.
    + unfold option_value, store_Val; cbn. rewrite Hkey; cbn.
      rewrite lookup_alter_eq, Hx. reflexivity.
    + intros k Hne. unfold option_value, store_Val; cbn.
      destruct (CurrentModuleOptions o !! k) as [[q|]|] eqn:Hk; cbn; try reflexivity.
      rewrite lookup_alter_ne; [reflexivity|].
      intros ->. apply Hne. eapply Hinj; eauto.
  - now destruct (Hnil key).
  - set (p := fresh (dom (heap o))).
    assert (Hfresh : heap o !! p = None).
    { apply not_elem_of_dom. apply is_fresh. }
    eexists. split; [reflexivity|]. split; [|split].
    + unfold well_formed, store_Val; cbn. split; [|split].
      * intros k. destruct (decide (k = key)) as [->|Hne].
        -- rewrite lookup_insert_eq. discriminate.
        -- rewrite lookup_insert_ne by congruence. apply Hnil.
      * intros k q. rewrite lookup_alter_is_Some.
        destruct (decide (k = key)) as [->|Hne].
        -- rewrite lookup_insert_eq. intros [= <-]. rewrite lookup_insert_eq. eauto.
        -- rewrite lookup_insert_ne by congruence. intros Hk.
           destruct (Hheap _ _ Hk) as [x Hx].
           destruct (decide (q = p)) as [->|Hq]; [congruence|].
           rewrite lookup_insert_ne by congruence. eauto.
      * intros k1 k2 q.
        destruct (decide (k1 = key)) as [->|H1], (decide (k2 = key)) as [->|H2];
          rewrite ?lookup_insert_eq, ?lookup_insert_ne by congruence; try congruence.
        -- intros [= <-] Hk. destruct (Hheap _ _ Hk) as [x Hx]. congruence.
        -- intros Hk [= <-]. destruct (Hheap _ _ Hk) as [x Hx]. congruence.
        -- apply Hinj.
    + unfold option_value, store_Val; cbn. rewrite lookup_insert_eq; cbn.
      rewrite lookup_alter_eq, lookup_insert_eq. reflexivity.
    + intros k Hne. unfold option_value, store_Val; cbn.
      rewrite lookup_insert_ne by congruence.
      destruct (CurrentModuleOptions o !! k) as [[q|]|] eqn:Hk; cbn; try reflexivity.
      destruct (Hheap _ _ Hk) as [x Hx].
      assert (q <> p) by congruence.
      rewrite lookup_alter_ne, lookup_insert_ne by congruence. reflexivity.
Qed.

Lemma load_defaults_spec opts :
  forall o,
    wf o -> NoDup (map fst opts) -> Forall (fun kv => is_Some (snd kv)) opts ->
    exists o',
      load_defaults o opts = (o', Ret tt) /\ wf o' /\
      (forall name opt, In (name, Some opt) opts -> option_value o' name = Some (OptVal opt)) /\
      (forall name, ~ In name (map fst opts) -> option_value o' name = option_value o name).
Proof.
  induction opts as [|[n [opt|]] rest IH]; intros o Hwf Hnd Hall.
  - exists o. split; [reflexivity|]. split; [exact Hwf|]. split; [intros ? ? []|reflexivity].
  - cbn [map fst] in Hnd. apply NoDup_cons in Hnd as [Hn Hnd].
    rewrite list_elem_of_In in Hn.
    apply Forall_cons in Hall as [_ Hall].
    destruct (set_default_spec o n (OptVal opt) Hwf) as (o1 & Hset & Hwf1 & Hval & Hframe).
    destruct (IH o1 Hwf1 Hnd Hall) as (o' & Hload & Hwf' & Hin & Hout).
    exists o'. cbn [load_defaults]. rewrite Hset. split; [exact Hload|].
    split; [exact Hwf'|]. split.
    + intros name opt' [[= -> ->] | Hin']; [|now apply Hin].
      now rewrite (Hout _ Hn).
    + intros name Hnot. cbn [map fst In] in Hnot.
      rewrite Hout by tauto. apply Hframe. intros ->. tauto.
  - apply Forall_cons in Hall as [[x Hx] _]. discriminate Hx.
Qed.

Section WithModules.
Variable Modules : gmap string ModuleConfig.
Variable ModuleHelpers : list string.
Variable ModGenAgent : string.
Variable gen_agent_options : Options.state -> Options.state * outcome unit.
Variable strings_ToLower : string -> string.

Local Abbreviation setActiveModule :=
  (setActiveModule Modules ModuleHelpers ModGenAgent gen_agent_options strings_ToLower).
Local Abbreviation ModuleRun := (ModuleRun Modules ModuleHelpers strings_ToLower).

Lemma existsb_eqb_In (m : string) (l : list string) :
  existsb (String.eqb m) l = true <-> In m l.
Proof.
  rewrite existsb_exists. split.
  - intros (x & Hin & Heq). apply String.eqb_eq in Heq. now subst.
  - intros Hin. exists m. split; [exact Hin | apply String.eqb_refl].
Qed.

Local Abbreviation configured cfg name :=
  (match list_find (fun kv => fst kv = name) (ModOptions cfg) with
   | Some (_, (_, Some opt)) => Some (OptVal opt)
   | _ => None
   end).

(** What [setActiveModule] leaves for a module with a helper. *)
Lemma setActiveModule_spec st modName cfg :
  In modName ModuleHelpers -> modName <> ModGenAgent ->
  Modules !! modName = Some cfg ->
  NoDup (map fst (ModOptions cfg)) ->
  Forall (fun kv => is_Some (snd kv)) (ModOptions cfg) ->
  exists st',
    setActiveModule st modName = (st', Ret tt) /\
    CurrentMod st' = modName /\ wf (options st') /\
    (forall name,
       option_value (options st') name =
       if negb (String.eqb (strings_ToLower (Exec cfg)) "built-in")
          && String.eqb name "download_addr"
       then Some ""
       else configured cfg name).
Proof.
  intros Hin Hne Hmod Hnd Hall.
  unfold ModuleCtl.setActiveModule, ModuleCtl.UpdateOptions.
  apply existsb_eqb_In in Hin. rewrite Hin. cbn [negb options].
  apply String.eqb_neq in Hne. rewrite Hne, Hmod.
  destruct (load_defaults_spec (ModOptions cfg) (clear_options (options st))
              (wf_clear _) Hnd Hall) as (o1 & Hload & Hwf1 & Hval & Hout).
  rewrite Hload.
  assert (Hfind : forall name, option_value o1 name = configured cfg name).
  { intros name.
    destruct (list_find (fun kv => fst kv = name) (ModOptions cfg))
      as [[i [n o]]|] eqn:Hf.
    - apply list_find_Some in Hf as (Hi & Hn & _). cbn in Hn. subst n.
      apply list_elem_of_lookup_2 in Hi.
      destruct o as [opt|].
      + apply Hval. now apply list_elem_of_In.
      + rewrite Forall_forall in Hall. destruct (Hall _ Hi) as [x Hx]. discriminate Hx.
    - rewrite Hout.
      + unfold option_value, clear_options; cbn. now rewrite lookup_empty.
      + intros Hx. apply in_map_iff in Hx as ([n o] & Hn & Hx). cbn in Hn. subst n.
        apply list_elem_of_In in Hx.
        rewrite list_find_None, List.Forall_forall in Hf.
        apply (Hf (name, o)); [now apply list_elem_of_In | reflexivity]. }
  destruct (String.eqb (strings_ToLower (Exec cfg)) "built-in") eqn:Hexec; cbn [negb andb].
  - eexists. split; [reflexivity|]. split; [reflexivity|]. split; [exact Hwf1 | exact Hfind].
  - destruct (set_default_spec o1 "download_addr" "" Hwf1)
      as (o2 & Hset & Hwf2 & Hdl & Hframe).
    rewrite Hset. eexists. split; [reflexivity|]. split; [reflexivity|].
    split; [exact Hwf2|].
    intros name. cbn [options print with_options].
    destruct (String.eqb name "download_addr") eqn:Hname.
    + apply String.eqb_eq in Hname. now subst.
    + apply String.eqb_neq in Hname. rewrite (Hframe _ Hname). apply Hfind.
Qed.

(** X14: selecting a module replaces the options wholesale.  For a module
    with a helper (other than the agent generator) whose configured options
    are all non-nil, [setActiveModule] makes it the current module and
    leaves exactly its options, each at its default value, plus an empty
    [download_addr] when the module is not built in; nothing of what was
    set for the module selected before is left. *)
Theorem setActiveModule_loads_defaults st modName cfg :
  In modName ModuleHelpers -> modName <> ModGenAgent ->
  Modules !! modName = Some cfg ->
  NoDup (map fst (ModOptions cfg)) ->
  Forall (fun kv => is_Some (snd kv)) (ModOptions cfg) ->
  exists st',
    setActiveModule st modName = (st', Ret tt) /\
    CurrentMod st' = modName /\
    (forall name,
       option_value (options st') name =
       if negb (String.eqb (strings_ToLower (Exec cfg)) "built-in")
          && String.eqb name "download_addr"
       then Some ""
       else match list_find (fun kv => fst kv = name) (ModOptions cfg) with
            | Some (_, (_, Some opt)) => Some (OptVal opt)
            | _ => None
            end).
Proof.
  intros Hin Hne Hmod Hnd Hall.
  destruct (setActiveModule_spec st modName cfg Hin Hne Hmod Hnd Hall)
    as (st' & Hset & Hcur & _ & Hval).
  exists st'. split; [exact Hset|]. split; [exact Hcur | exact Hval].
Qed.

(** X16: [set] after [use].  Once a module is selected, [setOptValCmd] with
    one of its options and a non-empty value makes the option read that
    value and leaves every other option as it is; with an empty value it
    changes no option and prints the usage, so no option can be set to the
    empty text. *)
Theorem set_after_use_changes_one_option st modName cfg name val :
  In modName ModuleHelpers -> modName <> ModGenAgent ->
  Modules !! modName = Some cfg ->
  NoDup (map fst (ModOptions cfg)) ->
  Forall (fun kv => is_Some (snd kv)) (ModOptions cfg) ->
  In name (map fst (ModOptions cfg)) -> name <> "" ->
  exists st1,
    setActiveModule st modName = (st1, Ret tt) /\
    (val <> "" ->
     exists st2,
       setOptValCmd st1 name val = (st2, Ret tt) /\
       option_value (options st2) name = Some val /\
       forall other, other <> name ->
         option_value (options st2) other = option_value (options st1) other) /\
    setOptValCmd st1 name "" = (print st1 Error_usage, Ret tt).
Proof.
  intros Hin Hne Hmod Hnd Hall Hname Hnonempty.
  destruct (setActiveModule_spec st modName cfg Hin Hne Hmod Hnd Hall)
    as (st1 & Hset & _ & Hwf & Hval).
  exists st1. split; [exact Hset|]. split.
  - intros Hv. unfold setOptValCmd, SetOption.
    apply String.eqb_neq in Hnonempty, Hv. rewrite Hnonempty, Hv. cbn [orb].
    assert (Hsome : is_Some (option_value (options st1) name)).
    { rewrite Hval.
      destruct (negb _ && String.eqb name "download_addr"); [eauto|].
      destruct (list_find (fun kv => fst kv = name) (ModOptions cfg))
        as [[i [n o]]|] eqn:Hf.
      - apply list_find_Some in Hf as (Hi & _).
        apply list_elem_of_lookup_2 in Hi.
        rewrite Forall_forall in Hall. destruct (Hall _ Hi) as [x Hx].
        cbn in Hx. subst o. eauto.
      - exfalso. apply in_map_iff in Hname as ([n o] & Hn & Hx). cbn in Hn. subst n.
        rewrite list_find_None, List.Forall_forall in Hf.
        apply (Hf (name, o)); [exact Hx | reflexivity]. }
    destruct Hwf as (Hnil & Hheap & Hinj).
    unfold option_value in Hsome.
    destruct (CurrentModuleOptions (options st1) !! name) as [[p|]|] eqn:Hp; cbn in *;
      try (destruct Hsome as [x Hx]; discriminate Hx).
    destruct (Hheap _ _ Hp) as [x Hx].
    eexists. split; [reflexivity|]. split.
    + unfold option_value, store_Val; cbn. rewrite Hp; cbn.
      rewrite lookup_alter_eq, Hx. reflexivity.
    + intros other Hother. unfold option_value, store_Val; cbn.
      destruct (CurrentModuleOptions (options st1) !! other) as [[q|]|] eqn:Hq; cbn;
        try reflexivity.
      rewrite lookup_alter_ne; [reflexivity|].
      intros ->. apply Hother. eapply Hinj; eauto.
  - unfold setOptValCmd. rewrite orb_true_r. reflexivity.
Qed.

(** X15: [ModuleRun] starts the helper of the current module exactly when
    the module is configured and has a helper and, with no target selected,
    the module is local, or else the selected target is registered and the
    lower-cased platform of the module is [generic] or equal to the
    target's GOOS as it stands. *)
Theorem ModuleRun_starts_iff m tgt registered :
  ModuleRun m tgt registered = Started m <->
  exists modObj,
    Modules !! m = Some modObj /\ In m ModuleHelpers /\
    match tgt with
    | None => IsLocal modObj = true
    | Some t =>
        registered (target_addr t) = true /\
        (strings_ToLower (Platform modObj) = "generic" \/
         GOOS t = strings_ToLower (Platform modObj))
    end.
Proof.
  unfold ModuleCtl.ModuleRun. setoid_rewrite <- existsb_eqb_In.
  destruct (Modules !! m) as [modObj|]; [|split; [discriminate | intros (? & [=] & _)]].
  split.
  - intros H. exists modObj. split; [reflexivity|].
    destruct tgt as [t|].
    + destruct (String.eqb (strings_ToLower (Platform modObj)) "generic") eqn:Hg;
        destruct (String.eqb (GOOS t) (strings_ToLower (Platform modObj))) eqn:Hos;
        cbn [negb andb] in H; try discriminate H;
        destruct (registered (target_addr t)); cbn [negb] in H; try discriminate H;
        destruct (existsb (String.eqb m) ModuleHelpers); try discriminate H;
        (split; [reflexivity|]); (split; [reflexivity|]);
        rewrite ?String.eqb_eq in *; tauto.
    + destruct (IsLocal modObj); cbn [negb] in H; [|discriminate H].
      destruct (existsb (String.eqb m) ModuleHelpers); [|discriminate H]. tauto.
  - intros (modObj' & [= <-] & Hhelp & Hguard). rewrite Hhelp.
    destruct tgt as [t|].
    + destruct Hguard as [-> Hos]. cbn [negb].
      destruct Hos as [Hos | Hos]; apply String.eqb_eq in Hos; rewrite Hos;
        cbn [negb andb]; rewrite ?andb_false_r; reflexivity.
    + rewrite Hguard. reflexivity.
Qed.

End WithModules.

Ltac module_hyps :=
  lazymatch goal with
  | |- In _ _ => cbn; tauto
  | |- _ <> _ => discriminate
  | |- _ !! _ = _ => vm_compute; reflexivity
  | |- NoDup _ =>
      cbn; repeat (apply NoDup_cons_2;
                   [rewrite ?elem_of_cons, elem_of_nil; intuition discriminate|]);
      apply NoDup_nil_2
  | |- Forall _ _ => repeat (apply List.Forall_cons; [cbn; eauto|]); apply List.Forall_nil
  end.

(** With [cmd_exec] selected, [use file_server]: [cmd_to_exec] is gone and
    [port] reads its default. *)
Lemma setActiveModule_loads_defaults_witness :
  exists st',
    ModuleCtl.setActiveModule ScenarioMore.modules ScenarioMore.helpers "gen_agent"
      ScenarioMore.gen_agent_untouched ToLower ScenarioMore.cmd_exec_selected "file_server"
    = (st', Ret tt) /\
    option_value (options st') "cmd_to_exec" = None /\
    option_value (options st') "port" = Some "8000".
Proof.
  destruct (setActiveModule_loads_defaults ScenarioMore.modules ScenarioMore.helpers
              "gen_agent" ScenarioMore.gen_agent_untouched ToLower
              ScenarioMore.cmd_exec_selected "file_server" ScenarioMore.file_server_cfg)
    as (st' & Hset & _ & Hval); [module_hyps ..|].
  exists st'. split; [exact Hset|].
  split; rewrite Hval; vm_compute; reflexivity.
Defined.

(** [use file_server] and then [set port 9000]. *)
Lemma set_after_use_changes_one_option_witness :
  exists st1 st2,
    ModuleCtl.setActiveModule ScenarioMore.modules ScenarioMore.helpers "gen_agent"
      ScenarioMore.gen_agent_untouched ToLower ScenarioMore.cmd_exec_selected "file_server"
    = (st1, Ret tt) /\
    setOptValCmd st1 "port" "9000" = (st2, Ret tt) /\
    option_value (options st2) "port" = Some "9000" /\
    option_value (options st2) "switch" = option_value (options st1) "switch".
Proof.
  destruct (set_after_use_changes_one_option ScenarioMore.modules ScenarioMore.helpers
              "gen_agent" ScenarioMore.gen_agent_untouched ToLower
              ScenarioMore.cmd_exec_selected "file_server" ScenarioMore.file_server_cfg
              "port" "9000")
    as (st1 & Hset & Hok & _); [module_hyps ..|].
  destruct (Hok ltac:(discriminate)) as (st2 & Hcmd & Hport & Hother).
  exists st1, st2. split; [exact Hset|]. split; [exact Hcmd|]. split; [exact Hport|].
  apply Hother. discriminate.
Defined.

End ModuleFacts.

(** ** The two revisions of the operator long poll *)
Module OperatorMore.
Import Operator.

Lemma returned_absorbs ctx_returns evs h :
  returned h = true -> run ctx_returns h evs = h.
Proof.
  intros Hret. induction evs as [|ev evs IH]; [reflexivity|].
  cbn [run fold_left]. unfold step at 2. rewrite Hret. exact IH.
Qed.

Lemma early_revision_step ev h :
  ticking h ->
  let h' := step false h ev in
  ticking h' /\ OPERATORS h' = OPERATORS h /\
  operator_session h' = operator_session h /\
  log h' = (log h ++ match ev with ctx_Done => [LogWarning_exited] | _ => [] end)%list.
Proof.
  intros Ht. destruct ev; cbn zeta.
  - rewrite (OperatorFacts.tick_rearms false h Ht).
    destruct Ht as (Hret & Hconn & _). cbn. rewrite app_nil_r. repeat split; assumption.
  - destruct (OperatorFacts.heartbeat_ticking false h Ht) as (Ht' & Hops & Hsess & Hlog).
    rewrite app_nil_r. repeat split; try assumption; apply Ht'.
  - destruct Ht as (Hret & Hconn & Htm). unfold step. rewrite Hret. cbn.
    repeat split; assumption.
Qed.

(** X17: the end of the request context.  In the later revision of
    [handleOperatorConn] it makes the handler return: the session is removed
    from [OPERATORS], the connection closed and the context cancelled, and
    nothing that arrives afterwards changes anything.  In the earlier
    revision the case only logs: whatever arrives, in whatever order, the
    handler keeps looping with the session still in [OPERATORS] and the
    connection open, and the log gains one warning for each time the case
    is taken. *)
Theorem context_end_returns_only_in_later_revision h :
  ticking h ->
  (let h' := step true h ctx_Done in
   OPERATORS h' = delete (operator_session h) (OPERATORS h) /\
   conn_closed h' = true /\ cancelled h' = true /\ returned h' = true /\
   forall evs, run true h' evs = h') /\
  (forall evs,
     let h' := run false h evs in
     ticking h' /\ OPERATORS h' = OPERATORS h /\
     log h' = (log h ++ repeat LogWarning_exited
                 (length (List.filter
                            (fun ev => match ev with ctx_Done => true | _ => false end)
                            evs)))%list).
Proof.
  intros Ht. split.
  - cbn zeta. destruct Ht as (Hret & _). unfold step. rewrite Hret.
    repeat split. intros evs. now apply returned_absorbs.
  - intros evs. revert h Ht. induction evs as [|ev evs IH]; intros h Ht; cbn zeta.
    + cbn. rewrite app_nil_r. repeat split; apply Ht.
    + cbn [run fold_left].
      destruct (early_revision_step ev h Ht) as (Ht1 & Hops1 & _ & Hlog1).
      destruct (IH _ Ht1) as (Ht' & Hops & Hlog).
      unfold run in *. split; [exact Ht'|]. split; [congruence|].
      rewrite Hlog, Hlog1, <- app_assoc. f_equal.
      destruct ev; reflexivity.
Qed.

(** S5 with the request context ended twice over: the later revision
    detaches [operator-1], the earlier keeps it. *)
Lemma context_end_returns_only_in_later_revision_witness :
  OPERATORS (step true Scenario.operator_S5 ctx_Done) !! "operator-1" = None /\
  is_Some (OPERATORS (run false Scenario.operator_S5 [ctx_Done; heartbeatTicker_C; ctx_Done])
             !! "operator-1").
Proof.
  destruct (context_end_returns_only_in_later_revision Scenario.operator_S5
              (OperatorFacts.enter_ticking ∅ "operator-1" 1)) as [Hlater Hearly].
  split.
  - destruct Hlater as (-> & _). apply lookup_delete_eq.
  - destruct (Hearly [ctx_Done; heartbeatTicker_C; ctx_Done]) as (_ & -> & _).
    vm_compute. eauto.
Defined.

End OperatorMore.

(** ** Digging the embedded configuration *)
Module DigFacts.
Import GoStrings GoStringsFacts Dig.

Lemma but_last_snoc (s : string) :
  s <> "" ->
  exists l, s = but_last s ++ String l "" /\
            String.length s = S (String.length (but_last s)).
Proof.
  induction s as [|c s IH]; [contradiction|]. intros _.
  destruct s as [|d s].
  - exists c. split; reflexivity.
  - destruct IH as (l & Heq & Hlen); [discriminate|].
    exists l. split.
    + change (but_last (String c (String d s))) with (String c (but_last (String d s))).
      change (String c (String d s) = String c (but_last (String d s) ++ String l "")).
      now rewrite <- Heq.
    + change (but_last (String c (String d s))) with (String c (but_last (String d s))).
      cbn [String.length] in *. lia.
Qed.

(** A separator that does not begin inside [x ++ but_last sep] does not
    begin inside [x] in [x ++ sep ++ rest] either. *)
Lemma no_match_before (sep x rest : string) :
  sep <> "" -> x <> "" ->
  String.prefix sep (x ++ but_last sep) = false ->
  String.prefix sep (x ++ sep ++ rest) = false.
Proof.
  intros Hsep Hx Hno.
  destruct (String.prefix sep (x ++ sep ++ rest)) eqn:Hp; [|reflexivity].
  destruct (but_last_snoc sep Hsep) as (l & Heq & Hlen).
  rewrite Heq in Hp at 2. rewrite FtpFacts.append_assoc, <- (FtpFacts.append_assoc x) in Hp.
  apply prefix_append_short in Hp; [congruence|].
  rewrite length_append, Hlen. destruct x; [contradiction|]. cbn [String.length]. lia.
Qed.

(** The field before the first occurrence of a separator, bordered or
    not. *)
Lemma split_go_first (sep f rest : string) :
  sep <> "" ->
  Contains (f ++ but_last sep) sep = false ->
  split_go sep 0 (f ++ sep ++ rest) = f :: split_go sep 0 rest.
Proof.
  intros Hsep. induction f as [|a f IH]; intros Hc.
  - destruct sep as [|c m']; [contradiction|].
    change ("" ++ String c m' ++ rest) with (String c (m' ++ rest)).
    cbn [split_go].
    change (String c (m' ++ rest)) with (String c m' ++ rest).
    rewrite prefix_append. f_equal.
    replace (String.length (String c m') - 1) with (String.length m')
      by (cbn [String.length]; lia).
    apply split_go_skip_sep.
  - change (String a f ++ but_last sep) with (String a (f ++ but_last sep)) in Hc.
    pose proof (Contains_prefix _ _ Hc) as Hp.
    apply Contains_cons in Hc as [_ Hc].
    apply (no_match_before sep (String a f) rest Hsep) in Hp; [|discriminate].
    change (String a f ++ sep ++ rest) with (String a (f ++ sep ++ rest)) in *.
    cbn [split_go]. rewrite Hp, (IH Hc). reflexivity.
Qed.

Lemma Contains_two_fields (sep s : string) :
  sep <> "" -> Contains s sep = true -> 2 <= length (split_go sep 0 s).
Proof.
  intros Hsep. induction s as [|c s IH]; intros Hc.
  - destruct sep; [contradiction | discriminate Hc].
  - cbn [Contains] in Hc. cbn [split_go].
    destruct (String.prefix sep (String c s)) eqn:Hp.
    + cbn [length].
      pose proof (TunnelMore.split_go_nonempty sep (String.length sep - 1) s) as Hne.
      destruct (split_go sep (String.length sep - 1) s); [contradiction | cbn [length]; lia].
    + cbn [orb] in Hc. specialize (IH Hc).
      destruct (split_go sep 0 s); cbn [length] in *; lia.
Qed.

Section WithDecrypt.
Variable AES_GCM_Decrypt : string -> string -> string * option string.

Local Abbreviation DigEmbeddedData := (DigEmbeddedData AES_GCM_Decrypt).
Local Abbreviation VerifyConfigData := (VerifyConfigData AES_GCM_Decrypt).

(** X18: [DigEmbeddedData] never panics on [split[1]], and its error
    "cannot locate embeded data" is never returned: a buffer that contains
    the doubled magic string always splits into two fields or more. *)
Theorem DigEmbeddedData_second_check_is_dead data :
  (exists r, DigEmbeddedData data = Ret r) /\
  (forall r n, DigEmbeddedData data = Ret r -> snd r <> Some (ErrCannotLocateEmbedded n)) /\
  (Contains data (Repeat Def.MagicString 2) = true ->
   2 <= length (Split data (Repeat Def.MagicString 2))).
Proof.
  assert (Hsep : Repeat Def.MagicString 2 <> "") by discriminate.
  assert (Htwo : Contains data (Repeat Def.MagicString 2) = true ->
                 2 <= length (Split data (Repeat Def.MagicString 2))).
  { intros Hc. now apply Contains_two_fields. }
  unfold Dig.DigEmbeddedData, Dig.VerifyConfigData.
  destruct (Contains data (Repeat Def.MagicString 2)) eqn:Hc; cbn [negb].
  - specialize (Htwo eq_refl).
    destruct (Split data (Repeat Def.MagicString 2)) as [|f0 [|f1 fs]] eqn:Hs;
      cbn [length] in Htwo; try lia.
    replace (length (f0 :: f1 :: fs) <? 2)%nat with false
      by (symmetry; apply Nat.ltb_ge; cbn [length]; lia).
    unfold GoSlice.index. cbn [lookup list_lookup].
    split; [|split; [|intros _; cbn [length]; lia]].
    + destruct (String.length f1 <=? 0)%nat; [eauto|].
      destruct (AES_GCM_Decrypt Def.MagicString f1) as [j [e|]]; eauto.
    + intros r n.
      destruct (String.length f1 <=? 0)%nat; [intros [= <-]; discriminate|].
      destruct (AES_GCM_Decrypt Def.MagicString f1) as [j [e|]];
        intros [= <-]; discriminate.
  - split; [eauto|]. split; [|discriminate].
    intros r n [= <-]. discriminate.
Qed.

(** X19: what is embedded is what is dug up.  If the doubled magic string
    does not begin inside the stub, nor inside the non-empty data that
    follows it, then [DigEmbeddedData] hands the data between the first two
    separators to [VerifyConfigData] and returns its plain text, or its
    error wrapped; what follows the second separator does not matter. *)
Theorem DigEmbeddedData_finds_what_was_embedded stub payload rest :
  let sep := Repeat Def.MagicString 2 in
  Contains (stub ++ but_last sep) sep = false ->
  Contains (payload ++ but_last sep) sep = false ->
  payload <> "" ->
  DigEmbeddedData (stub ++ sep ++ payload ++ sep ++ rest)
  = Ret (match VerifyConfigData payload with
         | (plain, Some err) => (plain, Some (ErrVerify err))
         | (plain, None) => (plain, None)
         end).
Proof.
  intros sep Hstub Hpayload Hne.
  assert (Hsep : sep <> "") by discriminate.
  assert (Hsplit : Split (stub ++ sep ++ payload ++ sep ++ rest) sep
                   = stub :: payload :: split_go sep 0 rest).
  { change (Split ?s sep) with (split_go sep 0 s).
    rewrite (split_go_first sep stub _ Hsep Hstub).
    now rewrite (split_go_first sep payload _ Hsep Hpayload). }
  assert (Hc : Contains (stub ++ sep ++ payload ++ sep ++ rest) sep = true).
  { destruct (Contains (stub ++ sep ++ payload ++ sep ++ rest) sep) eqn:Hc; [reflexivity|].
    apply (split_go_last sep) in Hc.
    change (Split ?s sep) with (split_go sep 0 s) in Hsplit. congruence. }
  unfold Dig.DigEmbeddedData. fold sep. rewrite Hc, Hsplit. cbn [negb].
  replace (length (stub :: payload :: split_go sep 0 rest) <? 2)%nat with false
    by (symmetry; apply Nat.ltb_ge; cbn [length]; lia).
  unfold GoSlice.index. cbn [lookup list_lookup].
  replace (String.length payload <=? 0)%nat with false
    by (symmetry; apply Nat.leb_gt; destruct payload; [contradiction | cbn; lia]).
  destruct (Dig.VerifyConfigData AES_GCM_Decrypt payload) as [plain [err|]]; reflexivity.
Qed.

End WithDecrypt.

(** A binary whose stub holds the magic string once: the sealed
    configuration is found. *)
Lemma DigEmbeddedData_finds_what_was_embedded_witness :
  DigEmbeddedData ScenarioMore.unseal ScenarioMore.binary
  = Ret (Def.MagicString ++ ":sealed-config", None).
Proof.
  unfold ScenarioMore.binary.
  rewrite (DigEmbeddedData_finds_what_was_embedded ScenarioMore.unseal
             ScenarioMore.stub ScenarioMore.sealed_config "padding");
    [reflexivity | vm_compute; reflexivity .. | discriminate].
Defined.

End DigFacts.

(** ** The Logger *)
Module LoggingFacts.
Import Logging.

Section WithColor.
Variable color_Sprintf : list attribute -> string -> string.

Local Abbreviation call := (call color_Sprintf).
Local Abbreviation step := (step color_Sprintf).
Local Abbreviation run := (run color_Sprintf).
Local Abbreviation queued_at_2 := (queued_at_2 color_Sprintf).

Lemma helper_Some l text c l' :
  helper color_Sprintf l text c = Some l' ->
  Level l' = Level l /\ writer l' = writer l /\ listening l' = listening l /\
  logChan l' = (logChan l ++ [match c with
                              | Some c => color_Sprintf c text
                              | None => text
                              end])%list /\
  (length (logChan l') <= capacity)%nat.
Proof.
  unfold helper. destruct (length (logChan l) <? capacity)%nat eqn:Hcap; [|discriminate].
  intros [= <-]. cbn. repeat split. apply Nat.ltb_lt in Hcap.
  rewrite length_app. cbn [length]. lia.
Qed.

(** One event on a started logger at level 2. *)
Lemma started_step l g ev s' :
  Level l = 2%Z -> listening l = true ->
  step (l, g) ev = Some s' ->
  Level (fst s') = 2%Z /\ listening (fst s') = true /\
  writer (fst s') = writer l /\
  log_flags (snd s') = log_flags g /\ log_output (snd s') = log_output g /\
  exists now,
    printed (snd s') = (printed g ++ map (fun msg => (log_flags g, log_output g, msg)) now)%list /\
    (now ++ logChan (fst s'))%list
    = (logChan l ++ match queued_at_2 ev with Some m => [m] | None => [] end)%list.
Proof.
  intros Hlevel Hlisten. destruct ev as [m text|]; cbn [Logging.step fst snd].
  - destruct (call l m text) as [l'|] eqn:Hcall; [|discriminate]. intros [= <-].
    cbn [fst snd].
    assert (Hdrop : l' = l -> queued_at_2 (Call m text) = None ->
              Level l' = 2%Z /\ listening l' = true /\ writer l' = writer l /\
              log_flags g = log_flags g /\ log_output g = log_output g /\
              exists now,
                printed g = (printed g ++ map (fun msg => (log_flags g, log_output g, msg)) now)%list /\
                (now ++ logChan l')%list
                = (logChan l ++ match queued_at_2 (Call m text) with
                                | Some m => [m] | None => [] end)%list).
    { intros -> ->. repeat split; try assumption. exists []. cbn. now rewrite !app_nil_r. }
    assert (Hsend : forall c, helper color_Sprintf l text c = Some l' ->
              queued_at_2 (Call m text)
              = Some (match c with Some c => color_Sprintf c text | None => text end) ->
              Level l' = 2%Z /\ listening l' = true /\ writer l' = writer l /\
              log_flags g = log_flags g /\ log_output g = log_output g /\
              exists now,
                printed g = (printed g ++ map (fun msg => (log_flags g, log_output g, msg)) now)%list /\
                (now ++ logChan l')%list
                = (logChan l ++ match queued_at_2 (Call m text) with
                                | Some m => [m] | None => [] end)%list).
    { intros c Hh Hq. apply helper_Some in Hh as (HL & HW & HLi & HC & _).
      rewrite Hq, HL, HLi, HW, HC. repeat split; try assumption.
      exists []. cbn. now rewrite app_nil_r. }
    unfold Logging.call in Hcall. rewrite Hlevel in Hcall.
    destruct m; cbn in Hcall.
    + injection Hcall as <-. now apply Hdrop.
    + now apply (Hsend None).
    + now apply (Hsend (Some [FgHiYellow])).
    + now apply (Hsend None).
    + now apply (Hsend (Some [textColor; Bold])).
    + now apply (Hsend (Some [FgHiGreen; Bold])).
    + now apply (Hsend (Some [FgHiRed; Bold])).
  - intros [= <-]. unfold receive. rewrite Hlisten.
    destruct (logChan l) as [|msg rest] eqn:Hq;
      cbn [fst snd Level listening writer logChan log_flags log_output printed queued_at_2].
    + split; [assumption|]. split; [assumption|]. do 3 (split; [reflexivity|]).
      exists []. cbn [map app]. rewrite ?Hq, !app_nil_r. split; reflexivity.
    + split; [assumption|]. split; [reflexivity|]. do 3 (split; [reflexivity|]).
      exists [msg]. cbn [map app]. rewrite ?Hq, !app_nil_r. split; reflexivity.
Qed.

Lemma started_run evs :
  forall l g s',
    Level l = 2%Z -> listening l = true ->
    run (l, g) evs = Some s' ->
    exists now,
      printed (snd s')
      = (printed g ++ map (fun msg => (log_flags g, log_output g, msg)) now)%list /\
      (now ++ logChan (fst s'))%list = (logChan l ++ omap queued_at_2 evs)%list.
Proof.
  induction evs as [|ev evs IH]; intros l g s' Hlevel Hlisten; cbn [Logging.run].
  - intros [= <-]. exists []. cbn. now rewrite !app_nil_r.
  - destruct (step (l, g) ev) as [[l1 g1]|] eqn:Hstep; [|discriminate].
    intros Hrun.
    destruct (started_step l g ev _ Hlevel Hlisten Hstep)
      as (HL & HLi & _ & Hf & Ho & now1 & Hp1 & Hq1). cbn [fst snd] in *.
    destruct (IH _ _ _ HL HLi Hrun) as (now2 & Hp2 & Hq2).
    exists (now1 ++ now2)%list. split.
    + rewrite Hp2, Hp1, Hf, Ho, map_app, app_assoc. reflexivity.
    + rewrite <- app_assoc, Hq2, app_assoc, Hq1, <- app_assoc. f_equal.
      cbn [omap list_omap]. destruct (queued_at_2 ev); reflexivity.
Qed.

(** X20: [Start] always succeeds and puts the logger at level 2, whatever
    level it was created with, with the writer it had and an empty channel.
    From then on, in any interleaving of logging calls and rounds of the
    receiving goroutine in which no send is left waiting, the lines printed
    followed by the messages still buffered are exactly the messages logged,
    in order, without those of [Debug]; each line is printed with the
    standard flags to the writer the logger had. *)
Theorem started_logger_prints_in_order l g evs :
  exists l0 g0,
    Start l g = Ret (l0, g0) /\
    Level l0 = 2%Z /\ pkg_Level g0 = 2%Z /\ writer l0 = writer l /\
    forall s',
      run (l0, g0) evs = Some s' ->
      exists now,
        printed (snd s')
        = (printed g ++ map (fun msg => (LstdFlags, writer l, msg)) now)%list /\
        (now ++ logChan (fst s'))%list = omap queued_at_2 evs.
Proof.
  eexists _, _. split; [reflexivity|]. split; [reflexivity|].
  split; [reflexivity|]. split; [reflexivity|].
  intros s' Hrun. apply started_run in Hrun; [exact Hrun | reflexivity..].
Qed.

Lemma unstarted_run evs :
  forall l g s',
    listening l = false -> (length (logChan l) <= capacity)%nat ->
    run (l, g) evs = Some s' ->
    printed (snd s') = printed g /\
    (length (logChan l)
     + length (List.filter (fun ev => match ev with
                                      | Call (Msg | Alert _ | Success | Error) _ => true
                                      | _ => false
                                      end) evs)
     <= length (logChan (fst s')) <= capacity)%nat.
Proof.
  induction evs as [|ev evs IH]; intros l g s' Hlisten Hcap; cbn [Logging.run].
  - intros [= <-]. cbn. split; [reflexivity | lia].
  - destruct (step (l, g) ev) as [[l1 g1]|] eqn:Hstep; [|discriminate].
    intros Hrun. destruct ev as [m text|]; cbn [Logging.step fst snd] in Hstep.
    + destruct (call l m text) as [l'|] eqn:Hcall; [|discriminate].
      injection Hstep as <- <-.
      assert (Hsame : l' = l ->
                printed (snd s') = printed g /\
                (length (logChan l)
                 + length (List.filter (fun ev => match ev with
                                                  | Call (Msg | Alert _ | Success | Error) _ => true
                                                  | _ => false
                                                  end) evs)
                 <= length (logChan (fst s')) <= capacity)%nat).
      { intros ->. now apply IH. }
      assert (Hsend : forall c, helper color_Sprintf l text c = Some l' ->
                printed (snd s') = printed g /\
                (length (logChan l)
                 + S (length (List.filter (fun ev => match ev with
                                                  | Call (Msg | Alert _ | Success | Error) _ => true
                                                  | _ => false
                                                  end) evs))
                 <= length (logChan (fst s')) <= capacity)%nat).
      { intros c Hh. apply helper_Some in Hh as (_ & _ & HLi & HC & Hc').
        destruct (IH l' g s') as [Hp Hlen]; [congruence | exact Hc' | exact Hrun|].
        split; [exact Hp|]. rewrite HC, length_app in Hlen. cbn [length] in Hlen. lia. }
      unfold Logging.call in Hcall.
      destruct m; cbn [List.filter length];
        repeat match type of Hcall with
               | (if ?b then _ else _) = _ => destruct b
               end;
        try (injection Hcall as <-; destruct (Hsame eq_refl) as [Hp Hl]; split; [exact Hp | lia]);
        try (destruct (Hsend _ Hcall) as [Hp Hl]; split; [exact Hp | lia]).
    + injection Hstep as Hstep. unfold receive in Hstep. rewrite Hlisten in Hstep.
      injection Hstep as <- <-. cbn [List.filter]. now apply IH.
Qed.


End WithColor.


End LoggingFacts.

(** ** package netutil *)
Module NetUtilFacts.
Import GoStrings GoStringsFacts NetUtil.

Lemma prefix_inv (p s : string) :
  String.prefix p s = true -> exists x, s = p ++ x.
Proof.
  revert s. induction p as [|a p IH]; intros s H.
  - now exists s.
  - destruct s as [|b s]; [discriminate H|].
    apply prefix_cons in H as [-> H]. destruct (IH s H) as [x ->]. now exists x.
Qed.

Lemma slash_unbordered : unbordered "/".
Proof. apply unbordered_check. reflexivity. Qed.

(** A one-byte separator occurs in a concatenation when it occurs in one
    of the parts. *)
Lemma Contains_char_app (d : ascii) (a b : string) :
  Contains (a ++ b) (String d "") = Contains a (String d "") || Contains b (String d "").
Proof.
  induction a as [|c a IH].
  - change ("" ++ b) with b. cbn [Contains String.prefix orb]. reflexivity.
  - change (String c a ++ b) with (String c (a ++ b)). cbn [Contains]. rewrite IH.
    cbn [String.prefix]. destruct (ascii_dec d c).
    + destruct (a ++ b), a; reflexivity.
    + reflexivity.
Qed.

(** The fields of an address that begins with a scheme. *)
Lemma Split_scheme (scheme x : string) :
  Contains scheme "/" = false ->
  Split (scheme ++ "//" ++ x) "/" = scheme :: "" :: split_go "/" 0 x.
Proof.
  intros Hs. change (Split ?s "/") with (split_go "/" 0 s).
  change (scheme ++ "//" ++ x) with (scheme ++ "/" ++ ("" ++ "/" ++ x)).
  rewrite (split_go_field "/" scheme _ slash_unbordered) by (discriminate || assumption).
  rewrite (split_go_field "/" "" _ slash_unbordered) by (discriminate || reflexivity).
  reflexivity.
Qed.

(** The last field of a text split at dots. *)
Lemma split_dot_last (pre tail : string) :
  Contains tail "." = false ->
  exists init, split_go "." 0 (pre ++ "." ++ tail) = (init ++ [tail])%list /\ init <> [].
Proof.
  intros Ht. induction pre as [|c pre (init & IH & Hne)].
  - exists [""]. split; [|discriminate].
    change ("" ++ "." ++ tail) with (String "." tail). cbn [split_go String.prefix].
    destruct (ascii_dec "." "."); [|contradiction].
    replace (String.prefix "" tail) with true by (destruct tail; reflexivity).
    cbn [String.length Nat.sub]. now rewrite (split_go_last "." tail Ht).
  - change (String c pre ++ "." ++ tail) with (String c (pre ++ "." ++ tail)).
    cbn [split_go]. rewrite IH.
    destruct (String.prefix "." (String c (pre ++ "." ++ tail))).
    + cbn [String.length Nat.sub]. rewrite IH. exists ("" :: init). split; [reflexivity | discriminate].
    + destruct init as [|i0 init]; [contradiction|].
      exists (String c i0 :: init). split; [reflexivity | discriminate].
Qed.

Lemma index_last {A} (init : list A) (x : A) :
  GoSlice.index (init ++ [x]) (length (init ++ [x]) - 1) = Ret x.
Proof.
  unfold GoSlice.index.
  replace (length (init ++ [x]) - 1) with (Nat.pred (length (init ++ [x]))) by lia.
  now rewrite <- last_lookup, last_snoc.
Qed.

(** [IsTor] on an address whose host is [host]. *)
Lemma IsTor_host (scheme host tail : string) :
  scheme = "http:" \/ scheme = "https:" ->
  Contains host "/" = false ->
  tail = "" \/ (exists path, tail = "/" ++ path) ->
  IsTor (scheme ++ "//" ++ host ++ tail)
  = match GoSlice.index (Split host ".") (length (Split host ".") - 1) with
    | Panic why => Panic why
    | Ret last => Ret (String.eqb last "onion")
    end.
Proof.
  intros Hscheme Hhost Htail. unfold IsTor.
  assert (Hpre : negb (HasPrefix (scheme ++ "//" ++ host ++ tail) "http://") &&
                 negb (HasPrefix (scheme ++ "//" ++ host ++ tail) "https://") = false).
  { unfold HasPrefix. destruct Hscheme as [-> | ->].
    - change ("http:" ++ "//" ++ host ++ tail) with ("http://" ++ host ++ tail).
      now rewrite prefix_append.
    - change ("https:" ++ "//" ++ host ++ tail) with ("https://" ++ host ++ tail).
      rewrite prefix_append. apply andb_false_r. }
  rewrite Hpre. rewrite Split_scheme by (destruct Hscheme as [-> | ->]; reflexivity).
  assert (Hfields : exists more, split_go "/" 0 (host ++ tail) = host :: more).
  { destruct Htail as [-> | (path & ->)].
    - rewrite append_nil_r, (split_go_last "/" host Hhost). now exists [].
    - rewrite (split_go_field "/" host path slash_unbordered) by (discriminate || assumption).
      eauto. }
  destruct Hfields as (more & ->). reflexivity.
Qed.

(** X22: [IsTor] never panics; it answers false to what does not begin with
    [http://] or [https://]; for a host [name.onion], followed by nothing or
    by a path, it answers true, and for the same host with a port,
    [name.onion:port], it answers false. *)
Theorem IsTor_onion_host_without_port :
  (forall addr, exists b, IsTor addr = Ret b) /\
  (forall addr,
     HasPrefix addr "http://" = false -> HasPrefix addr "https://" = false ->
     IsTor addr = Ret false) /\
  (forall scheme name tail,
     scheme = "http:" \/ scheme = "https:" ->
     Contains name "/" = false ->
     tail = "" \/ (exists path, tail = "/" ++ path) ->
     IsTor (scheme ++ "//" ++ (name ++ ".onion") ++ tail) = Ret true /\
     forall port,
       Contains port "/" = false -> Contains port "." = false ->
       IsTor (scheme ++ "//" ++ (name ++ ".onion:" ++ port) ++ tail) = Ret false).
Proof.
  split; [|split].
  - intros addr. unfold IsTor.
    assert (Hfields : forall x,
              exists b,
                match GoSlice.index (split_go "." 0 x) (length (split_go "." 0 x) - 1) with
                | Panic why => Panic why
                | Ret last => Ret (String.eqb last "onion")
                end = Ret b).
    { intros x. pose proof (TunnelMore.split_go_nonempty "." 0 x) as Hne.
      destruct (split_go "." 0 x) as [|f fs] using rev_ind; [contradiction|].
      rewrite index_last. eauto. }
    assert (Hscheme : forall scheme x,
              Contains scheme "/" = false ->
              exists b,
                match GoSlice.index (Split (scheme ++ "//" ++ x) "/") 2 with
                | Panic why => Panic why
                | Ret nopath =>
                    match GoSlice.index (Split nopath ".") (length (Split nopath ".") - 1) with
                    | Panic why => Panic why
                    | Ret last => Ret (String.eqb last "onion")
                    end
                end = Ret b).
    { intros scheme x Hs. rewrite (Split_scheme scheme x Hs).
      pose proof (TunnelMore.split_go_nonempty "/" 0 x) as Hne.
      destruct (split_go "/" 0 x) as [|f fs]; [contradiction|].
      unfold GoSlice.index at 1. cbn [lookup list_lookup]. apply Hfields. }
    unfold HasPrefix.
    destruct (String.prefix "http://" addr) eqn:Hhttp; cbn [negb andb].
    + apply prefix_inv in Hhttp as [x ->]. now apply (Hscheme "http:" x).
    + destruct (String.prefix "https://" addr) eqn:Hhttps; cbn [negb]; [|eauto].
      apply prefix_inv in Hhttps as [x ->]. now apply (Hscheme "https:" x).
  - intros addr H1 H2. unfold IsTor. now rewrite H1, H2.
  - intros scheme name tail Hscheme Hname Htail. split.
    + rewrite IsTor_host; try assumption.
      * change (name ++ ".onion") with (name ++ "." ++ "onion").
        change (Split ?s ".") with (split_go "." 0 s).
        destruct (split_dot_last name "onion" eq_refl) as (init & -> & _).
        now rewrite index_last.
      * rewrite (Contains_char_app "/"), Hname. reflexivity.
    + intros port Hslash Hdot. rewrite IsTor_host; try assumption.
      * change (name ++ ".onion:" ++ port) with (name ++ "." ++ ("onion:" ++ port)).
        change (Split ?s ".") with (split_go "." 0 s).
        destruct (split_dot_last name ("onion:" ++ port)) as (init & -> & _).
        { now rewrite (Contains_char_app "."), Hdot. }
        rewrite index_last. reflexivity.
      * rewrite (Contains_char_app "/"), Hname, (Contains_char_app "/"), Hslash. reflexivity.
Qed.

(** A hidden service, without and with a port. *)
Lemma IsTor_onion_host_without_port_witness :
  IsTor "http://c2hiddenservice.onion/emp3r0r" = Ret true /\
  IsTor "http://c2hiddenservice.onion:8080/emp3r0r" = Ret false.
Proof.
  destruct IsTor_onion_host_without_port as (_ & _ & Hhost).
  destruct (Hhost "http:" "c2hiddenservice" "/emp3r0r") as [Htrue Hport];
    [now left | reflexivity | right; now exists "emp3r0r" |].
  split; [exact Htrue|]. apply (Hport "8080"); reflexivity.
Defined.

Lemma byte_high_bits b n : is_byte b -> (8 <= n)%Z -> Z.testbit b n = false.
Proof.
  intros [Hlo Hhi] Hn. destruct (Z.eq_dec b 0%Z) as [->|Hne]; [apply Z.bits_0|].
  apply Z.bits_above_log2; [lia|].
  assert (Z.log2 b < 8)%Z; [|lia]. apply Z.log2_lt_pow2; lia.
Qed.

Lemma testbit_255 n : (0 <= n)%Z -> Z.testbit 255 n = (n <? 8)%Z.
Proof.
  intros Hn. change 255%Z with (Z.ones 8).
  destruct (n <? 8)%Z eqn:H.
  - apply Z.ones_spec_low. lia.
  - apply Z.ones_spec_high. lia.
Qed.

(** The byte [p | ^m]: the network bits of [p], every host bit set. *)
Lemma broadcast_byte p m :
  is_byte p -> is_byte m ->
  is_byte (Z.lor p (complement m)) /\
  Z.land (Z.lor p (complement m)) m = Z.land p m /\
  Z.lor (Z.lor p (complement m)) m = 255%Z.
Proof.
  intros Hp Hm. unfold complement.
  assert (Hbits : forall n, (0 <= n)%Z ->
            Z.testbit (Z.lor p (Z.lxor m 255)) n
            = Z.testbit p n || xorb (Z.testbit m n) (n <? 8)%Z).
  { intros n Hn. now rewrite Z.lor_spec, Z.lxor_spec, testbit_255. }
  split; [|split].
  - assert (Heq : Z.lor p (Z.lxor m 255) = Z.land (Z.lor p (Z.lxor m 255)) (Z.ones 8)).
    { apply Z.bits_inj'. intros n Hn. rewrite Z.land_spec, Hbits by assumption.
      change (Z.ones 8) with 255%Z. rewrite testbit_255 by assumption.
      destruct (n <? 8)%Z eqn:H8; [now rewrite andb_true_r|].
      rewrite (byte_high_bits p n), (byte_high_bits m n) by (assumption || lia). reflexivity. }
    rewrite Heq, Z.land_ones by lia. unfold is_byte.
    pose proof (Z.mod_pos_bound (Z.lor p (Z.lxor m 255)) (2 ^ 8)). lia.
  - apply Z.bits_inj'. intros n Hn. rewrite !Z.land_spec, Hbits by assumption.
    destruct (n <? 8)%Z eqn:H8.
    + destruct (Z.testbit p n), (Z.testbit m n); reflexivity.
    + rewrite (byte_high_bits p n), (byte_high_bits m n) by (assumption || lia). reflexivity.
  - apply Z.bits_inj'. intros n Hn. rewrite Z.lor_spec, Hbits, testbit_255 by assumption.
    destruct (n <? 8)%Z eqn:H8.
    + destruct (Z.testbit p n), (Z.testbit m n); reflexivity.
    + rewrite (byte_high_bits p n), (byte_high_bits m n) by (assumption || lia). reflexivity.
Qed.

Lemma broadcast_loop_spec mask ip4 :
  forall i,
    i + length ip4 <= length mask ->
    exists bs,
      broadcast_loop ip4 mask i = Ret bs /\ length bs = length ip4 /\
      forall k p, ip4 !! k = Some p ->
        exists m, mask !! (i + k) = Some m /\ bs !! k = Some (Z.lor p (complement m)).
Proof.
  induction ip4 as [|p ip4 IH]; intros i Hlen.
  - exists []. repeat split. intros k p Hk. discriminate Hk.
  - cbn [length] in Hlen. cbn [broadcast_loop]. unfold GoSlice.index.
    destruct (mask !! i) as [m|] eqn:Hm; [|apply lookup_ge_None in Hm; lia].
    destruct (IH (S i)) as (bs & -> & Hbs & Hk); [lia|].
    eexists. split; [reflexivity|]. split; [cbn [length]; lia|].
    intros [|k] q Hq.
    + injection Hq as <-. exists m. rewrite Nat.add_0_r. split; [exact Hm | reflexivity].
    + destruct (Hk k q Hq) as (m' & Hm' & Hb). exists m'.
      replace (i + S k) with (S i + k) by lia. split; [exact Hm' | exact Hb].
Qed.

Lemma broadcast_loop_short mask ip4 :
  forall i, ip4 <> [] -> length mask < i + length ip4 ->
    exists why, broadcast_loop ip4 mask i = Panic why.
Proof.
  induction ip4 as [|p ip4 IH]; intros i Hne Hlen; [contradiction|].
  cbn [broadcast_loop length] in *. unfold GoSlice.index.
  destruct (mask !! i) as [m|] eqn:Hm; [|eauto].
  apply lookup_lt_Some in Hm.
  destruct (IH (S i)) as (why & ->); [|lia | eauto].
  intros ->. cbn [length] in Hlen. lia.
Qed.

(** X23: for a four-byte address and a mask of four bytes or more,
    [IPbroadcastAddr] prints four bytes in dotted form; each of them agrees
    with the address on the bits of the mask byte at the same place and has
    every other bit set.  With a mask shorter than four bytes it panics. *)
Theorem IPbroadcastAddr_sets_host_bits ip mask :
  length ip = 4 -> Forall is_byte ip -> Forall is_byte mask ->
  (4 <= length mask ->
   exists bs,
     IPbroadcastAddr {| IP := ip; Mask := mask |} = Ret (dotted bs) /\
     length bs = 4 /\
     forall k p m b,
       ip !! k = Some p -> mask !! k = Some m -> bs !! k = Some b ->
       is_byte b /\ Z.land b m = Z.land p m /\ Z.lor b m = 255%Z) /\
  (length mask < 4 ->
   exists why, IPbroadcastAddr {| IP := ip; Mask := mask |} = Panic why).
Proof.
  intros Hlen Hip Hmask. unfold IPbroadcastAddr, To4. cbn [IP Mask].
  rewrite Hlen. cbn [Nat.eqb]. split.
  - intros H4. destruct (broadcast_loop_spec mask ip 0) as (bs & -> & Hbs & Hk); [lia|].
    exists bs. split; [reflexivity|]. split; [lia|].
    intros k p m b Hp Hm Hb. destruct (Hk k p Hp) as (m' & Hm' & Hb').
    cbn [Nat.add] in Hm'. rewrite Hm in Hm'. injection Hm' as <-.
    rewrite Hb in Hb'. injection Hb' as ->.
    apply broadcast_byte.
    + rewrite Forall_lookup in Hip. exact (Hip k p Hp).
    + rewrite Forall_lookup in Hmask. exact (Hmask k m Hm).
  - intros Hshort. destruct (broadcast_loop_short mask ip 0) as (why & ->); [|lia | eauto].
    intros ->. discriminate Hlen.
Qed.

(** 192.168.1.10 with mask 255.255.255.0. *)
Lemma IPbroadcastAddr_sets_host_bits_witness :
  IPbroadcastAddr {| IP := [192; 168; 1; 10]%Z; Mask := [255; 255; 255; 0]%Z |}
  = Ret "192.168.1.255" /\
  exists why, IPbroadcastAddr {| IP := [192; 168; 1; 10]%Z; Mask := [] |} = Panic why.
Proof.
  split; [reflexivity|].
  apply (IPbroadcastAddr_sets_host_bits [192; 168; 1; 10]%Z []); [reflexivity | | | cbn; lia].
  - repeat (apply List.Forall_cons; [unfold is_byte; lia|]). apply List.Forall_nil.
  - apply List.Forall_nil.
Defined.

(** X24: the subnet of [GenerateRandomPrivateSubnet24] is always in the
    private address space of RFC 1918, whatever the generator gives:
    [10.x.y.0/24], or [172.x.y.0/24] with [x] from 16 to 31, or
    [192.168.y.0/24], with [x] and [y] below 256. *)
Theorem GenerateRandomPrivateSubnet24_is_private r0 r1 r2 :
  exists first second third,
    GenerateRandomPrivateSubnet24 r0 r1 r2 = subnet24 first second third /\
    (first = 10 /\ 0 <= second < 256 \/
     first = 172 /\ 16 <= second <= 31 \/
     first = 192 /\ second = 168)%Z /\
    (0 <= third < 256)%Z.
Proof.
  unfold GenerateRandomPrivateSubnet24, private_octets, Intn.
  pose proof (Z.mod_pos_bound r0 3 eq_refl) as H0.
  pose proof (Z.mod_pos_bound r1 256 eq_refl) as H1.
  pose proof (Z.mod_pos_bound r1 16 eq_refl) as H1'.
  pose proof (Z.mod_pos_bound r2 256 eq_refl) as H2.
  destruct (Z.eqb_spec (r0 mod 3) 0) as [E0|E0];
    [|destruct (Z.eqb_spec (r0 mod 3) 1) as [E1|E1];
      [|destruct (Z.eqb_spec (r0 mod 3) 2) as [E2|E2]; [|lia]]];
    eexists _, _, _; (split; [reflexivity|]); split; lia.
Qed.

End NetUtilFacts.

(** ** The agent API dispatcher *)
Module DispatchFacts.
Import ApiDispatch.

Lemma find_stream_found streams token sh :
  find_stream streams token = Ret (Some sh) ->
  In (Some sh) streams /\ Ftp.Token sh = token.
Proof.
  induction streams as [|[s|] streams IH]; cbn [find_stream]; try discriminate.
  destruct (String.eqb token (Ftp.Token s)) eqn:Heq.
  - intros [= <-]. apply String.eqb_eq in Heq. split; [now left | now symmetry].
  - intros H. destruct (IH H) as [Hin Htok]. split; [now right | exact Htok].
Qed.

Lemma find_stream_registered streams token sh :
  Forall (fun s => s <> None) streams ->
  In (Some sh) streams -> Ftp.Token sh = token ->
  exists sh', find_stream streams token = Ret (Some sh') /\ Ftp.Token sh' = token.
Proof.
  intros Hall Hin Htok. induction streams as [|[s|] streams IH]; [destruct Hin| |].
  - apply Forall_cons in Hall as [_ Hall]. cbn [find_stream].
    destruct (String.eqb token (Ftp.Token s)) eqn:Heq.
    + apply String.eqb_eq in Heq. exists s. split; [reflexivity | now symmetry].
    + destruct Hin as [[= ->] | Hin].
      * rewrite Htok, String.eqb_refl in Heq. discriminate Heq.
      * now apply IH.
  - apply Forall_cons in Hall as [Hne _]. contradiction.
Qed.

Ltac routed_tac :=
  cbn; repeat split; try apply Pos.succ_discr; intros;
  repeat match goal with
         | H : Ret _ = Ret _ |- _ => injection H as H; try subst
         | H : Panic _ = Ret _ |- _ => discriminate H
         end;
  cbn in *; try discriminate.

Ltac auth_tac :=
  match goal with
  | Hauth : _ /\ _ /\ _ |- _ => solve [exact Hauth | destruct Hauth as (? & ? & ?); assumption]
  end.

Section WithTransport.
Variable WebRoot CheckInAPI MsgAPI FTPAPI FileAPI ProxyAPI WWW Temp : string.
Variable DecodeString : string -> option (list Byte.byte).
Variable VerifySignatureWithCA : string -> list Byte.byte -> bool * option string.
Variable IsAgentExistByTag : string -> bool.
Variable filepath_Clean : string -> string.
Variable filepath_Base : string -> string.
Variable IsExist : string -> bool.

Local Abbreviation apiDispatcher :=
  (apiDispatcher WebRoot CheckInAPI MsgAPI FTPAPI FileAPI ProxyAPI WWW Temp
     DecodeString VerifySignatureWithCA IsAgentExistByTag filepath_Clean filepath_Base
     IsExist).

(** X25: what [apiDispatcher] does before and after it has authenticated
    a request.  Every request, refused or not, replaces the H2 connections
    of the reverse-shell stream and of the proxy stream by two new ones.  A
    request reaches a handler only if it names an api and a token and
    carries a signature that decodes and that [VerifySignatureWithCA]
    accepts for its agent UUID.  The FTP handler is given a registered
    stream whose token is the token of the request, and the file served is
    a file that exists, named by the base name of the requested path under
    the WWW directory, for a token that is the tag of a known agent. *)
Theorem apiDispatcher_authenticates_before_routing st FTPStreams req :
  let st' := fst (apiDispatcher st FTPStreams req) in
  (RShellStream_H2x st' = next st /\ ProxyStream_H2x st' = Pos.succ (next st) /\
   RShellStream_H2x st' <> ProxyStream_H2x st') /\
  (forall r,
     snd (apiDispatcher st FTPStreams req) = Ret r -> refused r = false ->
     vars_api req <> "" /\ vars_token req <> "" /\
     exists sig, DecodeString (AgentUUIDSig req) = Some sig /\
                 fst (VerifySignatureWithCA (AgentUUID req) sig) = true) /\
  (forall sh,
     snd (apiDispatcher st FTPStreams req) = Ret (handleFTPTransfer sh) ->
     In (Some sh) FTPStreams /\ Ftp.Token sh = vars_token req) /\
  (forall local_path,
     snd (apiDispatcher st FTPStreams req) = Ret (ServeFile local_path) ->
     IsAgentExistByTag (vars_token req) = true /\ IsExist local_path = true /\
     local_path = Temp ++ "/" ++ WWW ++ "/"
                    ++ filepath_Base (filepath_Clean (file_to_download req))).
Proof.
  cbn zeta. unfold ApiDispatch.apiDispatcher.
  destruct (String.eqb (vars_api req) "") eqn:Hapi; [routed_tac|].
  destruct (String.eqb (vars_token req) "") eqn:Htoken; [routed_tac|].
  apply String.eqb_neq in Hapi, Htoken. cbn [orb].
  destruct (DecodeString (AgentUUIDSig req)) as [sig|] eqn:Hsig; [|routed_tac].
  destruct (VerifySignatureWithCA (AgentUUID req) sig) as [isValid err] eqn:Hverify.
  destruct isValid; cbn [negb]; [|routed_tac].
  assert (Hauth : vars_api req <> "" /\ vars_token req <> "" /\
                  exists sig0, Some sig = Some sig0 /\
                               fst (VerifySignatureWithCA (AgentUUID req) sig0) = true).
  { split; [exact Hapi|]. split; [exact Htoken|]. exists sig. now rewrite Hverify. }
  repeat match goal with
         | |- context [if String.eqb ?a ?b then _ else _] => destruct (String.eqb a b)
         end;
    try (routed_tac; auth_tac).
  - destruct (find_stream FTPStreams (vars_token req)) as [[sh|]|] eqn:Hfind;
      routed_tac; try auth_tac;
      try (apply find_stream_found in Hfind; destruct Hfind; assumption).
  - destruct (IsAgentExistByTag (vars_token req)) eqn:Hagent; cbn [negb]; [|routed_tac].
    destruct (IsExist _) eqn:Hexist; cbn [negb]; routed_tac;
      try auth_tac; try assumption; reflexivity.
Qed.

(** X26: the token [GetFile] hands to the agent opens a stream.  After a
    [GetFile] that returned a stream handle, a request for the FTP api that
    carries the token of that handle and an accepted signature is handed to
    [handleFTPTransfer], with a registered stream of that token. *)
Theorem token_of_GetFile_opens_a_stream `{P : Ftp.Platform}
    e w p fuel w' sh st FTPStreams req sig :
  Ftp.GetFile e w p fuel = Some (w', (Some sh, None)) ->
  (forall s, In s FTPStreams <->
             exists k h, Ftp.FTPStreams w' !! k = Some h /\ s = Some h) ->
  vars_api req <> "" -> vars_token req = Ftp.Token sh ->
  DecodeString (AgentUUIDSig req) = Some sig ->
  fst (VerifySignatureWithCA (AgentUUID req) sig) = true ->
  WebRoot ++ "/" ++ vars_api req = FTPAPI ->
  FTPAPI <> CheckInAPI -> FTPAPI <> MsgAPI ->
  exists sh',
    snd (apiDispatcher st FTPStreams req) = Ret (handleFTPTransfer sh') /\
    Ftp.Token sh' = Ftp.Token sh.
Proof.
  intros Hget Hstreams Hapi Htoken Hsig Hvalid Hftp Hne1 Hne2.
  destruct (FtpFacts.GetFile_handler_inv e w p fuel w' sh None Hget)
    as (w1 & w1s & k & res & fi & w3 & _ & _ & _ & _ & _ & _ & Hsh & _ & Hsend).
  apply FtpFacts.SendCmd_inv in Hsend as (_ & _ & Hreg & _).
  cbn [Ftp.FTPStreams Ftp.set_FTPStreams] in Hreg.
  assert (Hin : In (Some sh) FTPStreams).
  { apply Hstreams. exists p, sh. split; [|reflexivity]. rewrite Hreg. apply lookup_insert_eq. }
  assert (Hall : Forall (fun s => s <> None) FTPStreams).
  { apply List.Forall_forall. intros s Hs. apply Hstreams in Hs as (? & ? & _ & ->). discriminate. }
  destruct (find_stream_registered FTPStreams (vars_token req) sh Hall Hin (eq_sym Htoken))
    as (sh' & Hfind & Htok).
  assert (Hnonempty : vars_token req <> "").
  { rewrite Htoken, Hsh. cbn [Ftp.Token]. intros Heq.
    apply (f_equal String.length) in Heq.
    rewrite !GoStringsFacts.length_append in Heq. cbn [String.length] in Heq. lia. }
  exists sh'. split; [|congruence].
  unfold ApiDispatch.apiDispatcher.
  apply String.eqb_neq in Hapi, Hnonempty. rewrite Hapi, Hnonempty, Hsig. cbn [orb].
  destruct (VerifySignatureWithCA (AgentUUID req) sig) as [isValid err].
  cbn [fst] in Hvalid. subst isValid. cbn [negb]. rewrite Hftp.
  apply String.eqb_neq in Hne1, Hne2. rewrite Hne1, Hne2, String.eqb_refl, Hfind.
  reflexivity.
Qed.

End WithTransport.

#[local] Existing Instance Scenario.workspace.

(** A request without a token: it is refused, and the two streams have
    new connections all the same. *)
Lemma apiDispatcher_authenticates_before_routing_witness :
  apiDispatcher "/emp3r0r" "/emp3r0r/checkin" "/emp3r0r/msg" "/emp3r0r/ftp"
    "/emp3r0r/www" "/emp3r0r/proxy" "www" "/tmp/emp3r0r"
    ScenarioMore.decode_sig ScenarioMore.verify_sig (fun _ => true)
    (fun p => p) Scenario.basename (fun _ => false)
    ScenarioMore.streams_initial [] (ScenarioMore.ftp_request "")
  = ({| RShellStream_H2x := 3; ProxyStream_H2x := 4; next := 5 |}, Ret StatusBadRequest) /\
  RShellStream_H2x
    (fst (apiDispatcher "/emp3r0r" "/emp3r0r/checkin" "/emp3r0r/msg" "/emp3r0r/ftp"
            "/emp3r0r/www" "/emp3r0r/proxy" "www" "/tmp/emp3r0r"
            ScenarioMore.decode_sig ScenarioMore.verify_sig (fun _ => true)
            (fun p => p) Scenario.basename (fun _ => false)
            ScenarioMore.streams_initial [] (ScenarioMore.ftp_request "")))
  = next ScenarioMore.streams_initial.
Proof.
  split; [reflexivity|].
  apply (apiDispatcher_authenticates_before_routing "/emp3r0r" "/emp3r0r/checkin"
           "/emp3r0r/msg" "/emp3r0r/ftp" "/emp3r0r/www" "/emp3r0r/proxy" "www"
           "/tmp/emp3r0r" ScenarioMore.decode_sig ScenarioMore.verify_sig (fun _ => true)
           (fun p => p) Scenario.basename (fun _ => false)
           ScenarioMore.streams_initial [] (ScenarioMore.ftp_request "")).
Defined.

(** S2 on the dispatcher: the agent comes back with the token of the
    stream that [GetFile] registered for [/etc/hostname]. *)
Lemma token_of_GetFile_opens_a_stream_witness :
  exists w' sh sh',
    Ftp.GetFile Scenario.env_first Scenario.ws_fresh "/etc/hostname" 3
    = Some (w', (Some sh, None)) /\
    snd (apiDispatcher "/emp3r0r" "/emp3r0r/checkin" "/emp3r0r/msg" "/emp3r0r/ftp"
           "/emp3r0r/www" "/emp3r0r/proxy" "www" "/tmp/emp3r0r"
           ScenarioMore.decode_sig ScenarioMore.verify_sig (fun _ => true)
           (fun p => p) Scenario.basename (fun _ => false)
           ScenarioMore.streams_initial [Some sh]
           (ScenarioMore.ftp_request (Ftp.Token sh)))
    = Ret (handleFTPTransfer sh') /\
    Ftp.Token sh' = Ftp.Token sh.
Proof.
  destruct (Ftp.GetFile Scenario.env_first Scenario.ws_fresh "/etc/hostname" 3)
    as [[w' [[sh|] [err|]]]|] eqn:H; try (vm_compute in H; discriminate H).
  assert (Hreg : Ftp.FTPStreams w' = {[ "/etc/hostname" := sh ]}).
  { vm_compute in H. injection H as <- <-. vm_compute. reflexivity. }
  destruct (token_of_GetFile_opens_a_stream "/emp3r0r" "/emp3r0r/checkin" "/emp3r0r/msg"
              "/emp3r0r/ftp" "/emp3r0r/www" "/emp3r0r/proxy" "www" "/tmp/emp3r0r"
              ScenarioMore.decode_sig ScenarioMore.verify_sig (fun _ => true)
              (fun p => p) Scenario.basename (fun _ => false)
              Scenario.env_first Scenario.ws_fresh "/etc/hostname" 3 w' sh
              ScenarioMore.streams_initial [Some sh]
              (ScenarioMore.ftp_request (Ftp.Token sh)) [] H)
    as (sh' & Hroute & Htok).
  - intros s. rewrite Hreg. split.
    + intros [<- | []]. exists "/etc/hostname", sh. split; [|reflexivity].
      apply lookup_singleton_eq.
    + intros (k & h & Hk & ->). left. f_equal.
      apply lookup_singleton_Some in Hk as [_ Hk]. exact Hk.
  - intros Hempty. discriminate Hempty.
  - reflexivity.
  - reflexivity.
  - reflexivity.
  - reflexivity.
  - intros Heq. discriminate Heq.
  - intros Heq. discriminate Heq.
  - exists w', sh, sh'. split; [reflexivity|]. split; assumption.
Defined.

End DispatchFacts.

(** ** The command module *)
Module ModCmdFacts.
Import Registry ModCmd.

Section WithSendCmd.
Variable SendCmd : string -> string -> Tunnel.Emp3r0rAgent -> option string.

Local Abbreviation execOnTarget := (execOnTarget SendCmd).
Local Abbreviation exec_on_all := (exec_on_all SendCmd).
Local Abbreviation moduleCmd := (moduleCmd SendCmd).

Lemma execOnTarget_spec st t c val :
  lookup_target (Targets st) (Tunnel.agent_addr t) = Some c ->
  AvailableModuleOptions st !! "cmd_to_exec" = Some (Some val) ->
  exists st',
    execOnTarget st t = (st', Ret tt) /\
    Targets st' = Targets st /\ AvailableModuleOptions st' = AvailableModuleOptions st /\
    sent st' = (sent st ++ match Conn c with
                           | Some _ => [(val, "", t)]
                           | None => []
                           end)%list.
Proof.
  intros Hc Hopt. unfold ModCmd.execOnTarget. rewrite Hc.
  destruct (Conn c); [rewrite Hopt; destruct (SendCmd val "" t)|];
    eexists; (split; [reflexivity|]); cbn; rewrite ?app_nil_r; repeat split.
Qed.

Lemma exec_on_all_spec val sub :
  forall st,
    AvailableModuleOptions st !! "cmd_to_exec" = Some (Some val) ->
    (forall t c, In (t, c) sub ->
       c <> None /\ lookup_target (Targets st) (Tunnel.agent_addr t) = c) ->
    exists st',
      exec_on_all st sub = (st', Ret tt) /\
      Targets st' = Targets st /\
      sent st' = (sent st ++ map (fun t => (val, "", t)) (connected sub))%list.
Proof.
  induction sub as [|[t c] sub IH]; intros st Hopt Hsub.
  - exists st. cbn. rewrite app_nil_r. repeat split.
  - destruct (Hsub t c (or_introl eq_refl)) as [Hne Hlook].
    destruct c as [c|]; [|contradiction].
    destruct (execOnTarget_spec st t c val Hlook Hopt) as (st1 & Hexec & HT & HO & Hsent).
    destruct (IH st1) as (st' & Hall & HT' & Hsent').
    + now rewrite HO.
    + intros t' c' Hin. rewrite HT. apply Hsub. now right.
    + exists st'. cbn [ModCmd.exec_on_all]. rewrite Hexec. split; [exact Hall|].
      split; [congruence|]. rewrite Hsent', Hsent, <- app_assoc. f_equal.
      unfold connected. cbn [List.filter snd].
      destruct (Conn c) as [k|]; [rewrite bool_decide_eq_true_2 by discriminate
                                 | rewrite bool_decide_eq_false_2 by tauto]; reflexivity.
Qed.

(** X27: with no agent selected, [moduleCmd] sends the command of option
    [cmd_to_exec] to every target that has a connection, once each and in
    the order of the iteration, and to no other; it then returns normally.
    If the option is missing it panics at the warning line, whereas with an
    agent selected and connected a missing option is reported and nothing
    is sent. *)
Theorem moduleCmd_broadcasts_to_connected_targets st :
  NoDup (addrs (Targets st)) ->
  Forall (fun tc => snd tc <> None) (Targets st) ->
  (forall val,
     ActiveAgent st = None ->
     AvailableModuleOptions st !! "cmd_to_exec" = Some (Some val) ->
     exists st',
       moduleCmd st = (st', Ret tt) /\
       sent st' = (sent st ++ map (fun t => (val, "", t)) (connected (Targets st)))%list) /\
  (ActiveAgent st = None ->
   AvailableModuleOptions st !! "cmd_to_exec" = None ->
   panicked (snd (moduleCmd st)) = true) /\
  (forall t c k,
     ActiveAgent st = Some t ->
     lookup_target (Targets st) (Tunnel.agent_addr t) = Some c -> Conn c = Some k ->
     AvailableModuleOptions st !! "cmd_to_exec" = None ->
     moduleCmd st = (add_log st LogError_option_not_found, Ret tt)).
Proof.
  intros Hnd Hall. split; [|split].
  - intros val Hactive Hopt. unfold ModCmd.moduleCmd. rewrite Hactive, Hopt. cbn [default].
    destruct (exec_on_all_spec val (Targets st) (add_log st (LogWarning_all_targets val)))
      as (st' & Hexec & _ & Hsent).
    + exact Hopt.
    + intros t c Hin. cbn [Targets add_log]. split.
      * rewrite List.Forall_forall in Hall. exact (Hall _ Hin).
      * now apply RegistryFacts.lookup_target_In.
    + exists st'. split; [exact Hexec | exact Hsent].
  - intros Hactive Hopt. unfold ModCmd.moduleCmd. now rewrite Hactive, Hopt.
  - intros t c k Hactive Hc Hconn Hopt. unfold ModCmd.moduleCmd, ModCmd.execOnTarget.
    now rewrite Hactive, Hc, Hconn, Hopt.
Qed.

End WithSendCmd.

(** Two connected targets and none selected: [id] goes to both. *)
Lemma moduleCmd_broadcasts_to_connected_targets_witness :
  exists st',
    moduleCmd (fun _ _ _ => None) ScenarioMore.cmd_none_selected = (st', Ret tt) /\
    sent st' = [("id", "", Scenario.abcd_agent); ("id", "", ScenarioMore.efgh_agent)].
Proof.
  destruct (moduleCmd_broadcasts_to_connected_targets (fun _ _ _ => None)
              ScenarioMore.cmd_none_selected) as [Hall _].
  - cbn. apply NoDup_cons_2; [|apply NoDup_singleton].
    rewrite list_elem_of_singleton. discriminate.
  - repeat (apply List.Forall_cons; [discriminate|]). apply List.Forall_nil.
  - destruct (Hall "id" eq_refl) as (st' & Hrun & Hsent); [vm_compute; reflexivity|].
    exists st'. split; [exact Hrun | exact Hsent].
Defined.

End ModCmdFacts.

(** ** The session scavenger and [dial] *)
Module ScavengerFacts.
Import Scavenger.

(** What one sweep of the list does. *)
Lemma sweep_spec now l :
  forall k closed log by_ttl nl c' lg' bt',
    sweep now k l closed log by_ttl = (nl, c', lg', bt') ->
    closed ⊆ c' /\
    (exists added,
       bt' = (by_ttl ++ added)%list /\
       Forall (fun it => fst it ∈ c' /\
                 exists s, In s l /\ session s = fst it /\ (expiryDate s < snd it)%Z)
              added) /\
    Forall (fun s => In s l /\ exists k', (now k' <= expiryDate s)%Z) nl.
Proof.
  induction l as [|s l IH]; intros k closed log by_ttl nl c' lg' bt'; cbn [sweep].
  - intros [= <- <- <- <-]. split; [reflexivity|]. split; [|constructor].
    exists []. split; [now rewrite app_nil_r | constructor].
  - destruct (bool_decide (session s ∈ closed)) eqn:Hclosed.
    + intros H. destruct (IH _ _ _ _ _ _ _ _ H) as (Hsub & (added & -> & Hadded) & Hkept).
      split; [exact Hsub|]. split.
      * exists added. split; [reflexivity|].
        eapply Forall_impl; [exact Hadded|]. intros it (Hin & s' & Hs' & Hid & Hlt).
        split; [exact Hin|]. exists s'. split; [now right | tauto].
      * eapply Forall_impl; [exact Hkept|]. intros s' (Hs' & Hk). split; [now right | exact Hk].
    + destruct (expiryDate s <? now k)%Z eqn:Hexp.
      * intros H. destruct (IH _ _ _ _ _ _ _ _ H) as (Hsub & (added & -> & Hadded) & Hkept).
        split; [etrans; [apply union_subseteq_r | exact Hsub]|]. split.
        -- exists ((session s, now k) :: added). split; [now rewrite <- app_assoc|].
           apply Forall_cons. split.
           ++ cbn [fst snd]. split; [apply Hsub, elem_of_union_l, elem_of_singleton; reflexivity|].
              exists s. split; [now left|].
              split; [reflexivity | now apply Z.ltb_lt].
           ++ eapply Forall_impl; [exact Hadded|]. intros it (Hin & s' & Hs' & Hid & Hlt).
              split; [exact Hin|]. exists s'. split; [now right | tauto].
        -- eapply Forall_impl; [exact Hkept|]. intros s' (Hs' & Hk).
           split; [now right | exact Hk].
      * destruct (sweep now (S k) l closed log by_ttl) as [[[nl0 c0] lg0] bt0] eqn:Hrest.
        intros [= <- <- <- <-].
        destruct (IH _ _ _ _ _ _ _ _ Hrest) as (Hsub & (added & -> & Hadded) & Hkept).
        split; [exact Hsub|]. split.
        -- exists added. split; [reflexivity|].
           eapply Forall_impl; [exact Hadded|]. intros it (Hin & s' & Hs' & Hid & Hlt).
           split; [exact Hin|]. exists s'. split; [now right | tauto].
        -- apply Forall_cons. split.
           ++ split; [now left|]. exists k. now apply Z.ltb_ge.
           ++ eapply Forall_impl; [exact Hkept|]. intros s' (Hs' & Hk).
              split; [now right | exact Hk].
Qed.

Section WithTTL.
Variable ScavengeTTL : Z.

Local Abbreviation from_channel := (Scavenger.from_channel ScavengeTTL).

Lemma run_snoc st evs ev :
  run ScavengeTTL st (evs ++ [ev]) = step ScavengeTTL (run ScavengeTTL st evs) ev.
Proof. unfold run. now rewrite fold_left_app. Qed.

Lemma from_channel_more evs ev s : from_channel evs s -> from_channel (evs ++ [ev]) s.
Proof.
  intros (item & Hin & H). exists item. split; [|exact H]. apply in_or_app. now left.
Qed.

Lemma scavenger_invariant closed0 evs :
  let st := run ScavengeTTL (start closed0) evs in
  Forall (from_channel evs) (sessionList st) /\
  Forall (fun it => fst it ∈ closed st /\
            exists s, from_channel evs s /\ session s = fst it /\
                      (expiryDate s < snd it)%Z)
         (closed_by_ttl st).
Proof.
  induction evs as [|ev evs IH] using rev_ind; [split; constructor|].
  cbn zeta in *. rewrite run_snoc. destruct IH as [Hlist Hlog].
  set (st := run ScavengeTTL (start closed0) evs) in *.
  destruct ev as [item|now|s]; cbn [step].
  - cbn [sessionList closed closed_by_ttl]. split.
    + apply Forall_app. split.
      * eapply Forall_impl; [exact Hlist|]. intros s. apply from_channel_more.
      * apply Forall_singleton. exists item. split; [|split; reflexivity].
        apply in_or_app. right. now left.
    + eapply Forall_impl; [exact Hlog|]. intros it (Hin & s & Hs & H).
      split; [exact Hin|]. exists s. split; [now apply from_channel_more | exact H].
  - destruct (sweep now 0 (sessionList st) (closed st) (log st) (closed_by_ttl st))
      as [[[nl c'] lg'] bt'] eqn:Hsweep.
    destruct (sweep_spec _ _ _ _ _ _ _ _ _ _ Hsweep) as (Hsub & (added & -> & Hadded) & Hkept).
    cbn [sessionList closed closed_by_ttl]. split.
    + rewrite Forall_forall in Hlist. apply Forall_forall. intros s Hs.
      rewrite Forall_forall in Hkept. destruct (Hkept s Hs) as [Hin _].
      apply from_channel_more, Hlist. now apply list_elem_of_In.
    + apply Forall_app. split.
      * eapply Forall_impl; [exact Hlog|]. intros it (Hin & s & Hs & H).
        split; [apply Hsub, Hin|]. exists s. split; [now apply from_channel_more | exact H].
      * eapply Forall_impl; [exact Hadded|]. intros it (Hin & s & Hs & Hid & Hlt).
        split; [exact Hin|]. exists s. split; [|tauto].
        rewrite Forall_forall in Hlist. apply from_channel_more, Hlist.
        now apply list_elem_of_In.
  - cbn [sessionList closed closed_by_ttl]. split.
    + eapply Forall_impl; [exact Hlist|]. intros s'. apply from_channel_more.
    + eapply Forall_impl; [exact Hlog|]. intros it (Hin & s' & Hs & H).
      split; [apply elem_of_union_r, Hin|]. exists s'. split; [now apply from_channel_more | exact H].
Qed.


End WithTTL.


(** X29: [dial] picks a port of the configured range.  For a range of
    ports with [MinPort <= MaxPort] the port it dials lies between the two,
    whatever the random number; for the empty range that ends one below
    its start it panics on a division by zero. *)
Theorem dial_port_within_range MinPort MaxPort randport :
  (0 <= MinPort)%Z -> (MaxPort <= 65535)%Z -> (0 <= randport)%Z ->
  ((MinPort <= MaxPort)%Z ->
   exists port, dial_port MinPort MaxPort randport = Ret port /\
                (MinPort <= port <= MaxPort)%Z) /\
  ((MaxPort = MinPort - 1)%Z ->
   dial_port MinPort MaxPort randport = Panic "integer divide by zero").
Proof.
  intros Hmin Hmax Hr. unfold dial_port. split.
  - intros Hle.
    rewrite (Z.mod_small (MaxPort - MinPort + 1)) by lia.
    destruct (Z.eqb_spec (MaxPort - MinPort + 1) 0) as [E|E]; [lia|].
    pose proof (Z.mod_pos_bound randport (MaxPort - MinPort + 1)) as Hb.
    eexists. split; [reflexivity|].
    rewrite Z.mod_small by lia. lia.
  - intros ->. replace (MinPort - 1 - MinPort + 1)%Z with 0%Z by lia. reflexivity.
Qed.

(** The range 29900-29999 and a large random number. *)
Lemma dial_port_within_range_witness :
  dial_port 29900 29999 18446744073709551557 = Ret 29957%Z /\
  dial_port 29900 29899 7 = Panic "integer divide by zero".
Proof.
  split.
  - reflexivity.
  - apply (dial_port_within_range 29900 29899 7); lia.
Defined.

End ScavengerFacts.

(** ** Listing the targets *)
Module TargetListFacts.
Import Registry TargetList.

Lemma labelAgents_loop_total ts :
  Forall (fun tc => snd tc <> None) ts ->
  forall new old, exists r, labelAgents_loop ts new old = Ret r.
Proof.
  induction ts as [|[t [c|]] ts IH]; intros Hall new old; cbn [labelAgents_loop].
  - eauto.
  - apply Forall_cons in Hall as [_ Hall].
    destruct (String.eqb (Label c) ""); [now apply IH|].
    destruct (update_old old (Tunnel.agent_Tag t) (Label c)); now apply IH.
  - apply Forall_cons in Hall as [Hne _]. contradiction.
Qed.

Section WithProcess.
Variable has_Process : Tunnel.Emp3r0rAgent -> bool.

Local Abbreviation fill_table := (fill_table has_Process).
Local Abbreviation ListTargets := (ListTargets has_Process).

(** The control of an agent after the loop of [ListTargets] has passed
    over it. *)
Local Abbreviation listed c :=
  (if String.eqb (Label c) ""
   then {| Index := Index c; Label := "nolabel"; Conn := Conn c |}
   else c).

Lemma fill_table_relabels cur ts :
  Forall (fun tc => snd tc <> None) ts ->
  Forall (fun tc => has_Process (fst tc) = true) ts ->
  forall tdata tail,
    exists ts' res,
      fill_table ts cur tdata tail = (ts', Ret res) /\
      tags ts' = tags ts /\
      Forall (fun tc => snd tc <> None) ts' /\
      forall t c, In (t, Some c) ts -> In (t, Some (listed c)) ts'.
Proof.
  induction ts as [|[t [c|]] ts IH]; intros Hall Hproc tdata tail.
  - exists [], (tdata, tail). repeat split; [constructor | intros t c []].
  - apply Forall_cons in Hall as [_ Hall]. apply Forall_cons in Hproc as [Hp Hproc].
    cbn [fst] in Hp. cbn [TargetList.fill_table]. rewrite Hp. cbn [negb].
    match goal with
    | |- context [if ?sel then _ else _] =>
        destruct sel;
        [destruct (IH Hall Hproc tdata
                     (Some {| row_Index := Index (listed c); row_selected := true;
                              row_Label := Label (listed c);
                              row_Tag := Tunnel.agent_Tag t |}))
           as (ts' & res & Hfill & Htags & Hnil & Hin)
        |destruct (IH Hall Hproc
                     (tdata ++ [{| row_Index := Index (listed c); row_selected := false;
                                   row_Label := Label (listed c);
                                   row_Tag := Tunnel.agent_Tag t |}])%list tail)
           as (ts' & res & Hfill & Htags & Hnil & Hin)]
    end; rewrite Hfill; eexists _, _; (split; [reflexivity|]);
      (split; [cbn [tags map fst]; f_equal; exact Htags|]);
      (split; [apply Forall_cons; split; [discriminate | exact Hnil]|]);
      intros t' c' [[= -> ->] | Hin']; [now left | right; now apply Hin
                                       | now left | right; now apply Hin].
  - apply Forall_cons in Hall as [Hne _]. contradiction.
Qed.

(** X30: listing the targets labels them.  [ListTargets] writes the label
    [nolabel] into the control of every target that has none, so a
    [labelAgents] that follows saves it: from the file it leaves,
    [SetAgentLabel] reads [nolabel] for every agent the operator never
    labelled, and the operator's label for the others. *)
Theorem ListTargets_makes_nolabel_permanent ts cur old :
  NoDup (tags ts) ->
  Forall (fun tc => snd tc <> None) ts ->
  Forall (fun tc => has_Process (fst tc) = true) ts ->
  exists ts' rows file',
    ListTargets ts cur = (ts', Ret rows) /\
    labelAgents ts' (Labels old) true = Ret file' /\
    forall t c, In (t, Some c) ts ->
      fst (SetAgentLabel ts' file' t)
      = if String.eqb (Label c) "" then "nolabel" else Label c.
Proof.
  intros Hnd Hall Hproc.
  destruct (fill_table_relabels cur ts Hall Hproc [] None)
    as (ts' & [tdata tail] & Hfill & Htags & Hnil & Hin).
  assert (Hfile : exists file', labelAgents ts' (Labels old) true = Ret file').
  { unfold labelAgents.
    destruct (labelAgents_loop_total ts' Hnil [] old) as ([new1 old1] & ->).
    destruct (Nat.eqb _ 0); eauto. }
  destruct Hfile as (file' & Hfile).
  exists ts', (match tail with Some r => (tdata ++ [r])%list | None => tdata end), file'.
  split; [unfold TargetList.ListTargets; now rewrite Hfill|]. split; [exact Hfile|].
  intros t c Htc.
  rewrite <- Htags in Hnd.
  destruct (RegistryFacts.labelAgents_records ts' old file' Hnd Hfile t (listed c)
              (Hin t c Htc)) as (l' & -> & Hl').
  - destruct (String.eqb (Label c) "") eqn:Hl; [discriminate|].
    now apply String.eqb_neq in Hl.
  - unfold SetAgentLabel. rewrite Hl'. cbn [fst].
    destruct (String.eqb (Label c) ""); reflexivity.
Qed.

End WithProcess.

(** [efgh-agent] was never labelled; after [ListTargets] and
    [labelAgents] its label reads [nolabel]. *)
Lemma ListTargets_makes_nolabel_permanent_witness :
  exists ts' rows file',
    ListTargets (fun _ => true) ScenarioMore.two_targets None = (ts', Ret rows) /\
    labelAgents ts' (Labels ScenarioMore.old_labels) true = Ret file' /\
    fst (SetAgentLabel ts' file' ScenarioMore.efgh_agent) = "nolabel" /\
    fst (SetAgentLabel ts' file' Scenario.abcd_agent) = "db".
Proof.
  destruct (ListTargets_makes_nolabel_permanent (fun _ => true) ScenarioMore.two_targets
              None ScenarioMore.old_labels)
    as (ts' & rows & file' & Hlist & Hfile & Hlabels).
  - cbn. apply NoDup_cons_2; [|apply NoDup_singleton].
    rewrite list_elem_of_singleton. discriminate.
  - repeat (apply List.Forall_cons; [discriminate|]). apply List.Forall_nil.
  - repeat (apply List.Forall_cons; [reflexivity|]). apply List.Forall_nil.
  - exists ts', rows, file'. split; [exact Hlist|]. split; [exact Hfile|]. split.
    + apply (Hlabels ScenarioMore.efgh_agent
               {| Index := 1; Label := ""; Conn := Some 9%positive |}).
      right. now left.
    + apply (Hlabels Scenario.abcd_agent
               {| Index := 0; Label := "db"; Conn := Some 7%positive |}).
      now left.
Defined.

End TargetListFacts.
